(** * vidcore: session credentials and relationship-graph queries

    A shallow embedding of the user controller (login, logout, refresh,
    password change, channel profile, watch history and the first check of
    registration), the authentication middleware
    ([middlewares/auth.middleware.js]) and the user model
    ([models/user.model.js]) of the vidcore backend, followed by the
    properties of the credential lifecycle and of the two aggregation
    queries.

    Conventions of the embedding.
    - A JavaScript value that may be [undefined] or [null] is an [option].
    - Plain strings (handles, addresses, passwords, messages) are [string]s
      over the characters U+0000 to U+00FF: an [ascii] is the code point of
      its character (["065"] is [A], ["160"] the no-break space, ["201"] the
      capital E with acute accent), not a byte of an encoding.  Text with a
      character beyond U+00FF is outside the development.  A string that may
      carry a credential (cookie, [Authorization] header, stored refresh
      token) is a [Text]: a sequence of characters and of signed-token atoms.
    - The three MongoDB collections are lists of documents in natural
      (insertion) order.
    - The wall clock in seconds, as [jsonwebtoken] reads it, the date in
      milliseconds, as Mongoose stamps it on a write, and the salt drawn by
      [bcrypt] are explicit inputs of every handler.
    - A handler is a computation in the monad [M]: it reads and writes the
      database and either returns or throws. *)

From Stdlib Require Import ZArith Ascii String.
From stdpp Require Import base decidable option list strings.

Local Open Scope string_scope.
Local Open Scope list_scope.

(** ** JavaScript strings *)

Module Js.

(** The characters [String.prototype.trim] removes are the white space and
    the line terminators of ECMAScript.  Those up to U+00FF are TAB, LF, VT,
    FF, CR (U+0009 to U+000D), SPACE (U+0020) and the no-break space
    (U+00A0); the others (U+1680, U+2000 to U+200A, U+2028, U+2029, U+202F,
    U+205F, U+3000, U+FEFF) lie beyond the characters of a [string]. *)
Definition isWhiteSpace (c : ascii) : bool :=
  let n := nat_of_ascii c in
  ((9 <=? n)%nat && (n <=? 13)%nat) || (n =? 32)%nat || (n =? 160)%nat.

Fixpoint trimStart (s : string) : string :=
  match s with
  | EmptyString => EmptyString
  | String c r => if isWhiteSpace c then trimStart r else s
  end.

Fixpoint trimEnd (s : string) : string :=
  match s with
  | EmptyString => EmptyString
  | String c r =>
      match trimEnd r with
      | EmptyString => if isWhiteSpace c then EmptyString else String c EmptyString
      | r' => String c r'
      end
  end.

(** [s.trim()] *)
Definition trim (s : string) : string := trimEnd (trimStart s).

(** The lower-case mapping of Unicode on the characters up to U+00FF: the
    capital letters are [A] to [Z] (U+0041 to U+005A) and U+00C0 to U+00DE
    without the multiplication sign U+00D7, and the small letter of each is
    32 code points further.  Every other character of the range, the sharp
    s U+00DF and the micro sign U+00B5 included, is its own image. *)
Definition lowerChar (c : ascii) : ascii :=
  let n := nat_of_ascii c in
  if ((65 <=? n)%nat && (n <=? 90)%nat)
     || ((192 <=? n)%nat && (n <=? 214)%nat)
     || ((216 <=? n)%nat && (n <=? 222)%nat)
  then ascii_of_nat (n + 32) else c.

(** [s.toLowerCase()] *)
Fixpoint toLowerCase (s : string) : string :=
  match s with
  | EmptyString => EmptyString
  | String c r => String (lowerChar c) (toLowerCase r)
  end.

(** Truthiness of a possibly-undefined string: [undefined] and the empty
    string are falsy. *)
Definition truthy (v : option string) : bool :=
  match v with
  | None => false
  | Some s => negb (bool_decide (s = ""))
  end.

End Js.

(** ** Credential texts *)

Definition ObjectId := N.

(** Claims of a signed token.  The access token carries the four fields,
    the refresh token only [_id]; [iat] and [exp] are added by
    [jwt.sign]. *)
Record JwtPayload := mkPayload {
  p_id : ObjectId;
  p_email : option string;
  p_username : option string;
  p_fullName : option string;
}.

(** A token in compact serialisation, taken as an atom: its claims, its
    issue and expiry seconds, and the secret its signature was computed
    with.  Two atoms are the same text exactly when these agree, and an
    atom verifies under a secret only if it was signed with it. *)
Record Jwt := mkJwt {
  jwt_payload : JwtPayload;
  jwt_iat : Z;
  jwt_exp : Z;
  jwt_key : string;
}.

Inductive Sym :=
| Chr (c : ascii)
| Tok (j : Jwt).

(** A string that may contain signed tokens. *)
Definition Text := list Sym.

#[global] Instance JwtPayload_eq_dec : EqDecision JwtPayload.
Proof. solve_decision. Defined.
#[global] Instance Jwt_eq_dec : EqDecision Jwt.
Proof. solve_decision. Defined.
#[global] Instance Sym_eq_dec : EqDecision Sym.
Proof. solve_decision. Defined.

Module Txt.

(** A plain string read as a text. *)
Fixpoint ofString (s : string) : Text :=
  match s with
  | EmptyString => []
  | String c r => Chr c :: ofString r
  end.

(** The text of one signed token. *)
Definition ofJwt (j : Jwt) : Text := [Tok j].

Definition truthy (v : option Text) : bool :=
  match v with
  | None => false
  | Some [] => false
  | Some (_ :: _) => true
  end.

Definition or (a b : option Text) : option Text :=
  if truthy a then a else b.

(** [startsWith pat t] returns the rest of [t] after the prefix [pat]. *)
Fixpoint startsWith (pat t : Text) : option Text :=
  match pat, t with
  | [], _ => Some t
  | _ :: _, [] => None
  | p :: pat', x :: t' => if decide (p = x) then startsWith pat' t' else None
  end.

(** [t.replace(pat, "")] for a string pattern: the first occurrence of
    [pat], scanning from the left, is removed; a text without occurrence
    is returned as it is. *)
Fixpoint replaceFirst (pat t : Text) : Text :=
  match startsWith pat t with
  | Some rest => rest
  | None =>
      match t with
      | [] => []
      | x :: t' => x :: replaceFirst pat t'
      end
  end.

End Txt.

(** ** Errors *)

(** What a handler can throw: the repository's [ApiError] (status code and
    message), or an error raised by the runtime or by a package
    ([TypeError], [JsonWebTokenError], ...), of which only the name and the
    message are kept. *)
Inductive JsError :=
| ApiError (statusCode : Z) (message : string)
| RuntimeError (name : string) (message : string).

(** [error?.message] *)
Definition message_of (e : JsError) : string :=
  match e with
  | ApiError _ m => m
  | RuntimeError _ m => m
  end.

#[global] Instance JsError_eq_dec : EqDecision JsError.
Proof. solve_decision. Defined.

(** ** The jsonwebtoken package (HMAC signatures) *)

(** [process.env], with the two lifetimes already read as seconds. *)
Record Env := mkEnv {
  ACCESS_TOKEN_SECRET : string;
  ACCESS_TOKEN_EXPIRY : Z;
  REFRESH_TOKEN_SECRET : string;
  REFRESH_TOKEN_EXPIRY : Z;
}.

Module jwt.

(** [jwt.sign(payload, secret, { expiresIn })] at clock second [now]: the
    package stamps [iat = now] and [exp = now + expiresIn] and signs.  The
    result is a function of its arguments and of the clock second only. *)
Definition sign (payload : JwtPayload) (secret : string) (expiresIn now : Z) : Text :=
  Txt.ofJwt (mkJwt payload now (now + expiresIn) secret).

(** [jwt.verify(token, secret)] at clock second [now]: a text that is not
    one token is malformed; then the signature is checked; then the
    expiry. *)
Definition verify (token : Text) (secret : string) (now : Z) : JsError + JwtPayload :=
  match token with
  | [Tok j] =>
      if negb (bool_decide (jwt_key j = secret))
      then inl (RuntimeError "JsonWebTokenError" "invalid signature")
      else if (jwt_exp j <=? now)%Z
      then inl (RuntimeError "TokenExpiredError" "jwt expired")
      else inr (jwt_payload j)
  | _ => inl (RuntimeError "JsonWebTokenError" "jwt malformed")
  end.

End jwt.

(** ** The bcrypt package *)

(** The text held by a password field: characters typed by a client, or a
    digest, which records the salt and what was hashed. *)
Inductive PwText :=
| Plain (s : string)
| Digest (salt : N) (data : PwText).

#[global] Instance PwText_eq_dec : EqDecision PwText.
Proof. solve_decision. Defined.

Module bcrypt.

(** [bcrypt.hash(data, 10)], with the salt the package draws. *)
Definition hash (data : PwText) (salt : N) : PwText := Digest salt data.

(** [bcrypt.compare(data, encrypted)]: throws when an argument is missing,
    and answers [false] for a text that is not a digest. *)
Definition compare (data : option string) (encrypted : option PwText) : JsError + bool :=
  match data, encrypted with
  | Some d, Some (Digest _ h) => inr (bool_decide (Plain d = h))
  | Some _, Some (Plain _) => inr false
  | _, _ => inl (RuntimeError "Error" "data and hash arguments required")
  end.

End bcrypt.

(** ** Documents and collections *)

(** A date, in milliseconds since the epoch. *)
Definition Date := Z.

Bind Scope Z_scope with Date.

(** A document of the [users] collection ([userSchema]).  [password] and
    [refreshToken] are optional here because a projection may leave them
    out; a stored document always has a password.  [createdAt] and
    [updatedAt] are the two paths the schema option [timestamps: true]
    adds. *)
Record User := mkUser {
  _id : ObjectId;
  username : string;
  email : string;
  fullName : string;
  avatar : string;
  coverImage : option string;
  watchHistory : list ObjectId;
  password : option PwText;
  refreshToken : option Text;
  createdAt : Date;
  updatedAt : Date;
}.

(** A document with one path set to a value. *)
Definition set_avatar (v : string) (u : User) : User :=
  mkUser (_id u) (username u) (email u) (fullName u) v
         (coverImage u) (watchHistory u) (password u) (refreshToken u)
         (createdAt u) (updatedAt u).

Definition set_coverImage (v : option string) (u : User) : User :=
  mkUser (_id u) (username u) (email u) (fullName u) (avatar u)
         v (watchHistory u) (password u) (refreshToken u)
         (createdAt u) (updatedAt u).

Definition set_password (v : option PwText) (u : User) : User :=
  mkUser (_id u) (username u) (email u) (fullName u) (avatar u)
         (coverImage u) (watchHistory u) v (refreshToken u)
         (createdAt u) (updatedAt u).

Definition set_refreshToken (v : option Text) (u : User) : User :=
  mkUser (_id u) (username u) (email u) (fullName u) (avatar u)
         (coverImage u) (watchHistory u) (password u) v
         (createdAt u) (updatedAt u).

Definition set_updatedAt (v : Date) (u : User) : User :=
  mkUser (_id u) (username u) (email u) (fullName u) (avatar u)
         (coverImage u) (watchHistory u) (password u) (refreshToken u)
         (createdAt u) v.

(** A document of the [subscriptions] collection, as the aggregation reads
    it. *)
Record Subscription := mkSubscription {
  subscriber : ObjectId;
  channel : ObjectId;
}.

(** A document of the [videos] collection: its id, its owner reference and
    the other stored fields, which the queries carry along untouched. *)
Record Video := mkVideo {
  video_id : ObjectId;
  owner : option ObjectId;
  video_fields : list (string * string);
}.

Record Db := mkDb {
  users : list User;
  subscriptions : list Subscription;
  videos : list Video;
}.

#[global] Instance User_eq_dec : EqDecision User.
Proof. solve_decision. Defined.
#[global] Instance Subscription_eq_dec : EqDecision Subscription.
Proof. solve_decision. Defined.
#[global] Instance Video_eq_dec : EqDecision Video.
Proof. solve_decision. Defined.
#[global] Instance Db_eq_dec : EqDecision Db.
Proof. solve_decision. Defined.

(** ** Handlers as computations *)

(** A computation reads and writes the database and returns or throws.
    Writes made before a throw stay. *)
Definition M (A : Type) : Type := Db → Db * (JsError + A).

Definition ret {A} (a : A) : M A := λ db, (db, inr a).

Definition throw {A} (e : JsError) : M A := λ db, (db, inl e).

Definition bind {A B} (m : M A) (k : A → M B) : M B :=
  λ db, match m db with
        | (db', inr a) => k a db'
        | (db', inl e) => (db', inl e)
        end.

(** [try { m } catch (error) { h error }] *)
Definition try_catch {A} (m : M A) (h : JsError → M A) : M A :=
  λ db, match m db with
        | (db', inr a) => (db', inr a)
        | (db', inl e) => h e db'
        end.

(** Lifting of a package call that returns or throws. *)
Definition lift {A} (r : JsError + A) : M A :=
  match r with
  | inl e => throw e
  | inr a => ret a
  end.

Definition gets {A} (f : Db → A) : M A := λ db, (db, inr (f db)).

Definition modify (f : Db → Db) : M unit := λ db, (f db, inr tt).

Declare Scope js_scope.
Delimit Scope js_scope with js.
Notation "'let*' x ':=' m 'in' k" := (bind m (λ x, k))
  (at level 10, x pattern, m at level 100, k at level 200) : js_scope.

Local Open Scope js_scope.

(** ** Mongoose: queries and updates on the [users] collection *)

(** Clearing of one optional path of a user document: what the exclusion
    [select("-path")] does to the returned document and what
    [$unset: { path: 1 }] does to the stored one.  Only the optional paths
    of the schema are excluded or unset by the code. *)
Definition without (path : string) (u : User) : User :=
  if bool_decide (path = "password") then set_password None u
  else if bool_decide (path = "refreshToken") then set_refreshToken None u
  else if bool_decide (path = "coverImage") then set_coverImage None u
  else u.

(** [query.select("-p1 -p2 ...")], the exclusions given as a list. *)
Definition select (excluded : list string) (r : option User) : option User :=
  (λ u, foldr without u excluded) <$> r.

(** The first document of a collection that satisfies [P]. *)
Definition findFirst {A} (P : A → bool) (l : list A) : option A :=
  head (filter (λ a, P a = true) l).

(** The collection with its first document that satisfies [P] replaced by
    its image under [f]. *)
Fixpoint updateFirst {A} (P : A → bool) (f : A → A) (l : list A) : list A :=
  match l with
  | [] => []
  | a :: r => if P a then f a :: r else a :: updateFirst P f r
  end.

Definition hasId (id : ObjectId) (u : User) : bool := bool_decide (_id u = id).

Definition setUsers (f : list User → list User) (db : Db) : Db :=
  mkDb (f (users db)) (subscriptions db) (videos db).

Module UserModel.

(** [User.findById(id)]; an undefined id finds nothing. *)
Definition findById (id : option ObjectId) : M (option User) :=
  gets (λ db, match id with
              | Some i => findFirst (hasId i) (users db)
              | None => None
              end).

(** A query filter is cast through the schema before it is sent: a value
    for [username] goes through the setters of [trim: true] and
    [lowercase: true], a value for [email] through the setter of
    [trim: true] only (the schema spells the other option [lowecase], which
    is no option).  The stages of an aggregation are not cast. *)
Definition castUsername (v : string) : string := Js.toLowerCase (Js.trim v).

Definition castEmail (v : string) : string := Js.trim v.

(** The filter [{ $or: [{ username }, { email }] }] after casting: an
    undefined value matches no document, since both paths are required. *)
Definition matchesUsernameOrEmail (uname mail : option string) (u : User) : bool :=
  bool_decide (castUsername <$> uname = Some (username u))
  || bool_decide (castEmail <$> mail = Some (email u)).

(** [User.findOne({ $or: [{ username }, { email }] })] *)
Definition findOne (uname mail : option string) : M (option User) :=
  gets (λ db, findFirst (matchesUsernameOrEmail uname mail) (users db)).

(** With [timestamps: true] every update sent through the model also sets
    [updatedAt] to the date of the call. *)
Definition applyTimestampsToUpdate (now : Date) (update : User → User) (u : User) : User :=
  set_updatedAt now (update u).

(** [User.findByIdAndUpdate(id, { $unset: { path: 1 } }, { new: true })] *)
Definition findByIdAndUpdate_unset (now : Date) (id : option ObjectId) (path : string)
  : M (option User) :=
  match id with
  | Some i =>
      let* _ := modify (setUsers (updateFirst (hasId i)
                                    (applyTimestampsToUpdate now (without path)))) in
      findById (Some i)
  | None => ret None
  end.

End UserModel.

(** A document loaded in memory: its fields and the paths modified since
    it was loaded. *)
Record Document := mkDocument {
  fields : User;
  modifiedPaths : list string;
}.

Definition load (u : User) : Document := mkDocument u [].

(** An assignment to a path of a document in memory: the path takes the
    value, and counts as modified when the value is not the one the path
    had. *)
Definition marked (path : string) (changed : bool) (d : Document) : list string :=
  if changed then path :: modifiedPaths d else modifiedPaths d.

(** [user.refreshToken = value] *)
Definition assign_refreshToken (value : option Text) (d : Document) : Document :=
  mkDocument (set_refreshToken value (fields d))
             (marked "refreshToken" (negb (bool_decide (refreshToken (fields d) = value))) d).

(** [user.password = value] *)
Definition assign_password (value : option PwText) (d : Document) : Document :=
  mkDocument (set_password value (fields d))
             (marked "password" (negb (bool_decide (password (fields d) = value))) d).

Definition assign_updatedAt (value : Date) (d : Document) : Document :=
  mkDocument (set_updatedAt value (fields d))
             (marked "updatedAt" (negb (bool_decide (updatedAt (fields d) = value))) d).

(** [this.isModified(path)], and [this.isModified()] for any path. *)
Definition isModified (path : string) (d : Document) : bool :=
  bool_decide (path ∈ modifiedPaths d).

Definition isModifiedAny (d : Document) : bool :=
  negb (bool_decide (modifiedPaths d = [])).

(** The hook [timestamps: true] adds before a save: a document loaded from
    the collection takes the date of the save as its [updatedAt] when one of
    its paths was modified. *)
Definition timestampsPreSave (now : Date) (d : Document) : Document :=
  if isModifiedAny d then assign_updatedAt now d else d.

(** [userSchema.pre("save", ...)]: the password is hashed only when it was
    modified; any other save leaves it as it is. *)
Definition pre_save (salt : N) (d : Document) : M Document :=
  if negb (isModified "password" d) then ret d
  else
    match password (fields d) with
    | Some p => ret (assign_password (Some (bcrypt.hash p salt)) d)
    | None => throw (RuntimeError "Error" "data and salt arguments required")
    end.

(** [user.save({ validateBeforeSave: false })]: the two hooks run, that of
    the time stamps first, then the stored document with the same id takes
    the fields of the one in memory (for a document without modified path
    these are the stored ones, and Mongoose sends nothing). *)
Definition save (now : Date) (salt : N) (d : Document) : M unit :=
  let* d' := pre_save salt (timestampsPreSave now d) in
  modify (setUsers (updateFirst (hasId (_id (fields d'))) (λ _, fields d'))).

(** ** Methods of the user model *)

(** [user.isPasswordCorrect(password)] *)
Definition isPasswordCorrect (u : User) (pw : option string) : M bool :=
  lift (bcrypt.compare pw (password u)).

(** [user.generateAccessToken()] *)
Definition generateAccessToken (env : Env) (now : Z) (u : User) : Text :=
  jwt.sign (mkPayload (_id u) (Some (email u)) (Some (username u)) (Some (fullName u)))
           (ACCESS_TOKEN_SECRET env) (ACCESS_TOKEN_EXPIRY env) now.

(** [user.generateRefreshToken()] *)
Definition generateRefreshToken (env : Env) (now : Z) (u : User) : Text :=
  jwt.sign (mkPayload (_id u) None None None)
           (REFRESH_TOKEN_SECRET env) (REFRESH_TOKEN_EXPIRY env) now.

(** ** Requests and responses *)

(** The parts of an Express request the handlers read.  [req_user] is what
    the authentication middleware attached. *)
Record Request := mkRequest {
  cookies_accessToken : option Text;
  cookies_refreshToken : option Text;
  header_Authorization : option Text;
  body_fullName : option string;
  body_email : option string;
  body_username : option string;
  body_password : option string;
  body_oldPassword : option string;
  body_newPassword : option string;
  body_refreshToken : option Text;
  params_username : option string;
  req_user : option User;
}.

(** What one request reads from outside: the clock second [jsonwebtoken]
    stamps and checks tokens with, the salt bcrypt would draw, and the date
    Mongoose would stamp on a write. *)
Record World := mkWorld {
  clock : Z;
  salt : N;
  date : Date;
}.

(** [res.cookie(name, value, options)] and [res.clearCookie(name, options)];
    the options are the same constant everywhere. *)
Inductive Cookie :=
| SetCookie (name : string) (value : option Text)
| ClearCookie (name : string).

(** The owner of a video as the inner [$project] leaves it. *)
Record OwnerView := mkOwnerView {
  owner_id : ObjectId;
  owner_fullName : string;
  owner_username : string;
  owner_avatar : string;
}.

(** One element of the watch history that is sent back. *)
Record WatchEntry := mkWatchEntry {
  entry_id : ObjectId;
  entry_owner : option OwnerView;
  entry_fields : list (string * string);
}.

(** The channel document after the last [$project]. *)
Record Channel := mkChannel {
  channel_id : ObjectId;
  channel_fullName : string;
  channel_username : string;
  subscribersCount : nat;
  channelsSubscribedToCount : nat;
  isSubscribed : bool;
  channel_avatar : string;
  channel_coverImage : option string;
  channel_email : string;
}.

(** The [data] of an [ApiResponse]. *)
Inductive Data :=
| DataEmpty
| DataLogin (user : option User) (accessToken refreshToken : option Text)
| DataTokens (accessToken refreshToken : option Text)
| DataChannel (c : Channel)
| DataHistory (h : list WatchEntry).

(** [new ApiResponse(statusCode, data, message)] *)
Record ApiResponse := mkApiResponse {
  statusCode : Z;
  data : Data;
  message : string;
}.

(** [res.status(s).cookie(...)....json(body)] *)
Record Response := mkResponse {
  status : Z;
  cookies : list Cookie;
  json : ApiResponse;
}.

(** [message || fallback] *)
Definition messageOr (m fallback : string) : string :=
  if bool_decide (m = "") then fallback else m.

(** ** The user controller *)

(** The object [{ accessToken, refreshToken }] a token generation returns,
    read by property name as a destructuring does. *)
Record TokenPair := mkTokenPair {
  pair_accessToken : Text;
  pair_refreshToken : Text;
}.

Definition prop (name : string) (o : TokenPair) : option Text :=
  if bool_decide (name = "accessToken") then Some (pair_accessToken o)
  else if bool_decide (name = "refreshToken") then Some (pair_refreshToken o)
  else None.

Definition generateAccessAndRefereshTokens (env : Env) (w : World) (userId : ObjectId)
  : M TokenPair :=
  try_catch
    (let* user := UserModel.findById (Some userId) in
     match user with
     | None =>
         throw (RuntimeError "TypeError"
                  "Cannot read properties of null (reading 'generateAccessToken')")
     | Some user =>
         let accessToken := generateAccessToken env (clock w) user in
         let refreshToken := generateRefreshToken env (clock w) user in
         let user := assign_refreshToken (Some refreshToken) (load user) in
         let* _ := save (date w) (salt w) user in
         ret (mkTokenPair accessToken refreshToken)
     end)
    (λ _, throw (ApiError 500
                   "Something went wrong while generating refresh and access token")).

(** The first check of [registerUser]:
    [[fullName, email, username, password].some((field) => field?.trim() === "")]. *)
Definition someFieldBlank (l : list (option string)) : bool :=
  existsb (λ field, bool_decide (Js.trim <$> field = Some "")) l.

Definition registerUser_fieldsCheck (req : Request) : JsError + unit :=
  if someFieldBlank [body_fullName req; body_email req; body_username req; body_password req]
  then inl (ApiError 400 "All fields are required")
  else inr tt.

Definition loginUser (env : Env) (w : World) (req : Request) : M Response :=
  let email := body_email req in
  let username := body_username req in
  let password := body_password req in
  if negb (Js.truthy username) && negb (Js.truthy email)
  then throw (ApiError 400 "username or email is required")
  else
    let* user := UserModel.findOne username email in
    match user with
    | None => throw (ApiError 404 "User does not exist")
    | Some user =>
        let* isPasswordValid := isPasswordCorrect user password in
        if negb isPasswordValid
        then throw (ApiError 401 "Invalid user credentials")
        else
          let* tokens := generateAccessAndRefereshTokens env w (_id user) in
          let accessToken := prop "accessToken" tokens in
          let refreshToken := prop "refreshToken" tokens in
          let* loggedInUser :=
            bind (UserModel.findById (Some (_id user)))
                 (λ r, ret (select ["password"; "refreshToken"] r)) in
          ret (mkResponse 200
                 [SetCookie "accessToken" accessToken;
                  SetCookie "refreshToken" refreshToken]
                 (mkApiResponse 200
                    (DataLogin loggedInUser accessToken refreshToken)
                    "User logged In Successfully"))
    end.

Definition logoutUser (w : World) (req : Request) : M Response :=
  match req_user req with
  | None =>
      throw (RuntimeError "TypeError"
               "Cannot read properties of undefined (reading '_id')")
  | Some u =>
      let* _ := UserModel.findByIdAndUpdate_unset (date w) (Some (_id u)) "refreshToken" in
      ret (mkResponse 200
             [ClearCookie "accessToken"; ClearCookie "refreshToken"]
             (mkApiResponse 200 DataEmpty "User logged Out"))
  end.

Definition refreshAccessToken (env : Env) (w : World) (req : Request) : M Response :=
  let incomingRefreshToken := Txt.or (cookies_refreshToken req) (body_refreshToken req) in
  match incomingRefreshToken with
  | Some ((_ :: _) as incoming) =>
      try_catch
        (let* decodedToken :=
           lift (jwt.verify incoming (REFRESH_TOKEN_SECRET env) (clock w)) in
         let* user := UserModel.findById (Some (p_id decodedToken)) in
         match user with
         | None => throw (ApiError 401 "Invalid refresh token")
         | Some user =>
             if negb (bool_decide (Some incoming = refreshToken user))
             then throw (ApiError 401 "Refresh token is expired or used")
             else
               let* tokens := generateAccessAndRefereshTokens env w (_id user) in
               let accessToken := prop "accessToken" tokens in
               let newRefreshToken := prop "newRefreshToken" tokens in
               ret (mkResponse 200
                      [SetCookie "accessToken" accessToken;
                       SetCookie "refreshToken" newRefreshToken]
                      (mkApiResponse 200
                         (DataTokens accessToken newRefreshToken)
                         "Access token refreshed"))
         end)
        (λ error, throw (ApiError 401 (messageOr (message_of error) "Invalid refresh token")))
  | _ => throw (ApiError 401 "Unauthorized request")
  end.

Definition changeCurrentPassword (w : World) (req : Request) : M Response :=
  let oldPassword := body_oldPassword req in
  let newPassword := body_newPassword req in
  let* user := UserModel.findById (_id <$> req_user req) in
  match user with
  | None =>
      throw (RuntimeError "TypeError"
               "Cannot read properties of null (reading 'isPasswordCorrect')")
  | Some user =>
      let* isPasswordCorrect := isPasswordCorrect user oldPassword in
      if negb isPasswordCorrect
      then throw (ApiError 400 "Invalid old password")
      else
        let user := assign_password (Plain <$> newPassword) (load user) in
        let* _ := save (date w) (salt w) user in
        ret (mkResponse 200 []
               (mkApiResponse 200 DataEmpty "Password changed successfully"))
  end.

(** *** Aggregation stages *)

(** [$lookup] from [subscriptions] with [localField: "_id"] and the given
    foreign field: the subscription documents whose field equals the id,
    in collection order. *)
Definition lookup_subscriptions (foreignField : Subscription → ObjectId)
    (id : ObjectId) (db : Db) : list Subscription :=
  filter (λ s, foreignField s = id) (subscriptions db).

(** [{ $in: [viewer, "$subscribers.subscriber"] }]; an undefined viewer is
    in no list of subscriber ids. *)
Definition in_subscribers (viewer : option ObjectId) (subscribers : list Subscription) : bool :=
  match viewer with
  | Some v => bool_decide (v ∈ subscriber <$> subscribers)
  | None => false
  end.

(** The two [$lookup]s, [$addFields] and [$project] of the channel
    pipeline, applied to one matched user. *)
Definition channelOf (viewer : option ObjectId) (db : Db) (u : User) : Channel :=
  let subscribers := lookup_subscriptions channel (_id u) db in
  let subscribedTo := lookup_subscriptions subscriber (_id u) db in
  mkChannel (_id u) (fullName u) (username u)
            (length subscribers) (length subscribedTo)
            (if in_subscribers viewer subscribers then true else false)
            (avatar u) (coverImage u) (email u).

(** [User.aggregate([{ $match: { username } }, ...])] of
    [getUserChannelProfile]. *)
Definition aggregate_channel (uname : string) (viewer : option ObjectId) (db : Db)
  : list Channel :=
  channelOf viewer db <$> filter (λ u, username u = uname) (users db).

Definition getUserChannelProfile (req : Request) : M Response :=
  let username := params_username req in
  if negb (Js.truthy (Js.trim <$> username))
  then throw (ApiError 400 "username is missing")
  else
    let* channel :=
      gets (λ db, match Js.toLowerCase <$> username with
                  | Some lowered => aggregate_channel lowered (_id <$> req_user req) db
                  | None => []
                  end) in
    match channel with
    | [] => throw (ApiError 404 "channel does not exist")
    | first :: _ =>
        ret (mkResponse 200 []
               (mkApiResponse 200 (DataChannel first) "User channel fetched successfully"))
    end.

(** The inner [$lookup] from [users] on the video's [owner], with its
    [$project]: the owners found, each cut down to four fields. *)
Definition projectOwner (u : User) : OwnerView :=
  mkOwnerView (_id u) (fullName u) (username u) (avatar u).

Definition lookup_owner (db : Db) (v : Video) : list OwnerView :=
  projectOwner <$> filter (λ u, Some (_id u) = owner v) (users db).

(** [$addFields: { owner: { $first: "$owner" } }] *)
Definition first_owner (v : Video) (owners : list OwnerView) : WatchEntry :=
  mkWatchEntry (video_id v) (head owners) (video_fields v).

(** The outer [$lookup] from [videos] with [localField: "watchHistory"],
    [foreignField: "_id"] and the sub-pipeline: the video documents whose id
    occurs in the array, as the [videos] collection lists them, each run
    through the sub-pipeline. *)
Definition lookup_watchHistory (db : Db) (u : User) : list WatchEntry :=
  (λ v, first_owner v (lookup_owner db v))
    <$> filter (λ v, video_id v ∈ watchHistory u) (videos db).

(** [User.aggregate([{ $match: { _id } }, { $lookup: ... }])] of
    [getWatchHistory]; only the replaced [watchHistory] of each result is
    kept. *)
Definition aggregate_history (id : ObjectId) (db : Db) : list (list WatchEntry) :=
  lookup_watchHistory db <$> filter (λ u, _id u = id) (users db).

Definition getWatchHistory (req : Request) : M Response :=
  match req_user req with
  | None =>
      throw (RuntimeError "TypeError"
               "Cannot read properties of undefined (reading '_id')")
  | Some viewer =>
      let* user := gets (aggregate_history (_id viewer)) in
      match user with
      | [] =>
          throw (RuntimeError "TypeError"
                   "Cannot read properties of undefined (reading 'watchHistory')")
      | first :: _ =>
          ret (mkResponse 200 []
                 (mkApiResponse 200 (DataHistory first) "Watch history fetched successfully"))
      end
  end.

(** ** middlewares/auth.middleware.js *)

(** The scheme prefix removed from the [Authorization] header. *)
Definition Bearer : Text := Txt.ofString "Bearer ".

(** [req.cookies?.accessToken || req.header("Authorization")?.replace("Bearer ", "")] *)
Definition extractToken (req : Request) : option Text :=
  Txt.or (cookies_accessToken req)
         (Txt.replaceFirst Bearer <$> header_Authorization req).

Definition attachUser (u : User) (req : Request) : Request :=
  mkRequest (cookies_accessToken req) (cookies_refreshToken req)
            (header_Authorization req) (body_fullName req) (body_email req)
            (body_username req) (body_password req) (body_oldPassword req)
            (body_newPassword req) (body_refreshToken req) (params_username req)
            (Some u).

(** [verifyJWT]: on success the request goes on to the next handler with
    [req.user] set. *)
Definition verifyJWT (env : Env) (w : World) (req : Request) : M Request :=
  try_catch
    (match extractToken req with
     | Some ((_ :: _) as token) =>
         let* decodedToken :=
           lift (jwt.verify token (ACCESS_TOKEN_SECRET env) (clock w)) in
         let* user :=
           bind (UserModel.findById (Some (p_id decodedToken)))
                (λ r, ret (select ["password"; "refreshToken"] r)) in
         match user with
         | None => throw (ApiError 401 "Invalid Access Token - User not found")
         | Some user => ret (attachUser user req)
         end
     | _ => throw (ApiError 401 "Unauthorized request - No token found")
     end)
    (λ error, throw (ApiError 401 (messageOr (message_of error) "Invalid access token"))).

(** ** Vocabulary of the properties *)

(** The stored account with a given id, as [User.findById] sees it. *)
Definition account (id : ObjectId) (db : Db) : option User :=
  findFirst (hasId id) (users db).

(** The refresh credential stored for an account; [None] when the account
    has none (or does not exist). *)
Definition storedRefreshToken (id : ObjectId) (db : Db) : option Text :=
  account id db ≫= refreshToken.

(** The password text stored for an account. *)
Definition storedPassword (id : ObjectId) (db : Db) : option PwText :=
  account id db ≫= password.

(** The credential a refresh request presents. *)
Definition presented (req : Request) : option Text :=
  Txt.or (cookies_refreshToken req) (body_refreshToken req).

(** The stored document [u] after a token generation during [w]: its
    refresh token is the one minted at the clock second of [w], and its
    [updatedAt] the date of [w] unless that token is the one it had. *)
Definition rotated (env : Env) (w : World) (u : User) : User :=
  fields (timestampsPreSave (date w)
            (assign_refreshToken (Some (generateRefreshToken env (clock w) u)) (load u))).

(** The failure of a refresh whose credential is not the stored one. *)
Definition StaleOrReused : JsError := ApiError 401 "Refresh token is expired or used".

(** The failure of a channel query that matches no account. *)
Definition NotFound : JsError := ApiError 404 "channel does not exist".

(** The failure of a password change whose old password is wrong. *)
Definition InvalidOldPassword : JsError := ApiError 400 "Invalid old password".

(** The status a handler answers with, or what it throws. *)
Definition answer (r : Db * (JsError + Response)) : JsError + Z :=
  match snd r with
  | inl e => inl e
  | inr resp => inr (status resp)
  end.

(** The number of rows of a relation that satisfy a condition. *)
Fixpoint countRows {A} (P : A → bool) (rows : list A) : nat :=
  match rows with
  | [] => 0
  | r :: rows' => if P r then S (countRows P rows') else countRows P rows'
  end.

(** Two handles that differ at most in letter case. *)
Definition sameHandle (a b : string) : bool :=
  bool_decide (Js.toLowerCase a = Js.toLowerCase b).

(** The four registration fields of a request. *)
Definition registrationFields (req : Request) : list (option string) :=
  [body_fullName req; body_email req; body_username req; body_password req].

(** A user document as [select("-password -refreshToken")] returns it. *)
Definition sanitized (u : User) : User :=
  foldr without u ["password"; "refreshToken"].

(** The response of a successful login for the stored document [u]. *)
Definition loginResponse (env : Env) (w : World) (u : User) : Response :=
  let accessToken := Some (generateAccessToken env (clock w) u) in
  let refreshToken := Some (generateRefreshToken env (clock w) u) in
  mkResponse 200
    [SetCookie "accessToken" accessToken; SetCookie "refreshToken" refreshToken]
    (mkApiResponse 200
       (DataLogin (Some (sanitized (rotated env w u))) accessToken refreshToken)
       "User logged In Successfully").

(** The response of a successful refresh for the stored document [u]: the
    property [newRefreshToken] read from the generated pair is undefined. *)
Definition refreshResponse (env : Env) (now : Z) (u : User) : Response :=
  let accessToken := Some (generateAccessToken env now u) in
  mkResponse 200
    [SetCookie "accessToken" accessToken; SetCookie "refreshToken" None]
    (mkApiResponse 200 (DataTokens accessToken None) "Access token refreshed").

(** The database after the refresh token of account [id], whose stored
    document is [u], was rotated during [w]. *)
Definition afterRotation (env : Env) (w : World) (id : ObjectId) (u : User) (db : Db) : Db :=
  setUsers (updateFirst (hasId id) (λ _, rotated env w u)) db.

(** ** Sample data

    One registered account, [alice / alice@x.com / pw123], and the requests
    of the scenarios below. *)

Definition sampleEnv : Env := mkEnv "access-secret" 900 "refresh-secret" 864000.

Definition alice : User :=
  mkUser 1%N "alice" "alice@x.com" "Alice" "alice.png" None []
         (Some (bcrypt.hash (Plain "pw123") 7)) None 1000%Z 1000%Z.

Definition sampleDb : Db := mkDb [alice] [] [].

Definition emptyRequest : Request :=
  mkRequest None None None None None None None None None None None None.

(** [Login("alice", "pw123")] *)
Definition aliceLogin : Request :=
  mkRequest None None None None None (Some "alice") (Some "pw123")
            None None None None None.

(** [Refresh(token)], the credential sent as a cookie. *)
Definition refreshWith (token : Text) : Request :=
  mkRequest None (Some token) None None None None None None None None None None.

(** The refresh credential minted for [alice] at the clock second [now]. *)
Definition aliceRefreshToken (now : Z) : Text := generateRefreshToken sampleEnv now alice.

(** A failure at the authentication boundary: what a refresh or the
    authentication middleware throws on a request. *)
Definition boundaryFailure (env : Env) (w : World) (req : Request) (db : Db)
    (e : JsError) : Prop :=
  (∃ db', refreshAccessToken env w req db = (db', inl e)) ∨
  (∃ db', verifyJWT env w req db = (db', inl e)).

(** The database after [alice] logged in at second 100, and after she then
    refreshed at second 101. *)
Definition dbAfterLogin : Db :=
  fst (loginUser sampleEnv (mkWorld 100 0 100250) aliceLogin sampleDb).

Definition dbAfterRefresh : Db :=
  fst (refreshAccessToken sampleEnv (mkWorld 101 0 101250)
         (refreshWith (aliceRefreshToken 100)) dbAfterLogin).

(** A refresh token for [alice] signed with a secret that is not the
    server's. *)
Definition forgedRefreshToken : Text :=
  jwt.sign (mkPayload 1%N None None None) "guessed-secret" 864000 100.

(** An identity handed on by a successful authentication, or an account
    projection returned by a successful login. *)
Definition exposedIdentity (env : Env) (w : World) (req : Request) (db : Db)
    (u : User) : Prop :=
  (∃ db' req', verifyJWT env w req db = (db', inr req') ∧ req_user req' = Some u) ∨
  (∃ db' resp accessToken refreshToken,
     loginUser env w req db = (db', inr resp) ∧
     data (json resp) = DataLogin (Some u) accessToken refreshToken).

(** A request that carries the given access token in the [Authorization]
    header, and one that carries it as a cookie next to another header. *)
Definition bearerRequest (token : Text) : Request :=
  mkRequest None None (Some (Bearer ++ token)) None None None None None None None None None.

Definition cookieRequest (token other : Text) : Request :=
  mkRequest (Some token) None (Some (Bearer ++ other))
            None None None None None None None None None.

(** The access credential minted for [alice] at the clock second [now]. *)
Definition aliceAccessToken (now : Z) : Text := generateAccessToken sampleEnv now alice.

(** An access token, signed by the server, whose subject is no account. *)
Definition strangerAccessToken : Text :=
  jwt.sign (mkPayload 9%N (Some "bob@x.com") (Some "bob") (Some "Bob"))
           "access-secret" 900 100.

(** The stored document [u] after its password was changed to [new]
    during [w]. *)
Definition withPassword (w : World) (new : string) (u : User) : User :=
  set_password (Some (bcrypt.hash (Plain new) (salt w))) (set_updatedAt (date w) u).

(** [ChangePassword] by [alice], once with her password and once with a
    wrong one. *)
Definition aliceChange (old new : string) : Request :=
  mkRequest None None None None None None None (Some old) (Some new) None None
            (Some (sanitized alice)).

(** A second account, a follow edge from [bob] to [alice], two videos, and
    [carol], who watched the second video before the first. *)
Definition bob : User :=
  mkUser 2%N "bob" "bob@x.com" "Bob" "bob.png" None []
         (Some (bcrypt.hash (Plain "hunter2") 3)) None 2000%Z 2000%Z.

Definition carol : User :=
  mkUser 3%N "carol" "carol@x.com" "Carol" "carol.png" None [20%N; 10%N]
         (Some (bcrypt.hash (Plain "s3cret") 5)) None 3000%Z 3000%Z.

(** An account whose handle begins with a small e with acute accent,
    U+00E9. *)
Definition elan : User :=
  mkUser 6%N (String "233" "lan") "elan@x.com" "Elan" "elan.png" None []
         (Some (bcrypt.hash (Plain "chanson") 1)) None 6000%Z 6000%Z.

Definition graphDb : Db :=
  mkDb [alice; bob; carol]
       [mkSubscription 2%N 1%N]
       [mkVideo 10%N (Some 1%N) [("title", "first")];
        mkVideo 20%N (Some 9%N) [("title", "second")]].

(** [ChannelProfile(viewer, handle)] and [WatchHistory(viewer)] *)
Definition channelRequest (viewer : User) (handle : string) : Request :=
  mkRequest None None None None None None None None None None (Some handle)
            (Some (sanitized viewer)).

Definition historyRequest (viewer : User) : Request :=
  mkRequest None None None None None None None None None None None
            (Some (sanitized viewer)).

(** The ids of the entries a watch-history query answers with; empty when
    it throws. *)
Definition answeredIds (r : Db * (JsError + Response)) : list ObjectId :=
  match snd r with
  | inr resp =>
      match data (json resp) with
      | DataHistory h => entry_id <$> h
      | _ => []
      end
  | inl _ => []
  end.

(** A call of one of the four handlers that write the credentials of an
    account, with what it reads from outside. *)
Inductive Call :=
| Login (w : World) (req : Request)
| Refresh (w : World) (req : Request)
| Logout (w : World) (req : Request)
| ChangePassword (w : World) (req : Request).

(** The database a call leaves, whether it answers or throws. *)
Definition perform (env : Env) (db : Db) (c : Call) : Db :=
  match c with
  | Login w req => fst (loginUser env w req db)
  | Refresh w req => fst (refreshAccessToken env w req db)
  | Logout w req => fst (logoutUser w req db)
  | ChangePassword w req => fst (changeCurrentPassword w req db)
  end.

(** The database after a sequence of calls, the head of the list first. *)
Definition performAll (env : Env) (calls : list Call) (db : Db) : Db :=
  foldl (perform env) db calls.

(** The clock second at which a call mints a refresh token when it
    answers: a login and a refresh mint one, a logout and a password change
    none. *)
Definition mintSecond (c : Call) : option Z :=
  match c with
  | Login w _ | Refresh w _ => Some (clock w)
  | Logout _ _ | ChangePassword _ _ => None
  end.

(** The issue second and the subject of a credential that is one token,
    whatever its signature and its expiry. *)
Definition issuedAt (tok : Text) : option Z :=
  match tok with
  | [Tok j] => Some (jwt_iat j)
  | _ => None
  end.

Definition subject (tok : Text) : option ObjectId :=
  match tok with
  | [Tok j] => Some (p_id (jwt_payload j))
  | _ => None
  end.

(** A call that mints a refresh token at the very second at which [tok]
    was issued. *)
Definition reissues (tok : Text) (c : Call) : bool :=
  match mintSecond c with
  | Some t => bool_decide (issuedAt tok = Some t)
  | None => false
  end.

(** The account [id] is stored, and its refresh credential is not
    [tok]. *)
Definition revoked (id : ObjectId) (tok : Text) (db : Db) : Prop :=
  ∃ a, account id db = Some a ∧ refreshToken a ≠ Some tok.

(** ** Vocabulary of the further properties *)

(** One of the four state-changing handlers throws [e] on [req] and leaves
    the database [db']. *)
Definition credentialFailure (env : Env) (w : World) (req : Request)
    (db db' : Db) (e : JsError) : Prop :=
  loginUser env w req db = (db', inl e) ∨
  refreshAccessToken env w req db = (db', inl e) ∨
  changeCurrentPassword w req db = (db', inl e) ∨
  logoutUser w req db = (db', inl e).

(** A login or a refresh answers [resp] on [req] and leaves the database
    [db']. *)
Definition rotationAnswer (env : Env) (w : World) (req : Request)
    (db db' : Db) (resp : Response) : Prop :=
  loginUser env w req db = (db', inr resp) ∨
  refreshAccessToken env w req db = (db', inr resp).

(** A request that carries the given access credential as a cookie. *)
Definition accessCookie (token : Text) : Request :=
  mkRequest (Some token) None None None None None None None None None None None.

(** [Login("alice", password)] *)
Definition aliceLoginWith (pw : string) : Request :=
  mkRequest None None None None None (Some "alice") (Some pw)
            None None None None None.

(** [ChangePassword] by an authenticated [viewer]. *)
Definition changeRequest (viewer : User) (old new : string) : Request :=
  mkRequest None None None None None None None (Some old) (Some new) None None
            (Some viewer).

(** A string made of white space only (the empty string included). *)
Fixpoint allWhite (s : string) : bool :=
  match s with
  | EmptyString => true
  | String c r => Js.isWhiteSpace c && allWhite r
  end.

(** A request that carries the given text as its [Authorization] header,
    and nothing else. *)
Definition headerRequest (value : Text) : Request :=
  mkRequest None None (Some value) None None None None None None None None None.

(** What the middleware decides on a request: the error it throws, or the
    identity it attaches, next to the database it leaves. *)
Definition verdict (r : Db * (JsError + Request)) : Db * (JsError + option User) :=
  (fst r, match snd r with
          | inl e => inl e
          | inr req => inr (req_user req)
          end).

(** A watch-history request whose viewer has the given id. *)
Definition historyRequestOf (viewer : User) : Request :=
  mkRequest None None None None None None None None None None None (Some viewer).

(** [dave] has watched the first video twice and a video that was
    deleted. *)
Definition dave : User :=
  mkUser 4%N "dave" "dave@x.com" "Dave" "dave.png" None [10%N; 77%N; 10%N]
         (Some (bcrypt.hash (Plain "letmein") 2)) None 4000%Z 4000%Z.

Definition graphDbWithDave : Db :=
  mkDb (users graphDb ++ [dave]) (subscriptions graphDb) (videos graphDb).

From stdpp Require Import gmap.

(** ** Uploaded files and the image host *)

(** [s.split(sep)] for a one-character separator: the first segment and
    the segments after it (a split never gives an empty array). *)
Fixpoint split (sep : ascii) (s : string) : string * list string :=
  match s with
  | EmptyString => (EmptyString, [])
  | String c r =>
      let '(segment, rest) := split sep r in
      if decide (c = sep) then (EmptyString, segment :: rest)
      else (String c segment, rest)
  end.

(** [segments[0]] and [segments.pop()] of a split. *)
Definition firstOf (segments : string * list string) : string := fst segments.

Definition pop (segments : string * list string) : string :=
  List.last (snd segments) (fst segments).

(** [url.split("/").pop().split(".")[0]], the public id the avatar and
    cover-image handlers hand to [cloudinary.uploader.destroy]. *)
Definition publicIdOf (url : string) : string :=
  firstOf (split "." (pop (split "/" url))).

(** A file as multer leaves it on disk; only its path is read. *)
Record File := mkFile {
  file_path : string;
}.

(** [req.files] of the registration route. *)
Record Files := mkFiles {
  files_avatar : option (list File);
  files_coverImage : option (list File);
}.

(** What [cloudinary.uploader.upload] resolves with; only [url] is read. *)
Record UploadResponse := mkUploadResponse {
  upload_url : option string;
}.

(** The image host, as seen from the server: what an upload of a local
    path and what the destruction of a public id answer. *)
Record Cloudinary := mkCloudinary {
  uploader_upload : string → JsError + UploadResponse;
  uploader_destroy : string → JsError + unit;
}.

(** A call the image host has carried out. *)
Inductive CloudCall :=
| Uploaded (path : string)
| Destroyed (publicId : string).

(** The server outside a request: the database, the paths of the
    temporary files on disk, and the calls carried out by the image host,
    oldest first. *)
Record Server := mkServer {
  server_db : Db;
  server_files : gset string;
  server_cloud : list CloudCall;
}.

(** A handler that also touches the disk and the image host. *)
Definition Handler (A : Type) : Type := Server → Server * (JsError + A).

Definition sret {A} (a : A) : Handler A := λ s, (s, inr a).

Definition sthrow {A} (e : JsError) : Handler A := λ s, (s, inl e).

Definition sbind {A B} (m : Handler A) (k : A → Handler B) : Handler B :=
  λ s, match m s with
       | (s', inr a) => k a s'
       | (s', inl e) => (s', inl e)
       end.

Definition stry {A} (m : Handler A) (h : JsError → Handler A) : Handler A :=
  λ s, match m s with
       | (s', inr a) => (s', inr a)
       | (s', inl e) => h e s'
       end.

(** A database computation run inside a handler. *)
Definition onDb {A} (m : M A) : Handler A :=
  λ s, let '(db', r) := m (server_db s) in
       (mkServer db' (server_files s) (server_cloud s), r).

Notation "'let+' x ':=' m 'in' k" := (sbind m (λ x, k))
  (at level 10, x pattern, m at level 100, k at level 200) : js_scope.

(** [fs.unlinkSync(path)]: removes the file, and throws when there is
    none. *)
Definition unlinkSync (path : string) : Handler unit :=
  λ s, if decide (path ∈ server_files s)
       then (mkServer (server_db s) (server_files s ∖ {[path]}) (server_cloud s), inr tt)
       else (s, inl (RuntimeError "Error" "ENOENT: no such file or directory, unlink")).

(** [cloudinary.uploader.upload(path, { resource_type: "auto" })]: the
    local file is read, which fails when it is not on disk, and sent to
    the image host. *)
Definition cloud_upload (c : Cloudinary) (path : string) : Handler UploadResponse :=
  λ s, if decide (path ∈ server_files s)
       then match uploader_upload c path with
            | inr response =>
                (mkServer (server_db s) (server_files s)
                          (server_cloud s ++ [Uploaded path]),
                 inr response)
            | inl e => (s, inl e)
            end
       else (s, inl (RuntimeError "Error" "ENOENT: no such file or directory, open")).

(** [cloudinary.uploader.destroy(publicId)] *)
Definition cloud_destroy (c : Cloudinary) (publicId : string) : Handler unit :=
  λ s, match uploader_destroy c publicId with
       | inr _ =>
           (mkServer (server_db s) (server_files s) (server_cloud s ++ [Destroyed publicId]),
            inr tt)
       | inl e => (s, inl e)
       end.

(** [uploadOnCloudinary(localFilePath)].  Without a path the function
    returns [null] from inside its [try], where nothing can have thrown;
    with one, the upload and the removal of the local file are tried, and
    what they throw is answered by a removal and [null]. *)
Definition uploadOnCloudinary (c : Cloudinary) (localFilePath : option string)
  : Handler (option UploadResponse) :=
  match localFilePath with
  | Some path =>
      if bool_decide (path = "") then sret None
      else
        stry
          (let+ response := cloud_upload c path in
           let+ _ := unlinkSync path in
           sret (Some response))
          (λ _, let+ _ := unlinkSync path in sret None)
  | None => sret None
  end.

(** The answer of a handler whose data is a user document:
    [res.status(s).json(new ApiResponse(code, document, message))]. *)
Record DocResponse := mkDocResponse {
  doc_status : Z;
  doc_statusCode : Z;
  doc_data : option User;
  doc_message : string;
}.

(** [$set: { avatar: url }] and [$set: { coverImage: url }] on a stored
    document. *)
Definition setAvatar (url : string) (u : User) : User := set_avatar url u.

Definition setCoverImage (url : string) (u : User) : User := set_coverImage (Some url) u.

(** [User.findByIdAndUpdate(id, { $set: ... }, { new: true })], the [$set]
    given as the function it applies to the stored document. *)
Definition findByIdAndUpdate_set (now : Date) (id : option ObjectId) (set : User → User)
  : M (option User) :=
  match id with
  | Some i =>
      let* _ := modify (setUsers (updateFirst (hasId i)
                                    (UserModel.applyTimestampsToUpdate now set))) in
      UserModel.findById (Some i)
  | None => ret None
  end.

(** [if (!response.url)] on what [uploadOnCloudinary] returned: reading
    [url] of [null] throws; otherwise the url, when it is truthy. *)
Definition urlOf (response : option UploadResponse) : JsError + option string :=
  match response with
  | None =>
      inl (RuntimeError "TypeError" "Cannot read properties of null (reading 'url')")
  | Some r => inr (if Js.truthy (upload_url r) then upload_url r else None)
  end.

(** [updateUserAvatar]; [file] is [req.file]. *)
Definition updateUserAvatar (c : Cloudinary) (w : World) (file : option File)
    (req : Request) : Handler DocResponse :=
  let avatarLocalPath := file_path <$> file in
  if negb (Js.truthy avatarLocalPath)
  then sthrow (ApiError 400 "Avatar file is missing")
  else
    let+ user := onDb (UserModel.findById (_id <$> req_user req)) in
    match user with
    | None => sthrow (ApiError 404 "User not found")
    | Some user =>
        let+ _ :=
          if Js.truthy (Some (avatar user))
          then cloud_destroy c (publicIdOf (avatar user))
          else sret tt in
        let+ avatar := uploadOnCloudinary c avatarLocalPath in
        match urlOf avatar with
        | inl e => sthrow e
        | inr None => sthrow (ApiError 400 "Error while uploading on avatar")
        | inr (Some url) =>
            let+ userDoc :=
              onDb (bind (findByIdAndUpdate_set (date w) (_id <$> req_user req)
                                                (setAvatar url))
                         (λ r, ret (select ["password"] r))) in
            sret (mkDocResponse 200 200 userDoc "Avatar image updated successfully")
        end
    end.

(** [updateUserCoverImage]; [file] is [req.file]. *)
Definition updateUserCoverImage (c : Cloudinary) (w : World) (file : option File)
    (req : Request) : Handler DocResponse :=
  let coverImageLocalPath := file_path <$> file in
  if negb (Js.truthy coverImageLocalPath)
  then sthrow (ApiError 400 "Cover image file is missing")
  else
    let+ user := onDb (UserModel.findById (_id <$> req_user req)) in
    match user with
    | None => sthrow (ApiError 404 "User not found")
    | Some user =>
        let+ _ :=
          match coverImage user with
          | Some old =>
              if Js.truthy (Some old)
              then cloud_destroy c (publicIdOf old)
              else sret tt
          | None => sret tt
          end in
        let+ coverImage := uploadOnCloudinary c coverImageLocalPath in
        match urlOf coverImage with
        | inl e => sthrow e
        | inr None => sthrow (ApiError 400 "Error while uploading on avatar")
        | inr (Some url) =>
            let+ userDoc :=
              onDb (bind (findByIdAndUpdate_set (date w) (_id <$> req_user req)
                                                (setCoverImage url))
                         (λ r, ret (select ["password"] r))) in
            sret (mkDocResponse 200 200 userDoc "Cover image updated successfully")
        end
    end.

(** The argument [registerUser] builds for [User.create]. *)
Record NewUser := mkNewUser {
  new_fullName : option string;
  new_avatar : option string;
  new_coverImage : string;
  new_email : option string;
  new_password : option string;
  new_username : string;
}.

(** [req.files?.avatar[0]?.path]: undefined without [req.files]; with it,
    indexing a missing [avatar] throws. *)
Definition avatarPathOf (files : option Files) : JsError + option string :=
  match files with
  | None => inr None
  | Some fs =>
      match files_avatar fs with
      | None =>
          inl (RuntimeError "TypeError"
                 "Cannot read properties of undefined (reading '0')")
      | Some l => inr (file_path <$> head l)
      end
  end.

(** The path of the first cover image, when [req.files.coverImage] is a
    non-empty array. *)
Definition coverImagePathOf (files : option Files) : option string :=
  match files with
  | Some fs =>
      match files_coverImage fs with
      | Some (f :: _) => Some (file_path f)
      | _ => None
      end
  | None => None
  end.

(** [registerUser], from its first line to the evaluation of the argument
    of [User.create] (the creation itself and the answer are Mongoose's and
    are not part of this development); [files] is [req.files]. *)
Definition registerUser_prepare (c : Cloudinary) (files : option Files) (req : Request)
  : Handler NewUser :=
  let fullName := body_fullName req in
  let email := body_email req in
  let username := body_username req in
  let password := body_password req in
  match registerUser_fieldsCheck req with
  | inl e => sthrow e
  | inr _ =>
      let+ existedUser := onDb (UserModel.findOne username email) in
      match existedUser with
      | Some _ => sthrow (ApiError 409 "User with email or username already exists")
      | None =>
          match avatarPathOf files with
          | inl e => sthrow e
          | inr avatarLocalPath =>
              let coverImageLocalPath := coverImagePathOf files in
              if negb (Js.truthy avatarLocalPath)
              then sthrow (ApiError 400 "Avatar file is required")
              else
                let+ avatar := uploadOnCloudinary c avatarLocalPath in
                let+ coverImage := uploadOnCloudinary c coverImageLocalPath in
                match avatar with
                | None => sthrow (ApiError 400 "Avatar upload failed")
                | Some avatar =>
                    match username with
                    | None =>
                        sthrow (RuntimeError "TypeError"
                          "Cannot read properties of undefined (reading 'toLowerCase')")
                    | Some username =>
                        sret (mkNewUser fullName (upload_url avatar)
                               (match coverImage ≫= upload_url with
                                | Some url => if Js.truthy (Some url) then url else ""
                                | None => ""
                                end)
                               email password (Js.toLowerCase username))
                    end
                end
          end
      end
  end.

(** ** Sample files and image hosts *)

(** An image host that stores every file under
    [http://img.example/<path>.png], and one whose uploads fail. *)
Definition goodHost : Cloudinary :=
  mkCloudinary
    (λ path, inr (mkUploadResponse (Some (String.append "http://img.example/" path))))
    (λ _, inr tt).

Definition failingHost : Cloudinary :=
  mkCloudinary (λ _, inl (RuntimeError "Error" "upload failed")) (λ _, inr tt).

(** The server with the database of the credential scenarios and one
    temporary file on disk. *)
Definition sampleServer : Server :=
  mkServer dbAfterLogin {[ "public/temp/new.png" ]} [].

Definition newAvatar : option File := Some (mkFile "public/temp/new.png").

(** A request of [alice] as the middleware hands it on. *)
Definition aliceRequest : Request :=
  mkRequest None None None None None None None None None None None
            (Some (sanitized alice)).

(** The registration of [bob] with an avatar. *)
Definition bobRegistration : Request :=
  mkRequest None None None (Some "Bob") (Some "bob@x.com") (Some "Bob")
            (Some "hunter2") None None None None None.

Definition bobFiles : option Files :=
  Some (mkFiles (Some [mkFile "public/temp/new.png"]) None).

(** What [alice] does after a logout at second 120: she logs in, changes
    her password, refreshes and logs out again. *)
Definition aliceCalls : list Call :=
  [Login (mkWorld 150 0 150250) aliceLogin;
   ChangePassword (mkWorld 160 8 160250) (aliceChange "pw123" "pw456");
   Refresh (mkWorld 170 0 170250) (refreshWith (aliceRefreshToken 150));
   Logout (mkWorld 180 0 180250) aliceRequest].

(** Whether a character occurs in a string. *)
Fixpoint occurs (c : ascii) (s : string) : bool :=
  match s with
  | EmptyString => false
  | String a r => bool_decide (a = c) || occurs c r
  end.

(** What [fs.unlinkSync] throws for a file that is not there (the message
    of the runtime goes on with the path). *)
Definition ENOENT : JsError :=
  RuntimeError "Error" "ENOENT: no such file or directory, unlink".

(** The calls by which the cover-image handler destroys the old cover
    image of a document: none when the document has no cover image, or the
    empty one. *)
Definition oldCoverCalls (u : User) : list CloudCall :=
  match coverImage u with
  | Some old => if bool_decide (old = "") then [] else [Destroyed (publicIdOf old)]
  | None => []
  end.

(** * Properties *)

(** ** Collections *)

Section Collections.
Context {A : Type}.
Implicit Types (P : A → bool) (f : A → A) (l : list A).

Lemma findFirst_nil P : findFirst P [] = None.
Proof. reflexivity. Qed.

Lemma findFirst_cons P a l :
  findFirst P (a :: l) = if P a then Some a else findFirst P l.
Proof.
  unfold findFirst. rewrite filter_cons.
  destruct (P a) eqn:E; case_decide; try congruence; reflexivity.
Qed.

Lemma findFirst_Some P l a : findFirst P l = Some a → P a = true ∧ a ∈ l.
Proof.
  induction l as [|b l IH]; [discriminate|].
  rewrite findFirst_cons. destruct (P b) eqn:E.
  - intros [= <-]. split; [assumption | left].
  - intros H. destruct (IH H). split; [assumption | by right].
Qed.

Lemma findFirst_None P l : findFirst P l = None ↔ ∀ a, a ∈ l → P a = false.
Proof.
  induction l as [|b l IH].
  - split; [intros _ a Ha; inversion Ha | reflexivity].
  - rewrite findFirst_cons. destruct (P b) eqn:E.
    + split; [discriminate|]. intros H. specialize (H b (list_elem_of_here _ _)). congruence.
    + rewrite IH. split.
      * intros H a Ha. inversion Ha; subst; auto.
      * intros H a Ha. apply H. by right.
Qed.

Lemma findFirst_is_Some P l a : a ∈ l → P a = true → is_Some (findFirst P l).
Proof.
  intros Ha HP. destruct (findFirst P l) eqn:E; [eauto|].
  rewrite findFirst_None in E. rewrite (E a Ha) in HP. discriminate.
Qed.

Lemma findFirst_ext P Q l :
  (∀ a, a ∈ l → P a = Q a) → findFirst P l = findFirst Q l.
Proof.
  induction l as [|b l IH]; [reflexivity|]. intros H.
  rewrite !findFirst_cons, (H b) by left.
  rewrite IH; [reflexivity|]. intros a Ha. apply H. by right.
Qed.

(** Reading after an update of the first match: the match is seen through
    [f], provided [f] keeps it a match. *)
Lemma findFirst_updateFirst P f l :
  (∀ a, P a = true → P (f a) = true) →
  findFirst P (updateFirst P f l) = f <$> findFirst P l.
Proof.
  intros Hf. induction l as [|b l IH]; [reflexivity|].
  simpl. rewrite findFirst_cons. destruct (P b) eqn:E.
  - rewrite findFirst_cons, (Hf b E). reflexivity.
  - rewrite findFirst_cons, E. exact IH.
Qed.

(** An update keyed on [P] does not touch what is found under a key [Q]
    that excludes [P], before and after [f]. *)
Lemma findFirst_updateFirst_other P Q f l :
  (∀ a, P a = true → Q a = false) →
  (∀ a, P a = true → Q (f a) = false) →
  findFirst Q (updateFirst P f l) = findFirst Q l.
Proof.
  intros H1 H2. induction l as [|b l IH]; [reflexivity|].
  simpl. destruct (P b) eqn:E.
  - rewrite !findFirst_cons, (H1 b E), (H2 b E). reflexivity.
  - rewrite !findFirst_cons, IH. reflexivity.
Qed.

Lemma updateFirst_none P f l : findFirst P l = None → updateFirst P f l = l.
Proof.
  induction l as [|b l IH]; [reflexivity|].
  rewrite findFirst_cons. simpl. destruct (P b); [discriminate|].
  intros H. by rewrite IH.
Qed.

End Collections.

(** ** JavaScript strings *)

Lemma startsWith_app pat t : Txt.startsWith pat (pat ++ t) = Some t.
Proof.
  induction pat as [|p pat IH]; [by destruct t|].
  simpl. rewrite decide_True by reflexivity. exact IH.
Qed.

(** Removing the pattern from a text that begins with it leaves the rest. *)
Lemma replaceFirst_prefix pat t : Txt.replaceFirst pat (pat ++ t) = t.
Proof.
  destruct (pat ++ t) eqn:E; simpl; rewrite <- E, startsWith_app; reflexivity.
Qed.

Lemma Txt_or_truthy a b : Txt.truthy a = true → Txt.or a b = a.
Proof. unfold Txt.or. by intros ->. Qed.

Lemma Txt_or_falsy a b : Txt.truthy a = false → Txt.or a b = b.
Proof. unfold Txt.or. by intros ->. Qed.

(** ** Token generation *)

Lemma account_id id db u : account id db = Some u → _id u = id.
Proof.
  intros H. apply findFirst_Some in H as [H _].
  unfold hasId in H. by apply bool_decide_eq_true in H.
Qed.

Lemma rotated_id env w u : _id (rotated env w u) = _id u.
Proof.
  unfold rotated, timestampsPreSave, isModifiedAny, assign_refreshToken, marked.
  simpl.
  by destruct (bool_decide (refreshToken u = Some (generateRefreshToken env (clock w) u))).
Qed.

Lemma rotated_refreshToken env w u :
  refreshToken (rotated env w u) = Some (generateRefreshToken env (clock w) u).
Proof.
  unfold rotated, timestampsPreSave, isModifiedAny, assign_refreshToken, marked.
  simpl.
  by destruct (bool_decide (refreshToken u = Some (generateRefreshToken env (clock w) u))).
Qed.

(** A rotation touches the refresh token and the date of the last update,
    and the second only when it changes the first. *)
Lemma rotated_fields env w u :
  rotated env w u =
    if bool_decide (refreshToken u = Some (generateRefreshToken env (clock w) u))
    then u
    else set_updatedAt (date w)
           (set_refreshToken (Some (generateRefreshToken env (clock w) u)) u).
Proof.
  unfold rotated, timestampsPreSave, isModifiedAny, assign_refreshToken, marked.
  simpl.
  destruct (bool_decide (refreshToken u = Some (generateRefreshToken env (clock w) u)))
    eqn:E; simpl; [|reflexivity].
  apply bool_decide_eq_true in E. destruct u; simpl in *. by rewrite E.
Qed.

(** Saving a document whose refresh token was assigned: the password hook
    does nothing, and the stored document takes the fields in memory. *)
Lemma save_refreshToken env w u db :
  save (date w) (salt w)
       (assign_refreshToken (Some (generateRefreshToken env (clock w) u)) (load u)) db
  = (setUsers (updateFirst (hasId (_id u)) (λ _, rotated env w u)) db, inr tt).
Proof.
  pose proof (rotated_id env w u) as Hid. revert Hid.
  unfold save, rotated, timestampsPreSave, isModifiedAny, assign_updatedAt,
    assign_refreshToken, marked, pre_save, isModified, bind. simpl.
  destruct (bool_decide (refreshToken u = Some (generateRefreshToken env (clock w) u)));
    simpl.
  - intros _. reflexivity.
  - destruct (bool_decide (updatedAt u = date w)); simpl; intros _; reflexivity.
Qed.

(** For an account that exists, token generation mints the pair at the
    current clock second and stores the refresh token. *)
Lemma generate_found env w id db u :
  account id db = Some u →
  generateAccessAndRefereshTokens env w id db =
    (setUsers (updateFirst (hasId id) (λ _, rotated env w u)) db,
     inr (mkTokenPair (generateAccessToken env (clock w) u)
                      (generateRefreshToken env (clock w) u))).
Proof.
  intros H. pose proof (account_id _ _ _ H) as Hid. subst id.
  unfold generateAccessAndRefereshTokens, try_catch, bind, UserModel.findById, gets.
  unfold account in H. rewrite H. rewrite save_refreshToken. reflexivity.
Qed.

Lemma generate_missing env w id db :
  account id db = None →
  generateAccessAndRefereshTokens env w id db =
    (db, inl (ApiError 500
                "Something went wrong while generating refresh and access token")).
Proof.
  intros H.
  unfold generateAccessAndRefereshTokens, try_catch, bind, UserModel.findById, gets.
  unfold account in H. rewrite H. reflexivity.
Qed.

Lemma account_after_update id f db u :
  account id db = Some u → _id (f u) = id →
  account id (setUsers (updateFirst (hasId id) (λ _, f u)) db) = Some (f u).
Proof.
  intros H Hf. unfold account, setUsers. simpl.
  rewrite findFirst_updateFirst.
  - unfold account in H. by rewrite H.
  - intros _ _. unfold hasId. by apply bool_decide_eq_true.
Qed.

Lemma account_after_rotation env w id db u :
  account id db = Some u →
  account id (setUsers (updateFirst (hasId id) (λ _, rotated env w u)) db)
  = Some (rotated env w u).
Proof.
  intros H. apply (account_after_update id (rotated env w)); [assumption|].
  rewrite rotated_id. by apply account_id in H.
Qed.

(** ** Login and refresh, case by case *)

(** A login that answers has found an account, checked its password,
    rotated its refresh token and built the response from it. *)
Lemma loginUser_inv env w req db db1 resp :
  loginUser env w req db = (db1, inr resp) →
  ∃ id u,
    account id db = Some u ∧
    db1 = afterRotation env w id u db ∧
    resp = loginResponse env w u.
Proof.
  unfold loginUser.
  destruct (negb (Js.truthy (body_username req)) && negb (Js.truthy (body_email req)));
    [discriminate|].
  unfold bind at 1. unfold UserModel.findOne, gets.
  destruct (findFirst _ (users db)) as [u0|] eqn:Hfind; [|discriminate].
  unfold bind at 1. unfold isPasswordCorrect, lift.
  destruct (bcrypt.compare (body_password req) (password u0)) as [e|[]];
    [discriminate| |discriminate].
  simpl.
  apply findFirst_Some in Hfind as [_ Hin].
  destruct (findFirst_is_Some (hasId (_id u0)) (users db) u0 Hin) as [u Hu].
  { unfold hasId. by apply bool_decide_eq_true. }
  fold (account (_id u0) db) in Hu.
  unfold bind at 1. rewrite (generate_found env w _ db u Hu).
  unfold bind at 1. unfold bind, UserModel.findById, gets, ret.
  fold (account (_id u0) (setUsers (updateFirst (hasId (_id u0))
          (λ _, rotated env w u)) db)).
  rewrite (account_after_rotation env w _ db u Hu).
  intros [= <- <-]. exists (_id u0), u. repeat split; assumption.
Qed.

Lemma verify_inv tok secret now p :
  jwt.verify tok secret now = inr p →
  ∃ j, tok = [Tok j] ∧ jwt_key j = secret ∧ (now < jwt_exp j)%Z ∧ jwt_payload j = p.
Proof.
  unfold jwt.verify. destruct tok as [|[c|j] [|? ?]]; try discriminate.
  case_bool_decide as Hk; simpl; [|discriminate].
  destruct (jwt_exp j <=? now)%Z eqn:Hexp; [discriminate|].
  intros [= <-]. exists j. repeat split; try assumption.
  by apply Z.leb_gt.
Qed.

Lemma verify_sign payload secret ttl iat now :
  (now < iat + ttl)%Z →
  jwt.verify (jwt.sign payload secret ttl iat) secret now = inr payload.
Proof.
  intros H. unfold jwt.verify, jwt.sign, Txt.ofJwt. simpl.
  rewrite bool_decide_eq_true_2 by reflexivity. simpl.
  apply Z.leb_gt in H. by rewrite H.
Qed.

Lemma refresh_no_credential env w req db :
  Txt.truthy (presented req) = false →
  refreshAccessToken env w req db = (db, inl (ApiError 401 "Unauthorized request")).
Proof.
  unfold refreshAccessToken. fold (presented req).
  destruct (presented req) as [[|? ?]|]; simpl; [reflexivity|discriminate|reflexivity].
Qed.

Lemma refresh_unverified env w req db tok e :
  presented req = Some tok → tok ≠ [] →
  jwt.verify tok (REFRESH_TOKEN_SECRET env) (clock w) = inl e →
  refreshAccessToken env w req db =
    (db, inl (ApiError 401 (messageOr (message_of e) "Invalid refresh token"))).
Proof.
  intros Hp Hne Hv. unfold refreshAccessToken. fold (presented req). rewrite Hp.
  destruct tok as [|s tok]; [done|].
  unfold try_catch, bind at 1. rewrite Hv. reflexivity.
Qed.

Lemma refresh_unknown_subject env w req db tok p :
  presented req = Some tok →
  jwt.verify tok (REFRESH_TOKEN_SECRET env) (clock w) = inr p →
  account (p_id p) db = None →
  refreshAccessToken env w req db = (db, inl (ApiError 401 "Invalid refresh token")).
Proof.
  intros Hp Hv Ha. unfold refreshAccessToken. fold (presented req). rewrite Hp.
  destruct (verify_inv _ _ _ _ Hv) as (j & -> & _).
  unfold try_catch, bind at 1. rewrite Hv.
  unfold lift, ret, bind, UserModel.findById, gets.
  fold (account (p_id p) db). rewrite Ha. reflexivity.
Qed.

(** A verified credential that is not the stored one is refused, and
    nothing is written. *)
Lemma refresh_stale env w req db tok p u :
  presented req = Some tok →
  jwt.verify tok (REFRESH_TOKEN_SECRET env) (clock w) = inr p →
  account (p_id p) db = Some u →
  refreshToken u ≠ Some tok →
  refreshAccessToken env w req db = (db, inl StaleOrReused).
Proof.
  intros Hp Hv Ha Hne. unfold refreshAccessToken. fold (presented req). rewrite Hp.
  destruct (verify_inv _ _ _ _ Hv) as (j & -> & _).
  unfold try_catch, bind at 1. rewrite Hv.
  unfold lift, ret, bind, UserModel.findById, gets.
  fold (account (p_id p) db). rewrite Ha.
  rewrite bool_decide_eq_false_2 by congruence. reflexivity.
Qed.

(** A verified credential equal to the stored one is accepted: the stored
    value is overwritten by the token minted now. *)
Lemma refresh_match env w req db tok p u :
  presented req = Some tok →
  jwt.verify tok (REFRESH_TOKEN_SECRET env) (clock w) = inr p →
  account (p_id p) db = Some u →
  refreshToken u = Some tok →
  refreshAccessToken env w req db =
    (afterRotation env w (p_id p) u db, inr (refreshResponse env (clock w) u)).
Proof.
  intros Hp Hv Ha He. unfold refreshAccessToken. fold (presented req). rewrite Hp.
  destruct (verify_inv _ _ _ _ Hv) as (j & -> & _).
  unfold try_catch, bind at 1. rewrite Hv.
  unfold lift, ret, bind, UserModel.findById, gets.
  fold (account (p_id p) db). rewrite Ha.
  rewrite bool_decide_eq_true_2 by congruence. simpl.
  rewrite (account_id _ _ _ Ha).
  rewrite (generate_found env w _ db u Ha). reflexivity.
Qed.

(** ** Rotation of the refresh credential *)

Lemma login_issues env w req db db1 resp u accessToken tok :
  loginUser env w req db = (db1, inr resp) →
  data (json resp) = DataLogin u accessToken (Some tok) →
  ∃ id u0,
    account id db = Some u0 ∧
    db1 = afterRotation env w id u0 db ∧
    tok = generateRefreshToken env (clock w) u0 ∧
    account id db1 = Some (rotated env w u0).
Proof.
  intros Hl Hd. apply loginUser_inv in Hl as (id & u0 & Ha & -> & ->).
  simpl in Hd. injection Hd as _ _ <-.
  exists id, u0. repeat split; try assumption.
  by apply account_after_rotation.
Qed.

(** C1 (amended).  After a successful login, a refresh that presents the
    issued refresh credential at a later clock second, before the credential
    expires, succeeds and overwrites the stored value with a different one;
    a second refresh presenting the same credential, still before its
    expiry, fails with [StaleOrReused] and writes nothing. *)
Theorem refresh_succeeds_once env w0 w1 w2 reqL reqR db db1 resp u accessToken tok :
  loginUser env w0 reqL db = (db1, inr resp) →
  data (json resp) = DataLogin u accessToken (Some tok) →
  presented reqR = Some tok →
  clock w1 ≠ clock w0 →
  (clock w1 < clock w0 + REFRESH_TOKEN_EXPIRY env)%Z →
  (clock w2 < clock w0 + REFRESH_TOKEN_EXPIRY env)%Z →
  ∃ id db2 resp2,
    storedRefreshToken id db1 = Some tok ∧
    refreshAccessToken env w1 reqR db1 = (db2, inr resp2) ∧
    status resp2 = 200%Z ∧
    storedRefreshToken id db2 ≠ Some tok ∧
    refreshAccessToken env w2 reqR db2 = (db2, inl StaleOrReused).
Proof.
  intros Hl Hd Hp Hne H1 H2.
  destruct (login_issues _ _ _ _ _ _ _ _ _ Hl Hd) as (id & u0 & Ha & -> & -> & Ha1).
  pose proof (account_id _ _ _ Ha) as Hid.
  set (db1 := afterRotation env w0 id u0 db) in *.
  set (tok := generateRefreshToken env (clock w0) u0) in *.
  assert (Hv : ∀ now, (now < clock w0 + REFRESH_TOKEN_EXPIRY env)%Z →
            jwt.verify tok (REFRESH_TOKEN_SECRET env) now
            = inr (mkPayload id None None None)).
  { intros now Hnow. subst tok id. by apply verify_sign. }
  pose proof (refresh_match env w1 reqR db1 tok _ _ Hp (Hv _ H1) Ha1
                (rotated_refreshToken env w0 u0)) as Hr1.
  simpl in Hr1.
  set (u1 := rotated env w0 u0) in *.
  set (db2 := afterRotation env w1 id u1 db1) in *.
  assert (Ha2 : account id db2 = Some (rotated env w1 u1))
    by (by apply account_after_rotation).
  assert (Hdiff : refreshToken (rotated env w1 u1) ≠ Some tok).
  { rewrite rotated_refreshToken. subst tok.
    unfold generateRefreshToken, jwt.sign, Txt.ofJwt.
    intros E. apply Hne.
    exact (f_equal (λ t, match t with Some [Tok j] => jwt_iat j | _ => 0%Z end) E). }
  exists id, db2, (refreshResponse env (clock w1) u1).
  split; [unfold storedRefreshToken; rewrite Ha1; apply rotated_refreshToken|].
  split; [exact Hr1|]. split; [reflexivity|].
  split; [unfold storedRefreshToken; rewrite Ha2; exact Hdiff|].
  exact (refresh_stale env w2 reqR db2 tok _ _ Hp (Hv _ H2) Ha2 Hdiff).
Qed.

(** Witness of [refresh_succeeds_once]: [alice] logs in at second 100,
    refreshes at second 101 and replays the credential at second 102. *)
Lemma refresh_succeeds_once_witness :
  ∃ id db2 resp2,
    storedRefreshToken id (fst (loginUser sampleEnv (mkWorld 100 0 100250) aliceLogin sampleDb))
      = Some (aliceRefreshToken 100) ∧
    refreshAccessToken sampleEnv (mkWorld 101 0 101250) (refreshWith (aliceRefreshToken 100))
      (fst (loginUser sampleEnv (mkWorld 100 0 100250) aliceLogin sampleDb)) = (db2, inr resp2) ∧
    status resp2 = 200%Z ∧
    storedRefreshToken id db2 ≠ Some (aliceRefreshToken 100) ∧
    refreshAccessToken sampleEnv (mkWorld 102 0 102250) (refreshWith (aliceRefreshToken 100)) db2
      = (db2, inl StaleOrReused).
Proof.
  apply (refresh_succeeds_once sampleEnv (mkWorld 100 0 100250) (mkWorld 101 0 101250) (mkWorld 102 0 102250)
           aliceLogin (refreshWith (aliceRefreshToken 100)) sampleDb
           (fst (loginUser sampleEnv (mkWorld 100 0 100250) aliceLogin sampleDb))
           (loginResponse sampleEnv (mkWorld 100 0 100250) alice)
           (Some (sanitized (rotated sampleEnv (mkWorld 100 0 100250) alice)))
           (Some (generateAccessToken sampleEnv 100 alice))
           (aliceRefreshToken 100)).
  - vm_compute. reflexivity.
  - reflexivity.
  - reflexivity.
  - simpl. lia.
  - simpl. lia.
  - simpl. lia.
Defined.

(** C1, as stated, fails: [alice] logs in at second 100 and refreshes
    within the same second.  The token minted by the refresh is the text of
    the one presented, so the stored value does not change, and a second
    refresh with the same credential is answered with status 200 instead of
    [StaleOrReused]. *)
Lemma refresh_replay_same_second :
  let w := mkWorld 100 0 100250 in
  let tok := aliceRefreshToken 100 in
  let login := loginUser sampleEnv w aliceLogin sampleDb in
  let first := refreshAccessToken sampleEnv w (refreshWith tok) (fst login) in
  let second := refreshAccessToken sampleEnv w (refreshWith tok) (fst first) in
  answer login = inr 200%Z ∧
  storedRefreshToken 1%N (fst login) = Some tok ∧
  answer first = inr 200%Z ∧
  storedRefreshToken 1%N (fst first) = Some tok ∧
  answer second = inr 200%Z ∧
  answer second ≠ inl StaleOrReused.
Proof. vm_compute. repeat split; discriminate. Qed.

(** Every refresh that answers has read the property [newRefreshToken] of
    the generated pair: the response carries the new access token and no
    refresh token. *)
Lemma refresh_answer_inv env w req db db' resp :
  refreshAccessToken env w req db = (db', inr resp) →
  ∃ tok p u,
    presented req = Some tok ∧
    jwt.verify tok (REFRESH_TOKEN_SECRET env) (clock w) = inr p ∧
    account (p_id p) db = Some u ∧ refreshToken u = Some tok ∧
    db' = afterRotation env w (p_id p) u db ∧
    resp = refreshResponse env (clock w) u.
Proof.
  intros H.
  destruct (Txt.truthy (presented req)) eqn:Ht.
  2:{ rewrite refresh_no_credential in H by assumption. discriminate. }
  destruct (presented req) as [tok|] eqn:Hp; [|discriminate].
  assert (tok ≠ []) as Hne by (intros ->; discriminate).
  destruct (jwt.verify tok (REFRESH_TOKEN_SECRET env) (clock w)) as [e|p] eqn:Hv.
  { rewrite (refresh_unverified _ _ _ _ _ _ Hp Hne Hv) in H. discriminate. }
  destruct (account (p_id p) db) as [u|] eqn:Ha.
  2:{ rewrite (refresh_unknown_subject _ _ _ _ _ _ Hp Hv Ha) in H. discriminate. }
  destruct (decide (refreshToken u = Some tok)) as [He|Hd].
  2:{ rewrite (refresh_stale _ _ _ _ _ _ _ Hp Hv Ha Hd) in H. discriminate. }
  rewrite (refresh_match _ _ _ _ _ _ _ Hp Hv Ha He) in H.
  injection H as <- <-. exists tok, p, u. repeat split; assumption.
Qed.

(** C2.  [alice] logs in at second 100 and refreshes at second 101.  The
    refresh answers 200 and stores a new refresh token, but the response
    carries no refresh token: the body field and the cookie are undefined,
    so what the client receives is not the stored value, and a refresh that
    presents what was returned (nothing, or the text "undefined" that the
    cookie then reads as) is refused. *)
Theorem refresh_returns_no_refresh_token :
  let first :=
    refreshAccessToken sampleEnv (mkWorld 101 0 101250)
      (refreshWith (aliceRefreshToken 100)) dbAfterLogin in
  snd first =
    inr (mkResponse 200
           [SetCookie "accessToken" (Some (generateAccessToken sampleEnv 101 alice));
            SetCookie "refreshToken" None]
           (mkApiResponse 200
              (DataTokens (Some (generateAccessToken sampleEnv 101 alice)) None)
              "Access token refreshed")) ∧
  storedRefreshToken 1%N (fst first) = Some (aliceRefreshToken 101) ∧
  answer (refreshAccessToken sampleEnv (mkWorld 102 0 102250) emptyRequest (fst first))
  = inl (ApiError 401 "Unauthorized request") ∧
  answer (refreshAccessToken sampleEnv (mkWorld 102 0 102250)
            (refreshWith (Txt.ofString "undefined")) (fst first))
  = inl (ApiError 401 "jwt malformed").
Proof. vm_compute. repeat split. Qed.

(** ** The authentication middleware, case by case *)

Lemma verifyJWT_no_token env w req db :
  Txt.truthy (extractToken req) = false →
  verifyJWT env w req db =
    (db, inl (ApiError 401 "Unauthorized request - No token found")).
Proof.
  unfold verifyJWT.
  destruct (extractToken req) as [[|? ?]|]; simpl; [reflexivity|discriminate|reflexivity].
Qed.

Lemma verifyJWT_unverified env w req db tok e :
  extractToken req = Some tok → tok ≠ [] →
  jwt.verify tok (ACCESS_TOKEN_SECRET env) (clock w) = inl e →
  verifyJWT env w req db =
    (db, inl (ApiError 401 (messageOr (message_of e) "Invalid access token"))).
Proof.
  intros Hx Hne Hv. unfold verifyJWT. rewrite Hx.
  destruct tok as [|s tok]; [done|].
  unfold try_catch, bind at 1. rewrite Hv. reflexivity.
Qed.

Lemma verifyJWT_unknown_subject env w req db tok p :
  extractToken req = Some tok →
  jwt.verify tok (ACCESS_TOKEN_SECRET env) (clock w) = inr p →
  account (p_id p) db = None →
  verifyJWT env w req db =
    (db, inl (ApiError 401 "Invalid Access Token - User not found")).
Proof.
  intros Hx Hv Ha. unfold verifyJWT. rewrite Hx.
  destruct (verify_inv _ _ _ _ Hv) as (j & -> & _).
  unfold try_catch, bind at 1. rewrite Hv.
  unfold lift, ret, bind, UserModel.findById, gets.
  fold (account (p_id p) db). rewrite Ha. reflexivity.
Qed.

Lemma verifyJWT_accepts env w req db tok p u :
  extractToken req = Some tok →
  jwt.verify tok (ACCESS_TOKEN_SECRET env) (clock w) = inr p →
  account (p_id p) db = Some u →
  verifyJWT env w req db = (db, inr (attachUser (sanitized u) req)).
Proof.
  intros Hx Hv Ha. unfold verifyJWT. rewrite Hx.
  destruct (verify_inv _ _ _ _ Hv) as (j & -> & _).
  unfold try_catch, bind at 1. rewrite Hv.
  unfold lift, ret, bind, UserModel.findById, gets.
  fold (account (p_id p) db). rewrite Ha. reflexivity.
Qed.

Lemma verifyJWT_answer_inv env w req db db' req' :
  verifyJWT env w req db = (db', inr req') →
  ∃ tok p u,
    extractToken req = Some tok ∧
    jwt.verify tok (ACCESS_TOKEN_SECRET env) (clock w) = inr p ∧
    account (p_id p) db = Some u ∧
    db' = db ∧ req' = attachUser (sanitized u) req.
Proof.
  intros H.
  destruct (Txt.truthy (extractToken req)) eqn:Ht.
  2:{ rewrite verifyJWT_no_token in H by assumption. discriminate. }
  destruct (extractToken req) as [tok|] eqn:Hx; [|discriminate].
  assert (tok ≠ []) as Hne by (intros ->; discriminate).
  destruct (jwt.verify tok (ACCESS_TOKEN_SECRET env) (clock w)) as [e|p] eqn:Hv.
  { rewrite (verifyJWT_unverified _ _ _ _ _ _ Hx Hne Hv) in H. discriminate. }
  destruct (account (p_id p) db) as [u|] eqn:Ha.
  2:{ rewrite (verifyJWT_unknown_subject _ _ _ _ _ _ Hx Hv Ha) in H. discriminate. }
  rewrite (verifyJWT_accepts _ _ _ _ _ _ _ Hx Hv Ha) in H.
  injection H as <- <-. exists tok, p, u. repeat split; assumption.
Qed.

(** ** Failures at the authentication boundary *)

Lemma refresh_failure_401 env w req db db' e :
  refreshAccessToken env w req db = (db', inl e) → ∃ m, e = ApiError 401 m.
Proof.
  intros H.
  destruct (Txt.truthy (presented req)) eqn:Ht.
  2:{ rewrite refresh_no_credential in H by assumption. injection H as _ <-. eauto. }
  destruct (presented req) as [tok|] eqn:Hp; [|discriminate].
  assert (tok ≠ []) as Hne by (intros ->; discriminate).
  destruct (jwt.verify tok (REFRESH_TOKEN_SECRET env) (clock w)) as [e'|p] eqn:Hv.
  { rewrite (refresh_unverified _ _ _ _ _ _ Hp Hne Hv) in H. injection H as _ <-. eauto. }
  destruct (account (p_id p) db) as [u|] eqn:Ha.
  2:{ rewrite (refresh_unknown_subject _ _ _ _ _ _ Hp Hv Ha) in H.
      injection H as _ <-. eauto. }
  destruct (decide (refreshToken u = Some tok)) as [He|Hd].
  - rewrite (refresh_match _ _ _ _ _ _ _ Hp Hv Ha He) in H. discriminate.
  - rewrite (refresh_stale _ _ _ _ _ _ _ Hp Hv Ha Hd) in H.
    injection H as _ <-. unfold StaleOrReused. eauto.
Qed.

Lemma verifyJWT_failure_401 env w req db db' e :
  verifyJWT env w req db = (db', inl e) → ∃ m, e = ApiError 401 m.
Proof.
  intros H.
  destruct (Txt.truthy (extractToken req)) eqn:Ht.
  2:{ rewrite verifyJWT_no_token in H by assumption. injection H as _ <-. eauto. }
  destruct (extractToken req) as [tok|] eqn:Hx; [|discriminate].
  assert (tok ≠ []) as Hne by (intros ->; discriminate).
  destruct (jwt.verify tok (ACCESS_TOKEN_SECRET env) (clock w)) as [e'|p] eqn:Hv.
  { rewrite (verifyJWT_unverified _ _ _ _ _ _ Hx Hne Hv) in H. injection H as _ <-. eauto. }
  destruct (account (p_id p) db) as [u|] eqn:Ha.
  - rewrite (verifyJWT_accepts _ _ _ _ _ _ _ Hx Hv Ha) in H. discriminate.
  - rewrite (verifyJWT_unknown_subject _ _ _ _ _ _ Hx Hv Ha) in H.
    injection H as _ <-. eauto.
Qed.

(** C4 (amended).  Whatever the cause, a failure of a refresh or of the
    authentication middleware reaches the caller as an [ApiError] with
    status 401; its message is the one of the cause. *)
Theorem boundary_failure_is_401 env w req db e :
  boundaryFailure env w req db e → ∃ m, e = ApiError 401 m.
Proof.
  intros [[db' H]|[db' H]].
  - by apply refresh_failure_401 in H.
  - by apply verifyJWT_failure_401 in H.
Qed.

(** Witness of [boundary_failure_is_401]: a refresh without credential. *)
Lemma boundary_failure_is_401_witness :
  ∃ m, ApiError 401 "Unauthorized request" = ApiError 401 m.
Proof.
  apply (boundary_failure_is_401 sampleEnv (mkWorld 100 0 100250) emptyRequest sampleDb).
  left. exists sampleDb. reflexivity.
Defined.

(** C4, as stated, fails: the five causes reach the caller of a refresh
    with five different messages, so a stale credential, a missing one, an
    expired one, a forged one and a malformed one can be told apart. *)
Lemma boundary_failures_differ :
  let stale :=
    refreshAccessToken sampleEnv (mkWorld 102 0 102250)
      (refreshWith (aliceRefreshToken 100)) dbAfterRefresh in
  let missing :=
    refreshAccessToken sampleEnv (mkWorld 102 0 102250) emptyRequest dbAfterRefresh in
  let expired :=
    refreshAccessToken sampleEnv (mkWorld 864100 0 864100250)
      (refreshWith (aliceRefreshToken 100)) dbAfterLogin in
  let forged :=
    refreshAccessToken sampleEnv (mkWorld 102 0 102250)
      (refreshWith forgedRefreshToken) dbAfterRefresh in
  let malformed :=
    refreshAccessToken sampleEnv (mkWorld 102 0 102250)
      (refreshWith (Txt.ofString "not-a-token")) dbAfterRefresh in
  answer stale = inl (ApiError 401 "Refresh token is expired or used") ∧
  answer missing = inl (ApiError 401 "Unauthorized request") ∧
  answer expired = inl (ApiError 401 "jwt expired") ∧
  answer forged = inl (ApiError 401 "invalid signature") ∧
  answer malformed = inl (ApiError 401 "jwt malformed") ∧
  answer stale ≠ answer missing ∧
  answer stale ≠ answer expired ∧
  answer expired ≠ answer forged.
Proof. vm_compute. repeat split; discriminate. Qed.

(** ** Where the access credential is taken from *)

(** C7.  The middleware takes the credential from the cookie when there is
    one; it turns to the [Authorization] header only when the cookie yields
    nothing, and removes the prefix ["Bearer "] from it; with neither
    source it fails with status 401, and so it does when the subject of a
    verified credential is not in the directory. *)
Theorem verifyJWT_credential_source env w req db :
  (∀ c, cookies_accessToken req = Some c → c ≠ [] → extractToken req = Some c) ∧
  (∀ t, extractToken req = Some t → cookies_accessToken req ≠ Some t →
        Txt.truthy (cookies_accessToken req) = false) ∧
  (∀ t, Txt.truthy (cookies_accessToken req) = false →
        header_Authorization req = Some (Bearer ++ t) →
        extractToken req = Some t) ∧
  (Txt.truthy (cookies_accessToken req) = false → header_Authorization req = None →
   verifyJWT env w req db =
     (db, inl (ApiError 401 "Unauthorized request - No token found"))) ∧
  (∀ tok p, extractToken req = Some tok →
            jwt.verify tok (ACCESS_TOKEN_SECRET env) (clock w) = inr p →
            account (p_id p) db = None →
            verifyJWT env w req db =
              (db, inl (ApiError 401 "Invalid Access Token - User not found"))).
Proof.
  repeat split.
  - intros c Hc Hne. unfold extractToken. rewrite Hc.
    apply Txt_or_truthy. by destruct c.
  - intros t Hx Hc. unfold extractToken in Hx.
    destruct (Txt.truthy (cookies_accessToken req)) eqn:Ht; [|reflexivity].
    rewrite Txt_or_truthy in Hx by assumption. congruence.
  - intros t Hc Hh. unfold extractToken. rewrite Txt_or_falsy, Hh by assumption.
    change (Some (Txt.replaceFirst Bearer (Bearer ++ t)) = Some t).
    by rewrite replaceFirst_prefix.
  - intros Hc Hh. apply verifyJWT_no_token.
    unfold extractToken. by rewrite Txt_or_falsy, Hh by assumption.
  - intros tok p. apply verifyJWT_unknown_subject.
Qed.

(** Witness of [verifyJWT_credential_source]: a cookie wins over the
    header, a header alone is stripped of its prefix, a request without
    credential and a credential of an unknown subject are refused. *)
Lemma verifyJWT_credential_source_witness :
  extractToken (cookieRequest (aliceAccessToken 100) strangerAccessToken)
    = Some (aliceAccessToken 100) ∧
  extractToken (bearerRequest (aliceAccessToken 100)) = Some (aliceAccessToken 100) ∧
  verifyJWT sampleEnv (mkWorld 100 0 100250) emptyRequest sampleDb
    = (sampleDb, inl (ApiError 401 "Unauthorized request - No token found")) ∧
  verifyJWT sampleEnv (mkWorld 100 0 100250) (bearerRequest strangerAccessToken) sampleDb
    = (sampleDb, inl (ApiError 401 "Invalid Access Token - User not found")).
Proof.
  split; [|split; [|split]].
  - apply (proj1 (verifyJWT_credential_source sampleEnv (mkWorld 100 0 100250)
                    (cookieRequest (aliceAccessToken 100) strangerAccessToken) sampleDb)).
    + reflexivity.
    + discriminate.
  - apply (proj1 (proj2 (proj2 (verifyJWT_credential_source sampleEnv (mkWorld 100 0 100250)
                    (bearerRequest (aliceAccessToken 100)) sampleDb)))).
    + reflexivity.
    + reflexivity.
  - apply (proj1 (proj2 (proj2 (proj2 (verifyJWT_credential_source sampleEnv
                    (mkWorld 100 0 100250) emptyRequest sampleDb))))).
    + reflexivity.
    + reflexivity.
  - apply (proj2 (proj2 (proj2 (proj2 (verifyJWT_credential_source sampleEnv
                    (mkWorld 100 0 100250) (bearerRequest strangerAccessToken) sampleDb))))
             strangerAccessToken (mkPayload 9%N (Some "bob@x.com") (Some "bob") (Some "Bob"))).
    + vm_compute. reflexivity.
    + vm_compute. reflexivity.
    + vm_compute. reflexivity.
Defined.

(** ** Sanitized identities *)

Lemma sanitized_password u : password (sanitized u) = None.
Proof. reflexivity. Qed.

Lemma sanitized_refreshToken u : refreshToken (sanitized u) = None.
Proof. reflexivity. Qed.

(** C8.  The identity a successful authentication attaches to the request,
    and the account projection a successful login returns, contain neither
    the password hash nor the stored refresh credential. *)
Theorem exposed_identity_is_sanitized env w req db u :
  exposedIdentity env w req db u → password u = None ∧ refreshToken u = None.
Proof.
  intros [(db' & req' & H & Hu)|(db' & resp & accessToken & rt & H & Hd)].
  - apply verifyJWT_answer_inv in H as (tok & p & u0 & _ & _ & _ & _ & ->).
    simpl in Hu. injection Hu as <-.
    split; [apply sanitized_password | apply sanitized_refreshToken].
  - apply loginUser_inv in H as (id & u0 & _ & _ & ->).
    simpl in Hd. injection Hd as <- _ _.
    split; [apply sanitized_password | apply sanitized_refreshToken].
Qed.

(** Witness of [exposed_identity_is_sanitized]: the projection returned to
    [alice] when she logs in at second 100. *)
Lemma exposed_identity_is_sanitized_witness :
  password (sanitized (rotated sampleEnv (mkWorld 100 0 100250) alice)) = None ∧
  refreshToken (sanitized (rotated sampleEnv (mkWorld 100 0 100250) alice)) = None.
Proof.
  apply (exposed_identity_is_sanitized sampleEnv (mkWorld 100 0 100250) aliceLogin sampleDb).
  right. exists dbAfterLogin, (loginResponse sampleEnv (mkWorld 100 0 100250) alice).
  eexists _, _. split; [vm_compute|]; reflexivity.
Defined.

(** ** Password change *)

Lemma change_wrong_old w req db v u :
  req_user req = Some v → account (_id v) db = Some u →
  bcrypt.compare (body_oldPassword req) (password u) = inr false →
  changeCurrentPassword w req db = (db, inl InvalidOldPassword).
Proof.
  intros Hv Ha Hc. unfold changeCurrentPassword. rewrite Hv.
  unfold bind at 1. unfold UserModel.findById, gets. simpl.
  fold (account (_id v) db). rewrite Ha.
  unfold bind at 1. unfold isPasswordCorrect. rewrite Hc. reflexivity.
Qed.

(** A password that compares equal to a stored text is stored as a
    digest. *)
Lemma compare_true_digest d encrypted :
  bcrypt.compare d encrypted = inr true →
  ∃ s h, encrypted = Some (Digest s h).
Proof.
  destruct d as [d|], encrypted as [[?|s h]|]; try discriminate. eauto.
Qed.

Lemma withPassword_id w new u : _id (withPassword w new u) = _id u.
Proof. reflexivity. Qed.

(** Saving a document whose password, stored as a digest, was assigned a
    plain text: both hooks run, and the stored document takes the date of
    the save and the digest of the text. *)
Lemma save_password w new u db s h :
  password u = Some (Digest s h) →
  save (date w) (salt w) (assign_password (Some (Plain new)) (load u)) db
  = (setUsers (updateFirst (hasId (_id u)) (λ _, withPassword w new u)) db, inr tt).
Proof.
  intros Hp.
  unfold save, timestampsPreSave, isModifiedAny, assign_updatedAt, assign_password,
    marked, pre_save, isModified, bind. simpl. rewrite Hp.
  rewrite (bool_decide_eq_false_2 (Some (Digest s h) = Some (Plain new))) by discriminate.
  simpl.
  destruct (bool_decide (updatedAt u = date w)); reflexivity.
Qed.

(** Saving a document whose password was assigned [undefined]: the hook
    of the model throws, and nothing is written. *)
Lemma save_password_undefined w u db s h :
  password u = Some (Digest s h) →
  save (date w) (salt w) (assign_password None (load u)) db
  = (db, inl (RuntimeError "Error" "data and salt arguments required")).
Proof.
  intros Hp.
  unfold save, timestampsPreSave, isModifiedAny, assign_updatedAt, assign_password,
    marked, pre_save, isModified, bind. simpl. rewrite Hp.
  rewrite (bool_decide_eq_false_2 (Some (Digest s h) = None)) by discriminate.
  simpl.
  destruct (bool_decide (updatedAt u = date w)); reflexivity.
Qed.

Lemma change_right_old w req db v u new :
  req_user req = Some v → account (_id v) db = Some u →
  bcrypt.compare (body_oldPassword req) (password u) = inr true →
  body_newPassword req = Some new →
  changeCurrentPassword w req db =
    (setUsers (updateFirst (hasId (_id v)) (λ _, withPassword w new u)) db,
     inr (mkResponse 200 []
            (mkApiResponse 200 DataEmpty "Password changed successfully"))).
Proof.
  intros Hv Ha Hc Hn. unfold changeCurrentPassword. rewrite Hv, Hn.
  unfold bind at 1. unfold UserModel.findById, gets. simpl.
  fold (account (_id v) db). rewrite Ha.
  unfold bind at 1. unfold isPasswordCorrect. rewrite Hc. simpl.
  destruct (compare_true_digest _ _ Hc) as (s & h & Hp).
  unfold bind at 1. rewrite (save_password w new u db s h Hp).
  rewrite <- (account_id _ _ _ Ha). reflexivity.
Qed.

(** C9.  A password change whose old password does not match the stored
    hash fails with [InvalidOldPassword] and writes nothing; one whose old
    password matches answers 200, stores the hash of the new password, and
    leaves the stored refresh credential of the account as it was. *)
Theorem changeCurrentPassword_frame w req db v u old new hash :
  req_user req = Some v →
  account (_id v) db = Some u →
  password u = Some hash →
  body_oldPassword req = Some old →
  body_newPassword req = Some new →
  (bcrypt.compare (Some old) (Some hash) = inr false →
   changeCurrentPassword w req db = (db, inl InvalidOldPassword)) ∧
  (bcrypt.compare (Some old) (Some hash) = inr true →
   ∃ db' resp,
     changeCurrentPassword w req db = (db', inr resp) ∧
     status resp = 200%Z ∧
     storedPassword (_id v) db' = Some (bcrypt.hash (Plain new) (salt w)) ∧
     bcrypt.compare (Some new) (storedPassword (_id v) db') = inr true ∧
     storedRefreshToken (_id v) db' = storedRefreshToken (_id v) db).
Proof.
  intros Hv Ha Hp Ho Hn. split; intros Hc.
  - apply (change_wrong_old w req db v u Hv Ha). by rewrite Ho, Hp.
  - eexists _, _. split.
    { apply (change_right_old w req db v u new Hv Ha); [by rewrite Ho, Hp|assumption]. }
    split; [reflexivity|].
    assert (Ha' : account (_id v)
              (setUsers (updateFirst (hasId (_id v)) (λ _, withPassword w new u)) db)
            = Some (withPassword w new u)).
    { apply (account_after_update (_id v) (withPassword w new) db u Ha).
      simpl. by apply account_id in Ha. }
    unfold storedPassword, storedRefreshToken. rewrite Ha', Ha. simpl.
    repeat split. by rewrite bool_decide_eq_true_2.
Qed.

(** Witness of [changeCurrentPassword_frame]: [alice], logged in at second
    100, changes her password from [pw123] to [pw456]. *)
Lemma changeCurrentPassword_frame_witness :
  (bcrypt.compare (Some "pw123") (Some (bcrypt.hash (Plain "pw123") 7)) = inr false →
   changeCurrentPassword (mkWorld 200 8 200250) (aliceChange "pw123" "pw456") dbAfterLogin
   = (dbAfterLogin, inl InvalidOldPassword)) ∧
  (bcrypt.compare (Some "pw123") (Some (bcrypt.hash (Plain "pw123") 7)) = inr true →
   ∃ db' resp,
     changeCurrentPassword (mkWorld 200 8 200250) (aliceChange "pw123" "pw456") dbAfterLogin
     = (db', inr resp) ∧
     status resp = 200%Z ∧
     storedPassword 1%N db' = Some (bcrypt.hash (Plain "pw456") 8) ∧
     bcrypt.compare (Some "pw456") (storedPassword 1%N db') = inr true ∧
     storedRefreshToken 1%N db' = storedRefreshToken 1%N dbAfterLogin).
Proof.
  apply (changeCurrentPassword_frame (mkWorld 200 8 200250) (aliceChange "pw123" "pw456")
           dbAfterLogin (sanitized alice) (rotated sampleEnv (mkWorld 100 0 100250) alice)
           "pw123" "pw456" (bcrypt.hash (Plain "pw123") 7)).
  - reflexivity.
  - vm_compute. reflexivity.
  - reflexivity.
  - reflexivity.
  - reflexivity.
Defined.

(** ** A handler that throws has written nothing *)

Lemma loginUser_failure_db env w req db db' e :
  loginUser env w req db = (db', inl e) → db' = db.
Proof.
  unfold loginUser.
  destruct (negb (Js.truthy (body_username req)) && negb (Js.truthy (body_email req)));
    [by intros [= <- _]|].
  unfold bind at 1. unfold UserModel.findOne, gets.
  destruct (findFirst _ (users db)) as [u0|] eqn:Hfind; [|by intros [= <- _]].
  unfold bind at 1. unfold isPasswordCorrect, lift.
  destruct (bcrypt.compare (body_password req) (password u0)) as [e'|[]];
    [by intros [= <- _]| |by intros [= <- _]].
  simpl.
  apply findFirst_Some in Hfind as [_ Hin].
  destruct (findFirst_is_Some (hasId (_id u0)) (users db) u0 Hin) as [u Hu].
  { unfold hasId. by apply bool_decide_eq_true. }
  fold (account (_id u0) db) in Hu.
  unfold bind at 1. rewrite (generate_found env w _ db u Hu).
  unfold bind at 1. unfold bind, UserModel.findById, gets, ret. discriminate.
Qed.

Lemma refresh_failure_db env w req db db' e :
  refreshAccessToken env w req db = (db', inl e) → db' = db.
Proof.
  intros H.
  destruct (Txt.truthy (presented req)) eqn:Ht.
  2:{ rewrite refresh_no_credential in H by assumption. by injection H as <- _. }
  destruct (presented req) as [tok|] eqn:Hp; [|discriminate].
  assert (tok ≠ []) as Hne by (intros ->; discriminate).
  destruct (jwt.verify tok (REFRESH_TOKEN_SECRET env) (clock w)) as [e'|p] eqn:Hv.
  { rewrite (refresh_unverified _ _ _ _ _ _ Hp Hne Hv) in H. by injection H as <- _. }
  destruct (account (p_id p) db) as [u|] eqn:Ha.
  2:{ rewrite (refresh_unknown_subject _ _ _ _ _ _ Hp Hv Ha) in H. by injection H as <- _. }
  destruct (decide (refreshToken u = Some tok)) as [He|Hd].
  - rewrite (refresh_match _ _ _ _ _ _ _ Hp Hv Ha He) in H. discriminate.
  - rewrite (refresh_stale _ _ _ _ _ _ _ Hp Hv Ha Hd) in H. by injection H as <- _.
Qed.

Lemma change_failure_db w req db db' e :
  changeCurrentPassword w req db = (db', inl e) → db' = db.
Proof.
  unfold changeCurrentPassword.
  unfold bind at 1. unfold UserModel.findById, gets.
  destruct (match _id <$> req_user req with
            | Some i => findFirst (hasId i) (users db)
            | None => None
            end) as [u|]; [|by intros [= <- _]].
  unfold bind at 1. unfold isPasswordCorrect, lift.
  destruct (bcrypt.compare (body_oldPassword req) (password u)) as [e'|[]] eqn:Hc;
    [by intros [= <- _]| |by intros [= <- _]].
  simpl. destruct (compare_true_digest _ _ Hc) as (s & h & Hp).
  destruct (body_newPassword req) as [new|]; simpl.
  - unfold bind at 1. rewrite (save_password w new u db s h Hp). discriminate.
  - unfold bind at 1. rewrite (save_password_undefined w u db s h Hp).
    by intros [= <- _].
Qed.

Lemma logout_failure_db w req db db' e :
  logoutUser w req db = (db', inl e) → db' = db.
Proof.
  unfold logoutUser. destruct (req_user req); [discriminate|]. by intros [= <- _].
Qed.

Lemma account_other_after_update id id' (f : User → User) db :
  id' ≠ id → (∀ a, _id (f a) = id) →
  account id' (setUsers (updateFirst (hasId id) f) db) = account id' db.
Proof.
  intros Hne Hf. unfold account, setUsers. simpl.
  apply findFirst_updateFirst_other.
  - intros a Ha. unfold hasId in *. apply bool_decide_eq_true in Ha.
    apply bool_decide_eq_false. congruence.
  - intros a _. unfold hasId. apply bool_decide_eq_false. rewrite Hf. congruence.
Qed.

(** A password change that answers has found the account of the caller,
    whose password is stored as a digest, and was given a new password. *)
Lemma change_answer_inv w req db db' resp :
  changeCurrentPassword w req db = (db', inr resp) →
  ∃ v u new,
    req_user req = Some v ∧ account (_id v) db = Some u ∧
    body_newPassword req = Some new ∧
    db' = setUsers (updateFirst (hasId (_id v)) (λ _, withPassword w new u)) db.
Proof.
  intros H.
  destruct (req_user req) as [v|] eqn:Hv.
  2:{ revert H. unfold changeCurrentPassword. rewrite Hv. discriminate. }
  destruct (account (_id v) db) as [u|] eqn:Ha.
  2:{ revert H. unfold changeCurrentPassword. rewrite Hv.
      unfold bind at 1. unfold UserModel.findById, gets. simpl.
      fold (account (_id v) db). rewrite Ha. discriminate. }
  destruct (bcrypt.compare (body_oldPassword req) (password u)) as [e|[]] eqn:E.
  - revert H. unfold changeCurrentPassword. rewrite Hv.
    unfold bind at 1. unfold UserModel.findById, gets. simpl.
    fold (account (_id v) db). rewrite Ha.
    unfold bind at 1. unfold isPasswordCorrect. rewrite E. discriminate.
  - destruct (body_newPassword req) as [new|] eqn:Hn.
    + rewrite (change_right_old w req db v u new Hv Ha E Hn) in H.
      injection H as <- _. exists v, u, new. repeat split; assumption.
    + revert H. unfold changeCurrentPassword. rewrite Hv, Hn.
      unfold bind at 1. unfold UserModel.findById, gets. simpl.
      fold (account (_id v) db). rewrite Ha.
      unfold bind at 1. unfold isPasswordCorrect. rewrite E. simpl.
      destruct (compare_true_digest _ _ E) as (s0 & h0 & Hp0).
      unfold bind at 1. rewrite (save_password_undefined w u db s0 h0 Hp0).
      discriminate.
  - rewrite (change_wrong_old w req db v u Hv Ha E) in H. discriminate.
Qed.

(** ** Logout *)

Lemma logout_answer w req db u :
  req_user req = Some u →
  logoutUser w req db =
    (setUsers (updateFirst (hasId (_id u))
                 (UserModel.applyTimestampsToUpdate (date w) (without "refreshToken"))) db,
     inr (mkResponse 200
            [ClearCookie "accessToken"; ClearCookie "refreshToken"]
            (mkApiResponse 200 DataEmpty "User logged Out"))).
Proof. intros H. unfold logoutUser. rewrite H. reflexivity. Qed.

(** An update of the document with a given id, read back under that id and
    under another one. *)
Lemma account_after_modify id f db :
  (∀ a, _id (f a) = _id a) →
  account id (setUsers (updateFirst (hasId id) f) db) = f <$> account id db.
Proof.
  intros Hf. unfold account, setUsers. simpl. apply findFirst_updateFirst.
  intros a Ha. unfold hasId in *. by rewrite Hf.
Qed.

Lemma account_other_after_modify id id' f db :
  id ≠ id' → (∀ a, _id (f a) = _id a) →
  account id (setUsers (updateFirst (hasId id') f) db) = account id db.
Proof.
  intros Hne Hf. unfold account, setUsers. simpl.
  apply findFirst_updateFirst_other.
  - intros a Ha. unfold hasId in *. apply bool_decide_eq_true in Ha.
    apply bool_decide_eq_false. congruence.
  - intros a Ha. unfold hasId in *. apply bool_decide_eq_true in Ha.
    apply bool_decide_eq_false. rewrite Hf. congruence.
Qed.

Lemma unset_id now path a :
  _id (UserModel.applyTimestampsToUpdate now (without path) a) = _id a.
Proof.
  unfold UserModel.applyTimestampsToUpdate, without.
  by repeat case_bool_decide.
Qed.

Lemma account_after_unset now id db :
  account id (setUsers (updateFirst (hasId id)
                (UserModel.applyTimestampsToUpdate now (without "refreshToken"))) db)
  = UserModel.applyTimestampsToUpdate now (without "refreshToken") <$> account id db.
Proof. apply account_after_modify. intros a. apply unset_id. Qed.

(** *** What stays revoked *)

(** A token minted at another second than a credential was issued at is
    not that credential. *)
Lemma minted_apart env t u tok :
  issuedAt tok ≠ Some t → Some (generateRefreshToken env t u) ≠ Some tok.
Proof. intros H [= E]. apply H. by rewrite <- E. Qed.

Lemma rotation_keeps_revoked env w id' u id tok db :
  account id' db = Some u →
  issuedAt tok ≠ Some (clock w) →
  revoked id tok db → revoked id tok (afterRotation env w id' u db).
Proof.
  intros Hu Hw (a & Ha & Hne). unfold afterRotation.
  destruct (decide (id = id')) as [->|Hid].
  - exists (rotated env w u). split; [by apply account_after_rotation|].
    rewrite rotated_refreshToken. by apply minted_apart.
  - exists a. split; [|assumption]. rewrite <- Ha.
    apply account_other_after_update; [assumption|].
    intros _. rewrite rotated_id. by apply account_id in Hu.
Qed.

(** A call that does not mint a token at the issue second of a credential
    leaves an account without that credential as it finds it. *)
Lemma perform_keeps_revoked env c id tok db :
  reissues tok c = false → revoked id tok db → revoked id tok (perform env db c).
Proof.
  intros Hc Hr. destruct c as [w req|w req|w req|w req]; simpl.
  - destruct (loginUser env w req db) as [db' [e|resp]] eqn:H; simpl.
    + by rewrite (loginUser_failure_db _ _ _ _ _ _ H).
    + apply loginUser_inv in H as (id' & u & Hu & -> & _).
      apply rotation_keeps_revoked; [assumption| |assumption].
      unfold reissues in Hc. simpl in Hc. by apply bool_decide_eq_false in Hc.
  - destruct (refreshAccessToken env w req db) as [db' [e|resp]] eqn:H; simpl.
    + by rewrite (refresh_failure_db _ _ _ _ _ _ H).
    + apply refresh_answer_inv in H as (t & p & u & _ & _ & Hu & _ & -> & _).
      apply rotation_keeps_revoked; [assumption| |assumption].
      unfold reissues in Hc. simpl in Hc. by apply bool_decide_eq_false in Hc.
  - destruct (req_user req) as [v|] eqn:Hv.
    + rewrite (logout_answer w req db v Hv). simpl.
      destruct Hr as (a & Ha & Hne).
      destruct (decide (id = _id v)) as [->|Hid].
      * eexists. split; [rewrite account_after_unset, Ha; reflexivity|]. discriminate.
      * exists a. split; [|assumption]. rewrite <- Ha.
        apply account_other_after_modify; [assumption|]. intros b. apply unset_id.
    + unfold logoutUser. rewrite Hv. exact Hr.
  - destruct (changeCurrentPassword w req db) as [db' [e|resp]] eqn:H; simpl.
    + by rewrite (change_failure_db _ _ _ _ _ H).
    + apply change_answer_inv in H as (v & u & new & Hv & Hu & _ & ->).
      destruct Hr as (a & Ha & Hne).
      destruct (decide (id = _id v)) as [->|Hid].
      * rewrite Hu in Ha. injection Ha as ->.
        exists (withPassword w new a). split; [|exact Hne].
        apply (account_after_update (_id v) (withPassword w new) db a Hu).
        simpl. by apply account_id in Hu.
      * exists a. split; [|assumption]. rewrite <- Ha.
        apply account_other_after_update; [assumption|].
        intros _. simpl. by apply account_id in Hu.
Qed.

Lemma performAll_keeps_revoked env calls id tok db :
  Forall (λ c, reissues tok c = false) calls →
  revoked id tok db → revoked id tok (performAll env calls db).
Proof.
  unfold performAll. intros Hall. revert db.
  induction Hall as [|c calls Hc _ IH]; intros db Hr; [exact Hr|].
  simpl. apply IH. by apply perform_keeps_revoked.
Qed.

(** A refresh that presents a credential whose subject is an account
    without that credential is refused with status 401 and writes nothing;
    the refusal is [StaleOrReused] when the credential verifies. *)
Lemma refresh_revoked env w req db id tok :
  presented req = Some tok → subject tok = Some id → revoked id tok db →
  ∃ m, refreshAccessToken env w req db = (db, inl (ApiError 401 m)) ∧
       (∀ p, jwt.verify tok (REFRESH_TOKEN_SECRET env) (clock w) = inr p →
             refreshAccessToken env w req db = (db, inl StaleOrReused)).
Proof.
  intros Hp Hs (a & Ha & Hne).
  destruct tok as [|[c|j] [|? ?]]; try discriminate. simpl in Hs. injection Hs as Hs.
  destruct (jwt.verify [Tok j] (REFRESH_TOKEN_SECRET env) (clock w)) as [e|p] eqn:Hv.
  - eexists. split; [|discriminate].
    by apply (refresh_unverified env w req db [Tok j] e).
  - assert (Hst : refreshAccessToken env w req db = (db, inl StaleOrReused)).
    { apply (refresh_stale env w req db [Tok j] p a Hp Hv); [|exact Hne].
      apply verify_inv in Hv as (j' & [= <-] & _ & _ & <-). by rewrite Hs. }
    eexists. split; [exact Hst|]. intros _ _. exact Hst.
Qed.

(** C3 (amended).  Logout answers 200 and leaves the account stored,
    without refresh credential.  Whatever logins, refreshes, logouts and
    password changes follow, as long as none of them mints a refresh token
    at the second at which the presented credential was issued, a refresh
    that presents a credential of that account is refused with status 401
    and writes nothing, and the refusal is [StaleOrReused] when the
    credential verifies (right secret, not expired). *)
Theorem logout_revokes env wOut reqOut db u a calls w reqR tok :
  req_user reqOut = Some u →
  account (_id u) db = Some a →
  presented reqR = Some tok →
  subject tok = Some (_id u) →
  Forall (λ c, reissues tok c = false) calls →
  ∃ db1 resp,
    logoutUser wOut reqOut db = (db1, inr resp) ∧
    status resp = 200%Z ∧
    (∃ a1, account (_id u) db1 = Some a1 ∧ refreshToken a1 = None) ∧
    storedRefreshToken (_id u) db1 = None ∧
    ∃ m,
      refreshAccessToken env w reqR (performAll env calls db1)
        = (performAll env calls db1, inl (ApiError 401 m)) ∧
      (∀ p, jwt.verify tok (REFRESH_TOKEN_SECRET env) (clock w) = inr p →
            refreshAccessToken env w reqR (performAll env calls db1)
              = (performAll env calls db1, inl StaleOrReused)).
Proof.
  intros Hu Ha Hp Hs Hcalls.
  eexists _, _. split; [by apply logout_answer|].
  split; [reflexivity|].
  pose proof (account_after_unset (date wOut) (_id u) db) as Ha1.
  rewrite Ha in Ha1. simpl in Ha1.
  split; [by eexists|].
  split; [unfold storedRefreshToken; by rewrite Ha1|].
  apply (refresh_revoked env w reqR _ (_id u) tok Hp Hs).
  apply performAll_keeps_revoked; [exact Hcalls|].
  eexists. split; [exact Ha1|]. discriminate.
Qed.

(** Witness of [logout_revokes]: [alice] logs in at second 100 and logs
    out at second 120; she then logs in at second 150, changes her password
    at second 160, refreshes at second 170 and logs out again at second
    180; the credential issued at second 100 is presented at second 200. *)
Lemma logout_revokes_witness :
  ∃ db1 resp,
    logoutUser (mkWorld 120 0 120250) aliceRequest dbAfterLogin = (db1, inr resp) ∧
    status resp = 200%Z ∧
    (∃ a1, account 1%N db1 = Some a1 ∧ refreshToken a1 = None) ∧
    storedRefreshToken 1%N db1 = None ∧
    ∃ m,
      refreshAccessToken sampleEnv (mkWorld 200 0 200250) (refreshWith (aliceRefreshToken 100))
        (performAll sampleEnv aliceCalls db1)
        = (performAll sampleEnv aliceCalls db1, inl (ApiError 401 m)) ∧
      (∀ p, jwt.verify (aliceRefreshToken 100) (REFRESH_TOKEN_SECRET sampleEnv) 200 = inr p →
            refreshAccessToken sampleEnv (mkWorld 200 0 200250)
              (refreshWith (aliceRefreshToken 100)) (performAll sampleEnv aliceCalls db1)
              = (performAll sampleEnv aliceCalls db1, inl StaleOrReused)).
Proof.
  apply (logout_revokes sampleEnv (mkWorld 120 0 120250) aliceRequest dbAfterLogin
           (sanitized alice) (rotated sampleEnv (mkWorld 100 0 100250) alice)
           aliceCalls (mkWorld 200 0 200250) (refreshWith (aliceRefreshToken 100))
           (aliceRefreshToken 100)).
  - reflexivity.
  - vm_compute. reflexivity.
  - reflexivity.
  - reflexivity.
  - repeat constructor.
Defined.

(** C3, as stated, fails.  [alice] logs in at second 100, logs out, and
    logs in again within the same second: the second login mints the text
    of the first credential, which is stored again, and a refresh that
    presents the credential issued before the logout is answered with
    status 200.  And right after the logout, the same credential presented
    after its expiry is refused with "jwt expired", not with
    [StaleOrReused]. *)
Lemma logout_then_login_same_second :
  let tok := aliceRefreshToken 100 in
  let login := loginUser sampleEnv (mkWorld 100 0 100250) aliceLogin sampleDb in
  let logout := logoutUser (mkWorld 100 0 100500) aliceRequest (fst login) in
  let again := loginUser sampleEnv (mkWorld 100 0 100750) aliceLogin (fst logout) in
  let refresh := refreshAccessToken sampleEnv (mkWorld 101 0 101250) (refreshWith tok)
                   (fst again) in
  let late := refreshAccessToken sampleEnv (mkWorld 864100 0 864100250) (refreshWith tok)
                (fst logout) in
  answer login = inr 200%Z ∧
  storedRefreshToken 1%N (fst login) = Some tok ∧
  answer logout = inr 200%Z ∧
  storedRefreshToken 1%N (fst logout) = None ∧
  answer again = inr 200%Z ∧
  answer refresh = inr 200%Z ∧
  answer refresh ≠ inl StaleOrReused ∧
  answer late = inl (ApiError 401 "jwt expired") ∧
  answer late ≠ inl StaleOrReused.
Proof. vm_compute. repeat split; discriminate. Qed.

(** ** The required-fields check of registration *)

Lemma someFieldBlank_spec l :
  someFieldBlank l = true ↔ ∃ s, Some s ∈ l ∧ Js.trim s = "".
Proof.
  unfold someFieldBlank. induction l as [|field l IH]; simpl.
  - split; [discriminate|]. intros (s & Hs & _). inversion Hs.
  - rewrite orb_true_iff, IH, bool_decide_eq_true. split.
    + intros [H|(s & Hs & Ht)].
      * destruct field as [s|]; [|discriminate]. simpl in H. injection H as H.
        exists s. split; [left|assumption].
      * exists s. split; [by right|assumption].
    + intros (s & Hs & Ht). inversion Hs; subst.
      * left. simpl. by rewrite Ht.
      * right. eauto.
Qed.

(** C10.  The rejection "All fields are required" is thrown exactly when
    some supplied field trims to the empty string; a field that is absent
    never triggers it, so a request is let through as soon as each of its
    four fields is absent or not blank, and a request with no field at all
    is let through. *)
Theorem registerUser_fieldsCheck_spec req :
  (registerUser_fieldsCheck req = inl (ApiError 400 "All fields are required") ↔
   ∃ s, Some s ∈ registrationFields req ∧ Js.trim s = "") ∧
  (registerUser_fieldsCheck req = inr tt ↔
   ∀ field, field ∈ registrationFields req →
            field = None ∨ ∃ s, field = Some s ∧ Js.trim s ≠ "") ∧
  registerUser_fieldsCheck emptyRequest = inr tt.
Proof.
  unfold registerUser_fieldsCheck. fold (registrationFields req).
  pose proof (someFieldBlank_spec (registrationFields req)) as Hs.
  destruct (someFieldBlank (registrationFields req)) eqn:E.
  - split; [|split; [|reflexivity]].
    + split; [intros _; by apply Hs|reflexivity].
    + split; [discriminate|]. intros H.
      destruct (proj1 Hs eq_refl) as (s & Hin & Ht).
      destruct (H _ Hin) as [?|(s' & [= <-] & Hne)]; [discriminate|contradiction].
  - split; [|split; [|reflexivity]].
    + split; [discriminate|]. intros H. apply Hs in H. discriminate.
    + split; [|reflexivity]. intros _ [s|] Hin; [|by left].
      right. exists s. split; [reflexivity|]. intros Ht.
      assert (false = true) by (apply Hs; eauto). discriminate.
Qed.

(** Witness of [registerUser_fieldsCheck_spec]: a request whose full name
    is a blank is rejected. *)
Lemma registerUser_fieldsCheck_spec_witness :
  registerUser_fieldsCheck
    (mkRequest None None None (Some " ") (Some "a@x.com") (Some "a") (Some "pw")
               None None None None None)
  = inl (ApiError 400 "All fields are required").
Proof.
  apply (proj2 (proj1 (registerUser_fieldsCheck_spec
           (mkRequest None None None (Some " ") (Some "a@x.com") (Some "a") (Some "pw")
                      None None None None None)))).
  exists " ". split; [left | reflexivity].
Defined.

(** A field made of a no-break space is blank. *)
Lemma registerUser_fieldsCheck_no_break_space :
  registerUser_fieldsCheck
    (mkRequest None None None (Some "A") (Some "a@x.com") (Some (String "160" ""))
               (Some "pw") None None None None None)
  = inl (ApiError 400 "All fields are required").
Proof. reflexivity. Qed.

(** ** Channel profile *)

Section Filters.
Context {A : Type}.

Lemma head_filter_findFirst (P : A → Prop) `{!∀ a, Decision (P a)} (Q : A → bool) l :
  (∀ a, a ∈ l → (P a ↔ Q a = true)) →
  head (filter P l) = findFirst Q l.
Proof.
  induction l as [|a l IH]; [reflexivity|]. intros Hall.
  rewrite filter_cons, findFirst_cons.
  assert (IH' : head (filter P l) = findFirst Q l).
  { apply IH. intros b Hb. apply Hall. by right. }
  pose proof (Hall a (list_elem_of_here _ _)) as Ha.
  destruct (decide (P a)) as [HP|HP], (Q a) eqn:E; simpl; try assumption; try reflexivity.
  - apply Ha in HP. discriminate.
  - exfalso. by apply HP, Ha.
Qed.

Lemma length_filter_countRows (P : A → Prop) `{!∀ a, Decision (P a)} (Q : A → bool) l :
  (∀ a, P a ↔ Q a = true) →
  length (filter P l) = countRows Q l.
Proof.
  intros Hall. induction l as [|a l IH]; [reflexivity|].
  rewrite filter_cons. simpl.
  destruct (decide (P a)) as [HP|HP], (Q a) eqn:E; simpl; try (by rewrite IH).
  - apply Hall in HP. congruence.
  - exfalso. by apply HP, Hall.
Qed.

End Filters.

Lemma in_subscribers_spec viewer id db :
  in_subscribers viewer (lookup_subscriptions channel id db) = true ↔
  ∃ e, e ∈ subscriptions db ∧ channel e = id ∧ Some (subscriber e) = viewer.
Proof.
  unfold in_subscribers, lookup_subscriptions. destruct viewer as [v|].
  - rewrite bool_decide_eq_true, list_elem_of_fmap. split.
    + intros (e & -> & He). apply list_elem_of_filter in He as [Hc Hin]. eauto.
    + intros (e & Hin & Hc & [= Hs]). exists e. split; [done|].
      by apply list_elem_of_filter.
  - split; [discriminate|]. by intros (e & _ & _ & ?).
Qed.

(** C5 (amended).  For a handle that is not blank, over a directory whose
    handles are stored in lower case: when no account has the handle up to
    letter case the query fails with [NotFound]; otherwise it answers 200
    with the profile of the first such account, whose [subscribersCount]
    is the number of subscription rows with that account as channel, whose
    [channelsSubscribedToCount] is the number of rows with it as
    subscriber, and whose [isSubscribed] is true iff a row has it as
    channel and the viewer as subscriber. *)
Theorem getUserChannelProfile_spec req db handle :
  params_username req = Some handle →
  Js.trim handle ≠ "" →
  (∀ u, u ∈ users db → username u = Js.toLowerCase (username u)) →
  match findFirst (λ u, sameHandle (username u) handle) (users db) with
  | None => getUserChannelProfile req db = (db, inl NotFound)
  | Some u =>
      ∃ c,
        getUserChannelProfile req db =
          (db, inr (mkResponse 200 []
                      (mkApiResponse 200 (DataChannel c)
                         "User channel fetched successfully"))) ∧
        channel_id c = _id u ∧
        channel_username c = username u ∧
        subscribersCount c =
          countRows (λ e, bool_decide (channel e = _id u)) (subscriptions db) ∧
        channelsSubscribedToCount c =
          countRows (λ e, bool_decide (subscriber e = _id u)) (subscriptions db) ∧
        (isSubscribed c = true ↔
         ∃ e, e ∈ subscriptions db ∧ channel e = _id u ∧
              Some (subscriber e) = _id <$> req_user req)
  end.
Proof.
  intros Hp Hne Hlow.
  unfold getUserChannelProfile. rewrite Hp. simpl.
  assert (Ht : bool_decide (Js.trim handle = "") = false)
    by (by apply bool_decide_eq_false).
  rewrite Ht. simpl. unfold bind, gets, aggregate_channel.
  assert (Hh : head (filter (λ u, username u = Js.toLowerCase handle) (users db))
               = findFirst (λ u, sameHandle (username u) handle) (users db)).
  { apply head_filter_findFirst. intros u Hu. unfold sameHandle.
    rewrite bool_decide_eq_true. rewrite <- (Hlow u Hu). reflexivity. }
  destruct (filter (λ u, username u = Js.toLowerCase handle) (users db))
    as [|u rest]; simpl in Hh; rewrite <- Hh; simpl; [reflexivity|].
  eexists. split; [reflexivity|]. simpl.
  split; [reflexivity|]. split; [reflexivity|].
  split; [|split].
  - apply length_filter_countRows. intros e. by rewrite bool_decide_eq_true.
  - apply length_filter_countRows. intros e. by rewrite bool_decide_eq_true.
  - rewrite <- in_subscribers_spec.
    by destruct (in_subscribers _ _).
Qed.

(** Witness of [getUserChannelProfile_spec]: [bob], who follows [alice],
    asks for the channel ["Alice"]. *)
Lemma getUserChannelProfile_spec_witness :
  ∃ c,
    getUserChannelProfile (channelRequest bob "Alice") graphDb =
      (graphDb, inr (mkResponse 200 []
                       (mkApiResponse 200 (DataChannel c)
                          "User channel fetched successfully"))) ∧
    channel_id c = 1%N ∧
    channel_username c = "alice" ∧
    subscribersCount c = 1 ∧
    channelsSubscribedToCount c = 0 ∧
    (isSubscribed c = true ↔
     ∃ e, e ∈ subscriptions graphDb ∧ channel e = 1%N ∧ Some (subscriber e) = Some 2%N).
Proof.
  apply (getUserChannelProfile_spec (channelRequest bob "Alice") graphDb "Alice").
  - reflexivity.
  - vm_compute. discriminate.
  - intros u Hu. simpl in Hu.
    repeat (apply elem_of_cons in Hu as [->|Hu]; [reflexivity|]).
    by apply elem_of_nil in Hu.
Defined.

(** C5, as stated, fails: for the handle [" "], which no account matches,
    the query does not fail with [NotFound] but with status 400,
    "username is missing". *)
Lemma getUserChannelProfile_blank_handle :
  findFirst (λ u, sameHandle (username u) " ") (users graphDb) = None ∧
  getUserChannelProfile (channelRequest bob " ") graphDb
  = (graphDb, inl (ApiError 400 "username is missing")) ∧
  answer (getUserChannelProfile (channelRequest bob " ") graphDb) ≠ inl NotFound.
Proof. vm_compute. repeat split. discriminate. Qed.

(** Beyond ASCII: the handle of [elan] asked for in capital letters finds
    the account, and a handle made of a no-break space is blank. *)
Lemma getUserChannelProfile_beyond_ascii :
  answer (getUserChannelProfile (channelRequest bob (String "201" "LAN"))
            (mkDb [alice; elan] [] [])) = inr 200%Z ∧
  answer (getUserChannelProfile (channelRequest bob (String "160" "")) graphDb)
  = inl (ApiError 400 "username is missing").
Proof. vm_compute. repeat split. Qed.

(** ** Watch history *)

Lemma head_of_fmap {A B} (f : A → B) (l : list A) : head (f <$> l) = f <$> head l.
Proof. by destruct l. Qed.

Lemma lookup_watchHistory_ids db u :
  entry_id <$> lookup_watchHistory db u
  = video_id <$> filter (λ v, video_id v ∈ watchHistory u) (videos db).
Proof.
  unfold lookup_watchHistory. rewrite <- list_fmap_compose. reflexivity.
Qed.

(** C6 (amended).  For a viewer whose account exists the query answers 200
    with one entry for each stored video whose id occurs in the viewer's
    watched-id sequence, in the order of the [videos] collection; a watched
    id without video is left out; the owner of an entry is a single
    nullable value, the projection of the account the video's owner
    reference finds, or null when it finds none; an empty watched-id
    sequence gives an empty answer. *)
Theorem getWatchHistory_spec req db viewer u :
  req_user req = Some viewer →
  account (_id viewer) db = Some u →
  ∃ h,
    getWatchHistory req db =
      (db, inr (mkResponse 200 []
                  (mkApiResponse 200 (DataHistory h)
                     "Watch history fetched successfully"))) ∧
    (entry_id <$> h) `sublist_of` (video_id <$> videos db) ∧
    (∀ id, id ∈ entry_id <$> h ↔ id ∈ watchHistory u ∧ id ∈ video_id <$> videos db) ∧
    (∀ e, e ∈ h →
       ∃ v, v ∈ videos db ∧ entry_id e = video_id v ∧
            entry_fields e = video_fields v ∧
            entry_owner e =
              projectOwner <$>
                findFirst (λ o, bool_decide (Some (_id o) = owner v)) (users db)) ∧
    (watchHistory u = [] → h = []).
Proof.
  intros Hv Ha. unfold getWatchHistory. rewrite Hv.
  unfold bind, gets, aggregate_history.
  assert (Hh : head (filter (λ x, _id x = _id viewer) (users db)) = Some u).
  { rewrite <- Ha. apply head_filter_findFirst. intros a _.
    unfold hasId. by rewrite bool_decide_eq_true. }
  destruct (filter (λ x, _id x = _id viewer) (users db)) as [|u' rest];
    [discriminate|].
  simpl in Hh. injection Hh as ->. simpl.
  exists (lookup_watchHistory db u). split; [reflexivity|].
  split; [|split; [|split]].
  - rewrite lookup_watchHistory_ids. apply fmap_sublist, sublist_filter.
  - intros id. rewrite lookup_watchHistory_ids, !list_elem_of_fmap. split.
    + intros (v & -> & Hin). apply list_elem_of_filter in Hin as [Hw Hin]. eauto.
    + intros (Hw & v & -> & Hin). exists v. split; [done|].
      by apply list_elem_of_filter.
  - intros e He. unfold lookup_watchHistory in He.
    apply list_elem_of_fmap in He as (v & -> & Hin).
    apply list_elem_of_filter in Hin as [_ Hin].
    exists v. repeat split; [assumption|]. simpl.
    unfold lookup_owner. rewrite head_of_fmap. f_equal.
    apply head_filter_findFirst. intros o _. by rewrite bool_decide_eq_true.
  - intros Hw. unfold lookup_watchHistory. rewrite Hw.
    assert (filter (λ v, video_id v ∈ []) (videos db) = []) as ->; [|reflexivity].
    induction (videos db) as [|v l IH]; [reflexivity|].
    rewrite filter_cons, decide_False by apply not_elem_of_nil. exact IH.
Qed.

(** Witness of [getWatchHistory_spec]: the watch history of [carol]. *)
Lemma getWatchHistory_spec_witness :
  ∃ h,
    getWatchHistory (historyRequest carol) graphDb =
      (graphDb, inr (mkResponse 200 []
                       (mkApiResponse 200 (DataHistory h)
                          "Watch history fetched successfully"))) ∧
    (entry_id <$> h) `sublist_of` (video_id <$> videos graphDb) ∧
    (∀ id, id ∈ entry_id <$> h ↔
           id ∈ watchHistory carol ∧ id ∈ video_id <$> videos graphDb) ∧
    (∀ e, e ∈ h →
       ∃ v, v ∈ videos graphDb ∧ entry_id e = video_id v ∧
            entry_fields e = video_fields v ∧
            entry_owner e =
              projectOwner <$>
                findFirst (λ o, bool_decide (Some (_id o) = owner v)) (users graphDb)) ∧
    (watchHistory carol = [] → h = []).
Proof.
  apply (getWatchHistory_spec (historyRequest carol) graphDb (sanitized carol) carol).
  - reflexivity.
  - vm_compute. reflexivity.
Defined.

(** C6, as stated, fails: [carol] watched video 20 and then video 10; the
    answer lists video 10 before video 20, the order of the [videos]
    collection, so its ids are not the stored sequence, nor a subsequence
    of it.  The owner of video 20, whom no account matches, is null. *)
Lemma getWatchHistory_collection_order :
  watchHistory carol = [20%N; 10%N] ∧
  snd (getWatchHistory (historyRequest carol) graphDb) =
    inr (mkResponse 200 []
           (mkApiResponse 200
              (DataHistory
                 [mkWatchEntry 10%N (Some (mkOwnerView 1%N "Alice" "alice" "alice.png"))
                               [("title", "first")];
                  mkWatchEntry 20%N None [("title", "second")]])
              "Watch history fetched successfully")) ∧
  answeredIds (getWatchHistory (historyRequest carol) graphDb) = [10%N; 20%N] ∧
  ¬ answeredIds (getWatchHistory (historyRequest carol) graphDb)
      `sublist_of` watchHistory carol.
Proof.
  split; [reflexivity|]. split; [vm_compute; reflexivity|].
  split; [vm_compute; reflexivity|].
  assert (answeredIds (getWatchHistory (historyRequest carol) graphDb) = [10%N; 20%N])
    as -> by (vm_compute; reflexivity).
  simpl. intros H.
  repeat match goal with
         | H : _ `sublist_of` _ |- _ => inversion H; clear H; subst
         end.
Qed.

(** * Further properties of the credential lifecycle *)

(** ** Failures and the database *)

(** X1.  When a login, a refresh, a password change or a logout throws,
    the database is the one the handler started from. *)
Theorem failure_writes_nothing env w req db db' e :
  credentialFailure env w req db db' e → db' = db.
Proof.
  intros [H|[H|[H|H]]].
  - by apply loginUser_failure_db in H.
  - by apply refresh_failure_db in H.
  - by apply change_failure_db in H.
  - by apply logout_failure_db in H.
Qed.

(** Witness of [failure_writes_nothing]: a login of [alice] with a wrong
    password. *)
Lemma failure_writes_nothing_witness :
  fst (loginUser sampleEnv (mkWorld 100 0 100250) (aliceLoginWith "guess") sampleDb) = sampleDb.
Proof.
  apply (failure_writes_nothing sampleEnv (mkWorld 100 0 100250) (aliceLoginWith "guess")
           sampleDb
           (fst (loginUser sampleEnv (mkWorld 100 0 100250) (aliceLoginWith "guess") sampleDb))
           (ApiError 401 "Invalid user credentials")).
  left. vm_compute. reflexivity.
Defined.

(** ** What a rotation changes *)

Lemma updateFirst_length {A} (P : A → bool) f l : length (updateFirst P f l) = length l.
Proof.
  induction l as [|a l IH]; [reflexivity|]. simpl. destruct (P a); simpl; by rewrite ?IH.
Qed.

Lemma rotationAnswer_inv env w req db db' resp :
  rotationAnswer env w req db db' resp →
  ∃ id u, account id db = Some u ∧ db' = afterRotation env w id u db.
Proof.
  intros [H|H].
  - apply loginUser_inv in H as (id & u & Ha & -> & _). eauto.
  - apply refresh_answer_inv in H as (tok & p & u & _ & _ & Ha & _ & -> & _). eauto.
Qed.

(** X2.  A login or a refresh that answers has changed one stored
    document and, in it, at most the refresh token and the date of the last
    update: the refresh token is the one minted at the clock second of the
    call; when that is the token the document had, the document is as it
    was, and otherwise its [updatedAt] is the date of the call; putting the
    two paths back gives the document as it was, so the password and every
    other field are kept; every account with another id reads as before,
    no document is added or removed, and the subscriptions and the videos
    are untouched. *)
Theorem rotation_frame env w req db db' resp :
  rotationAnswer env w req db db' resp →
  ∃ id u u',
    account id db = Some u ∧ account id db' = Some u' ∧
    refreshToken u' = Some (generateRefreshToken env (clock w) u) ∧
    (refreshToken u = refreshToken u' → u' = u) ∧
    (refreshToken u ≠ refreshToken u' → updatedAt u' = date w) ∧
    set_updatedAt (updatedAt u) (set_refreshToken (refreshToken u) u') = u ∧
    storedPassword id db' = storedPassword id db ∧
    (∀ id', id' ≠ id → account id' db' = account id' db) ∧
    length (users db') = length (users db) ∧
    subscriptions db' = subscriptions db ∧
    videos db' = videos db.
Proof.
  intros H. apply rotationAnswer_inv in H as (id & u & Ha & ->).
  pose proof (account_after_rotation env w id db u Ha) as Ha'.
  exists id, u, (rotated env w u).
  split; [assumption|]. split; [exact Ha'|].
  split; [apply rotated_refreshToken|].
  assert (Hrest : set_updatedAt (updatedAt u)
                    (set_refreshToken (refreshToken u) (rotated env w u)) = u).
  { rewrite rotated_fields. case_bool_decide; by destruct u. }
  split.
  { rewrite rotated_refreshToken. intros E. rewrite rotated_fields.
    by rewrite bool_decide_eq_true_2. }
  split.
  { rewrite rotated_refreshToken. intros E. rewrite rotated_fields.
    by rewrite bool_decide_eq_false_2. }
  split; [exact Hrest|].
  split.
  { unfold storedPassword, afterRotation. rewrite Ha', Ha. simpl.
    rewrite <- Hrest at 2. reflexivity. }
  split.
  { intros id' Hne. apply account_other_after_update; [assumption|].
    intros _. rewrite rotated_id. by apply account_id in Ha. }
  split; [apply updateFirst_length|]. split; reflexivity.
Qed.

(** Witness of [rotation_frame]: the login of [alice] at second 100. *)
Lemma rotation_frame_witness :
  ∃ id u u',
    account id sampleDb = Some u ∧ account id dbAfterLogin = Some u' ∧
    refreshToken u' = Some (generateRefreshToken sampleEnv 100 u) ∧
    (refreshToken u = refreshToken u' → u' = u) ∧
    (refreshToken u ≠ refreshToken u' → updatedAt u' = 100250%Z) ∧
    set_updatedAt (updatedAt u) (set_refreshToken (refreshToken u) u') = u ∧
    storedPassword id dbAfterLogin = storedPassword id sampleDb ∧
    (∀ id', id' ≠ id → account id' dbAfterLogin = account id' sampleDb) ∧
    length (users dbAfterLogin) = length (users sampleDb) ∧
    subscriptions dbAfterLogin = subscriptions sampleDb ∧
    videos dbAfterLogin = videos sampleDb.
Proof.
  apply (rotation_frame sampleEnv (mkWorld 100 0 100250) aliceLogin sampleDb dbAfterLogin
           (loginResponse sampleEnv (mkWorld 100 0 100250) alice)).
  left. vm_compute. reflexivity.
Defined.

(** ** Login, then authentication *)

Lemma login_issues_access env w req db db1 resp u accessToken rt :
  loginUser env w req db = (db1, inr resp) →
  data (json resp) = DataLogin u (Some accessToken) rt →
  ∃ id u0,
    account id db1 = Some (rotated env w u0) ∧
    _id u0 = id ∧
    accessToken = generateAccessToken env (clock w) u0 ∧
    rt = Some (generateRefreshToken env (clock w) u0) ∧
    u = Some (sanitized (rotated env w u0)).
Proof.
  intros Hl Hd. apply loginUser_inv in Hl as (id & u0 & Ha & -> & ->).
  simpl in Hd. injection Hd as <- <- <-.
  exists id, u0. split; [by apply account_after_rotation|].
  split; [by apply account_id in Ha|]. repeat split.
Qed.

(** X3.  The access credential a login issues authenticates its holder:
    presented to the middleware before it expires, it is accepted, nothing
    is written, and the identity attached to the request is the account
    projection the login returned; from its expiry second on it is refused
    with status 401, "jwt expired". *)
Theorem login_then_authenticate env w0 w1 reqL req db db1 resp u accessToken rt :
  loginUser env w0 reqL db = (db1, inr resp) →
  data (json resp) = DataLogin u (Some accessToken) rt →
  extractToken req = Some accessToken →
  ((clock w1 < clock w0 + ACCESS_TOKEN_EXPIRY env)%Z →
   ∃ identity, u = Some identity ∧
               verifyJWT env w1 req db1 = (db1, inr (attachUser identity req))) ∧
  ((clock w0 + ACCESS_TOKEN_EXPIRY env ≤ clock w1)%Z →
   verifyJWT env w1 req db1 = (db1, inl (ApiError 401 "jwt expired"))).
Proof.
  intros Hl Hd Hx.
  destruct (login_issues_access _ _ _ _ _ _ _ _ _ Hl Hd)
    as (id & u0 & Ha & Hid & -> & _ & ->).
  split; intros Ht.
  - eexists. split; [reflexivity|].
    apply (verifyJWT_accepts env w1 req db1 _
             (mkPayload (_id u0) (Some (email u0)) (Some (username u0))
                        (Some (fullName u0))) _ Hx).
    + by apply verify_sign.
    + simpl. by rewrite Hid.
  - rewrite (verifyJWT_unverified env w1 req db1 _
               (RuntimeError "TokenExpiredError" "jwt expired") Hx); [reflexivity|done|].
    unfold generateAccessToken, jwt.sign, jwt.verify, Txt.ofJwt. simpl.
    rewrite bool_decide_eq_true_2 by reflexivity. simpl.
    apply Z.leb_le in Ht. by rewrite Ht.
Qed.

(** Witness of [login_then_authenticate]: [alice] logs in at second 100
    and presents the access cookie at second 500, then at second 1000. *)
Lemma login_then_authenticate_witness :
  ((500 < 100 + 900)%Z →
   ∃ identity,
     Some (sanitized (rotated sampleEnv (mkWorld 100 0 100250) alice)) = Some identity ∧
     verifyJWT sampleEnv (mkWorld 500 0 500250) (accessCookie (aliceAccessToken 100)) dbAfterLogin
     = (dbAfterLogin, inr (attachUser identity (accessCookie (aliceAccessToken 100))))) ∧
  ((100 + 900 ≤ 500)%Z →
   verifyJWT sampleEnv (mkWorld 500 0 500250) (accessCookie (aliceAccessToken 100)) dbAfterLogin
   = (dbAfterLogin, inl (ApiError 401 "jwt expired"))).
Proof.
  apply (login_then_authenticate sampleEnv (mkWorld 100 0 100250) (mkWorld 500 0 500250) aliceLogin
           (accessCookie (aliceAccessToken 100)) sampleDb dbAfterLogin
           (loginResponse sampleEnv (mkWorld 100 0 100250) alice)
           (Some (sanitized (rotated sampleEnv (mkWorld 100 0 100250) alice)))
           (aliceAccessToken 100)
           (Some (aliceRefreshToken 100))).
  - vm_compute. reflexivity.
  - reflexivity.
  - reflexivity.
Defined.

(** ** The two credential classes *)

(** X4.  The middleware tells a refresh credential from an access
    credential by the signing secret alone: the refresh credential a login
    issues, presented to the middleware before it expires, is refused with
    "invalid signature" when the two secrets differ, and is accepted as an
    access credential when they are equal. *)
Theorem refresh_token_as_access env w0 w1 reqL req db db1 resp u accessToken tok :
  loginUser env w0 reqL db = (db1, inr resp) →
  data (json resp) = DataLogin u accessToken (Some tok) →
  extractToken req = Some tok →
  (clock w1 < clock w0 + REFRESH_TOKEN_EXPIRY env)%Z →
  (REFRESH_TOKEN_SECRET env ≠ ACCESS_TOKEN_SECRET env →
   verifyJWT env w1 req db1 = (db1, inl (ApiError 401 "invalid signature"))) ∧
  (REFRESH_TOKEN_SECRET env = ACCESS_TOKEN_SECRET env →
   ∃ identity, verifyJWT env w1 req db1 = (db1, inr (attachUser identity req))).
Proof.
  intros Hl Hd Hx Ht.
  destruct (login_issues _ _ _ _ _ _ _ _ _ Hl Hd) as (id & u0 & Ha & -> & -> & Ha1).
  pose proof (account_id _ _ _ Ha) as Hid.
  split; intros Hs.
  - rewrite (verifyJWT_unverified env w1 req _ _
               (RuntimeError "JsonWebTokenError" "invalid signature") Hx); [reflexivity|done|].
    unfold generateRefreshToken, jwt.sign, jwt.verify, Txt.ofJwt. simpl.
    by rewrite bool_decide_eq_false_2.
  - eexists.
    apply (verifyJWT_accepts env w1 req _ _ (mkPayload (_id u0) None None None)
             (rotated env w0 u0) Hx).
    + rewrite <- Hs. by apply verify_sign.
    + simpl. rewrite Hid. exact Ha1.
Qed.

(** Witness of [refresh_token_as_access]: the refresh credential of
    [alice] sent as the access cookie. *)
Lemma refresh_token_as_access_witness :
  ("refresh-secret" ≠ "access-secret" →
   verifyJWT sampleEnv (mkWorld 101 0 101250) (accessCookie (aliceRefreshToken 100)) dbAfterLogin
   = (dbAfterLogin, inl (ApiError 401 "invalid signature"))) ∧
  ("refresh-secret" = "access-secret" →
   ∃ identity,
     verifyJWT sampleEnv (mkWorld 101 0 101250) (accessCookie (aliceRefreshToken 100)) dbAfterLogin
     = (dbAfterLogin, inr (attachUser identity (accessCookie (aliceRefreshToken 100))))).
Proof.
  apply (refresh_token_as_access sampleEnv (mkWorld 100 0 100250) (mkWorld 101 0 101250) aliceLogin
           (accessCookie (aliceRefreshToken 100)) sampleDb dbAfterLogin
           (loginResponse sampleEnv (mkWorld 100 0 100250) alice)
           (Some (sanitized (rotated sampleEnv (mkWorld 100 0 100250) alice)))
           (Some (aliceAccessToken 100))
           (aliceRefreshToken 100)).
  - vm_compute. reflexivity.
  - reflexivity.
  - reflexivity.
  - simpl. lia.
Defined.

(** X5.  An access credential cannot be exchanged: presenting the access
    credential a login issued to a refresh fails with status 401 at every
    clock second and whatever the secrets are, and writes nothing. *)
Theorem access_token_never_refreshes env w0 w1 reqL reqR db db1 resp u accessToken rt :
  loginUser env w0 reqL db = (db1, inr resp) →
  data (json resp) = DataLogin u (Some accessToken) rt →
  presented reqR = Some accessToken →
  ∃ m, refreshAccessToken env w1 reqR db1 = (db1, inl (ApiError 401 m)).
Proof.
  intros Hl Hd Hp.
  destruct (login_issues_access _ _ _ _ _ _ _ _ _ Hl Hd)
    as (id & u0 & Ha & Hid & -> & _ & _).
  destruct (refreshAccessToken env w1 reqR db1) as [db2 [e|resp2]] eqn:Hr.
  - pose proof (refresh_failure_db _ _ _ _ _ _ Hr) as ->.
    destruct (refresh_failure_401 _ _ _ _ _ _ Hr) as [m ->]. eauto.
  - exfalso.
    apply refresh_answer_inv in Hr as (tok & p & a & Hp' & Hv & Ha' & He & _).
    rewrite Hp in Hp'. injection Hp' as <-.
    apply verify_inv in Hv as (j & [= <-] & _ & _ & <-).
    simpl in Ha'. rewrite Hid, Ha in Ha'. injection Ha' as <-.
    rewrite rotated_refreshToken in He.
    unfold generateRefreshToken, generateAccessToken, jwt.sign, Txt.ofJwt in He.
    discriminate.
Qed.

(** Witness of [access_token_never_refreshes]: the access credential of
    [alice] sent as the refresh cookie. *)
Lemma access_token_never_refreshes_witness :
  ∃ m, refreshAccessToken sampleEnv (mkWorld 101 0 101250) (refreshWith (aliceAccessToken 100))
         dbAfterLogin = (dbAfterLogin, inl (ApiError 401 m)).
Proof.
  apply (access_token_never_refreshes sampleEnv (mkWorld 100 0 100250) (mkWorld 101 0 101250) aliceLogin
           (refreshWith (aliceAccessToken 100)) sampleDb dbAfterLogin
           (loginResponse sampleEnv (mkWorld 100 0 100250) alice)
           (Some (sanitized (rotated sampleEnv (mkWorld 100 0 100250) alice)))
           (aliceAccessToken 100)
           (Some (aliceRefreshToken 100))).
  - vm_compute. reflexivity.
  - reflexivity.
  - reflexivity.
Defined.

(** ** Login, case by case *)

Lemma loginUser_no_name env w req db :
  Js.truthy (body_username req) = false → Js.truthy (body_email req) = false →
  loginUser env w req db = (db, inl (ApiError 400 "username or email is required")).
Proof. intros Hu He. unfold loginUser. rewrite Hu, He. reflexivity. Qed.

Lemma loginUser_unknown env w req db :
  Js.truthy (body_username req) || Js.truthy (body_email req) = true →
  findFirst (UserModel.matchesUsernameOrEmail (body_username req) (body_email req))
            (users db) = None →
  loginUser env w req db = (db, inl (ApiError 404 "User does not exist")).
Proof.
  intros Ht Hf. unfold loginUser.
  destruct (Js.truthy (body_username req)), (Js.truthy (body_email req));
    try discriminate; simpl;
    unfold bind at 1; unfold UserModel.findOne, gets; by rewrite Hf.
Qed.

Lemma loginUser_wrong_password env w req db u0 :
  Js.truthy (body_username req) || Js.truthy (body_email req) = true →
  findFirst (UserModel.matchesUsernameOrEmail (body_username req) (body_email req))
            (users db) = Some u0 →
  bcrypt.compare (body_password req) (password u0) = inr false →
  loginUser env w req db = (db, inl (ApiError 401 "Invalid user credentials")).
Proof.
  intros Ht Hf Hc. unfold loginUser.
  destruct (Js.truthy (body_username req)), (Js.truthy (body_email req));
    try discriminate; simpl;
    unfold bind at 1; unfold UserModel.findOne, gets; rewrite Hf;
    unfold bind at 1; unfold isPasswordCorrect; by rewrite Hc.
Qed.

Lemma loginUser_accepts env w req db u0 u :
  Js.truthy (body_username req) || Js.truthy (body_email req) = true →
  findFirst (UserModel.matchesUsernameOrEmail (body_username req) (body_email req))
            (users db) = Some u0 →
  bcrypt.compare (body_password req) (password u0) = inr true →
  account (_id u0) db = Some u →
  loginUser env w req db =
    (afterRotation env w (_id u0) u db, inr (loginResponse env w u)).
Proof.
  intros Ht Hf Hc Ha. unfold loginUser.
  destruct (Js.truthy (body_username req)), (Js.truthy (body_email req));
    try discriminate; simpl;
    unfold bind at 1; unfold UserModel.findOne, gets; rewrite Hf;
    unfold bind at 1; unfold isPasswordCorrect; rewrite Hc; simpl;
    unfold bind at 1; rewrite (generate_found env w _ db u Ha);
    unfold bind at 1; unfold bind, UserModel.findById, gets, ret;
    fold (account (_id u0) (setUsers (updateFirst (hasId (_id u0))
            (λ _, rotated env w u)) db));
    rewrite (account_after_rotation env w _ db u Ha); reflexivity.
Qed.

(** A lookup by username or email finds nothing exactly when no stored
    account has the cast username as its username or the cast email as its
    email. *)
Lemma findOne_nothing uname mail l :
  findFirst (UserModel.matchesUsernameOrEmail uname mail) l = None ↔
  ∀ u, u ∈ l → UserModel.castUsername <$> uname ≠ Some (username u) ∧
               UserModel.castEmail <$> mail ≠ Some (email u).
Proof.
  rewrite findFirst_None. unfold UserModel.matchesUsernameOrEmail.
  split; intros H u Hu; specialize (H u Hu).
  - apply orb_false_iff in H as [H1 H2].
    by apply bool_decide_eq_false in H1, H2.
  - destruct H as [H1 H2]. apply orb_false_iff.
    split; by apply bool_decide_eq_false.
Qed.

(** X6.  The three refusals of a login: without a username and without
    an email it fails with status 400; when no stored account has the
    given username, trimmed and in lower case, as its username, or the
    given email, trimmed, as its email, it fails with status 404; when the
    password does not compare equal to the stored one of the account found
    it fails with status 401, "Invalid user credentials".  None of them
    writes. *)
Theorem loginUser_refusals env w req db :
  (Js.truthy (body_username req) = false → Js.truthy (body_email req) = false →
   loginUser env w req db = (db, inl (ApiError 400 "username or email is required"))) ∧
  (Js.truthy (body_username req) || Js.truthy (body_email req) = true →
   (∀ u, u ∈ users db →
         Js.toLowerCase ∘ Js.trim <$> body_username req ≠ Some (username u) ∧
         Js.trim <$> body_email req ≠ Some (email u)) →
   loginUser env w req db = (db, inl (ApiError 404 "User does not exist"))) ∧
  (∀ u0,
     Js.truthy (body_username req) || Js.truthy (body_email req) = true →
     findFirst (UserModel.matchesUsernameOrEmail (body_username req) (body_email req))
               (users db) = Some u0 →
     bcrypt.compare (body_password req) (password u0) = inr false →
     loginUser env w req db = (db, inl (ApiError 401 "Invalid user credentials"))).
Proof.
  split; [apply loginUser_no_name|]. split.
  - intros Ht Hno. apply loginUser_unknown; [assumption|].
    apply findOne_nothing. intros u Hu. destruct (Hno u Hu) as [H1 H2].
    split; [|exact H2]. by destruct (body_username req).
  - intros u0. apply loginUser_wrong_password.
Qed.

(** Witness of [loginUser_refusals]: an empty login, a login of an unknown
    handle and a login of [alice] with a wrong password. *)
Lemma loginUser_refusals_witness :
  loginUser sampleEnv (mkWorld 100 0 100250) emptyRequest sampleDb
    = (sampleDb, inl (ApiError 400 "username or email is required")) ∧
  loginUser sampleEnv (mkWorld 100 0 100250)
      (mkRequest None None None None None (Some "mallory") (Some "pw123")
                 None None None None None) sampleDb
    = (sampleDb, inl (ApiError 404 "User does not exist")) ∧
  loginUser sampleEnv (mkWorld 100 0 100250) (aliceLoginWith "guess") sampleDb
    = (sampleDb, inl (ApiError 401 "Invalid user credentials")).
Proof.
  split; [|split].
  - apply (proj1 (loginUser_refusals sampleEnv (mkWorld 100 0 100250) emptyRequest sampleDb));
      reflexivity.
  - apply (proj1 (proj2 (loginUser_refusals sampleEnv (mkWorld 100 0 100250)
             (mkRequest None None None None None (Some "mallory") (Some "pw123")
                        None None None None None) sampleDb))).
    + reflexivity.
    + intros u Hu. apply list_elem_of_singleton in Hu as ->. split; discriminate.
  - apply (proj2 (proj2 (loginUser_refusals sampleEnv (mkWorld 100 0 100250)
             (aliceLoginWith "guess") sampleDb)) alice).
    + reflexivity.
    + reflexivity.
    + reflexivity.
Defined.

(** The lookup of a login reads the username up to letter case and
    surrounding white space, and the email up to surrounding white space,
    but not up to letter case. *)
Lemma loginUser_cast_examples :
  let login name mail :=
    answer (loginUser sampleEnv (mkWorld 100 0 100250)
              (mkRequest None None None None mail name (Some "pw123")
                         None None None None None) sampleDb) in
  login (Some " ALICE ") None = inr 200%Z ∧
  login None (Some " alice@x.com ") = inr 200%Z ∧
  login None (Some "ALICE@x.com") = inl (ApiError 404 "User does not exist").
Proof. vm_compute. repeat split. Qed.

(** ** Password change, then login and refresh *)

Section UniqueIds.

(** In a collection with pairwise distinct ids, what a query found is
    found again, updated, after an update by id that does not change what
    the query looks at. *)
Lemma findFirst_after_update_by_id (Q : User → bool) (f : User → User) id l x :
  NoDup (_id <$> l) →
  findFirst Q l = Some x → _id x = id →
  Q (f x) = true →
  findFirst Q (updateFirst (hasId id) f l) = Some (f x).
Proof.
  intros Hnd Hf Hid HQ. induction l as [|b l IH]; [discriminate|].
  rewrite fmap_cons in Hnd. apply NoDup_cons in Hnd as [Hb Hnd].
  rewrite findFirst_cons in Hf. simpl.
  destruct (hasId id b) eqn:Hb'; unfold hasId in Hb'.
  - apply bool_decide_eq_true in Hb'. rewrite findFirst_cons.
    destruct (Q b) eqn:HQb.
    + injection Hf as ->. by rewrite HQ.
    + exfalso. apply Hb. apply findFirst_Some in Hf as [_ Hin].
      apply list_elem_of_fmap. exists x. split; [congruence|assumption].
  - apply bool_decide_eq_false in Hb'. rewrite findFirst_cons.
    destruct (Q b) eqn:HQb.
    + injection Hf as ->. contradiction.
    + by apply IH.
Qed.

Lemma account_of_member db u :
  NoDup (_id <$> users db) → u ∈ users db → account (_id u) db = Some u.
Proof.
  unfold account. induction (users db) as [|b l IH]; intros Hnd Hin.
  - by apply elem_of_nil in Hin.
  - rewrite fmap_cons in Hnd. apply NoDup_cons in Hnd as [Hb Hnd].
    rewrite findFirst_cons. unfold hasId at 1.
    apply elem_of_cons in Hin as [->|Hin].
    + by rewrite bool_decide_eq_true_2.
    + rewrite bool_decide_eq_false_2; [by apply IH|].
      intros E. apply Hb. rewrite E. by apply list_elem_of_fmap_2.
Qed.

End UniqueIds.

(** X7.  After a password change that answers, over a directory with
    pairwise distinct ids, a login whose lookup finds the account is
    accepted with the new password, and refused with the old one, with
    status 401, "Invalid user credentials", when the old one does not
    compare equal to the digest of the new one. *)
Theorem change_then_login env w w' reqC reqL db db' resp v u old new :
  NoDup (_id <$> users db) →
  req_user reqC = Some v →
  body_oldPassword reqC = Some old →
  body_newPassword reqC = Some new →
  changeCurrentPassword w reqC db = (db', inr resp) →
  Js.truthy (body_username reqL) || Js.truthy (body_email reqL) = true →
  findFirst (UserModel.matchesUsernameOrEmail (body_username reqL) (body_email reqL))
            (users db) = Some u →
  _id u = _id v →
  (body_password reqL = Some new →
   answer (loginUser env w' reqL db') = inr 200%Z) ∧
  (body_password reqL = Some old →
   bcrypt.compare (Some old) (Some (bcrypt.hash (Plain new) (salt w))) = inr false →
   loginUser env w' reqL db' = (db', inl (ApiError 401 "Invalid user credentials"))).
Proof.
  intros Hnd Hv Ho Hn Hc Ht Hf Hid.
  pose proof (findFirst_Some _ _ _ Hf) as [HQ Hin].
  pose proof (account_of_member db u Hnd Hin) as Ha. rewrite Hid in Ha.
  assert (Hcmp : bcrypt.compare (body_oldPassword reqC) (password u) = inr true).
  { destruct (bcrypt.compare (body_oldPassword reqC) (password u)) as [e|[]] eqn:E;
      [|reflexivity|].
    - exfalso. revert Hc. unfold changeCurrentPassword. rewrite Hv.
      unfold bind at 1. unfold UserModel.findById, gets. simpl.
      fold (account (_id v) db). rewrite Ha.
      unfold bind at 1. unfold isPasswordCorrect. rewrite E. discriminate.
    - rewrite (change_wrong_old w reqC db v u Hv Ha E) in Hc. discriminate. }
  rewrite (change_right_old w reqC db v u new Hv Ha Hcmp Hn) in Hc.
  injection Hc as <- _.
  set (u' := withPassword w new u).
  assert (Hf' : findFirst (UserModel.matchesUsernameOrEmail (body_username reqL)
                             (body_email reqL))
                  (users (setUsers (updateFirst (hasId (_id v)) (λ _, u')) db))
                = Some u').
  { simpl. apply (findFirst_after_update_by_id _ (λ _, u') (_id v) _ u Hnd Hf Hid).
    exact HQ. }
  assert (Ha' : account (_id u') (setUsers (updateFirst (hasId (_id v)) (λ _, u')) db)
                = Some u').
  { change (_id u') with (_id u). rewrite Hid.
    apply (account_after_update (_id v) (withPassword w new) db u Ha). exact Hid. }
  split.
  - intros Hp.
    rewrite (loginUser_accepts env w' reqL _ u' u' Ht Hf'); [reflexivity| |exact Ha'].
    rewrite Hp. simpl. by rewrite bool_decide_eq_true_2.
  - intros Hp Hne.
    apply (loginUser_wrong_password env w' reqL _ u' Ht Hf').
    rewrite Hp. exact Hne.
Qed.

(** Witness of [change_then_login]: [alice] changes [pw123] into [pw456]
    and logs in again. *)
Lemma change_then_login_witness :
  answer (loginUser sampleEnv (mkWorld 300 0 300250) (aliceLoginWith "pw456")
            (fst (changeCurrentPassword (mkWorld 200 8 200250)
                    (changeRequest alice "pw123" "pw456") sampleDb)))
  = inr 200%Z ∧
  loginUser sampleEnv (mkWorld 300 0 300250) (aliceLoginWith "pw123")
    (fst (changeCurrentPassword (mkWorld 200 8 200250)
            (changeRequest alice "pw123" "pw456") sampleDb))
  = (fst (changeCurrentPassword (mkWorld 200 8 200250)
            (changeRequest alice "pw123" "pw456") sampleDb),
     inl (ApiError 401 "Invalid user credentials")).
Proof.
  split.
  - apply (change_then_login sampleEnv (mkWorld 200 8 200250) (mkWorld 300 0 300250)
             (changeRequest alice "pw123" "pw456") (aliceLoginWith "pw456") sampleDb
             (fst (changeCurrentPassword (mkWorld 200 8 200250)
                     (changeRequest alice "pw123" "pw456") sampleDb))
             (mkResponse 200 []
                (mkApiResponse 200 DataEmpty "Password changed successfully"))
             alice alice "pw123" "pw456").
    + simpl. apply NoDup_singleton.
    + reflexivity.
    + reflexivity.
    + reflexivity.
    + vm_compute. reflexivity.
    + reflexivity.
    + vm_compute. reflexivity.
    + reflexivity.
    + reflexivity.
  - apply (change_then_login sampleEnv (mkWorld 200 8 200250) (mkWorld 300 0 300250)
             (changeRequest alice "pw123" "pw456") (aliceLoginWith "pw123") sampleDb
             (fst (changeCurrentPassword (mkWorld 200 8 200250)
                     (changeRequest alice "pw123" "pw456") sampleDb))
             (mkResponse 200 []
                (mkApiResponse 200 DataEmpty "Password changed successfully"))
             alice alice "pw123" "pw456").
    + simpl. apply NoDup_singleton.
    + reflexivity.
    + reflexivity.
    + reflexivity.
    + vm_compute. reflexivity.
    + reflexivity.
    + vm_compute. reflexivity.
    + reflexivity.
    + reflexivity.
    + reflexivity.
Defined.

(** X8.  A password change does not end a session: a refresh credential
    that is the stored one before a password change that answers, and that
    still verifies, is accepted by a refresh after the change. *)
Theorem change_keeps_session env w w' reqC reqR db db' resp v tok p :
  req_user reqC = Some v →
  changeCurrentPassword w reqC db = (db', inr resp) →
  storedRefreshToken (_id v) db = Some tok →
  presented reqR = Some tok →
  jwt.verify tok (REFRESH_TOKEN_SECRET env) (clock w') = inr p →
  p_id p = _id v →
  answer (refreshAccessToken env w' reqR db') = inr 200%Z.
Proof.
  intros Hv Hc Hs Hp Hver Hid.
  unfold storedRefreshToken in Hs.
  destruct (account (_id v) db) as [u|] eqn:Ha; [|discriminate]. simpl in Hs.
  destruct (bcrypt.compare (body_oldPassword reqC) (password u)) as [e|[]] eqn:E.
  - exfalso. revert Hc. unfold changeCurrentPassword. rewrite Hv.
    unfold bind at 1. unfold UserModel.findById, gets. simpl.
    fold (account (_id v) db). rewrite Ha.
    unfold bind at 1. unfold isPasswordCorrect. rewrite E. discriminate.
  - destruct (body_newPassword reqC) as [new|] eqn:Hn.
    + rewrite (change_right_old w reqC db v u new Hv Ha E Hn) in Hc.
      injection Hc as <- _.
      assert (Ha' : account (p_id p)
                (setUsers (updateFirst (hasId (_id v)) (λ _, withPassword w new u)) db)
              = Some (withPassword w new u)).
      { rewrite Hid.
        apply (account_after_update (_id v) (withPassword w new) db u Ha).
        simpl. by apply account_id in Ha. }
      by rewrite (refresh_match env w' reqR _ tok p _ Hp Hver Ha' Hs).
    + exfalso. revert Hc. unfold changeCurrentPassword. rewrite Hv, Hn.
      unfold bind at 1. unfold UserModel.findById, gets. simpl.
      fold (account (_id v) db). rewrite Ha.
      unfold bind at 1. unfold isPasswordCorrect. rewrite E. simpl.
      destruct (compare_true_digest _ _ E) as (s0 & h0 & Hp0).
      unfold bind at 1. rewrite (save_password_undefined w u db s0 h0 Hp0).
      discriminate.
  - rewrite (change_wrong_old w reqC db v u Hv Ha E) in Hc. discriminate.
Qed.

(** Witness of [change_keeps_session]: [alice] logs in at second 100,
    changes her password at second 200 and refreshes at second 300 with the
    credential of second 100. *)
Lemma change_keeps_session_witness :
  answer (refreshAccessToken sampleEnv (mkWorld 300 0 300250) (refreshWith (aliceRefreshToken 100))
            (fst (changeCurrentPassword (mkWorld 200 8 200250)
                    (changeRequest alice "pw123" "pw456") dbAfterLogin)))
  = inr 200%Z.
Proof.
  apply (change_keeps_session sampleEnv (mkWorld 200 8 200250) (mkWorld 300 0 300250)
           (changeRequest alice "pw123" "pw456") (refreshWith (aliceRefreshToken 100))
           dbAfterLogin
           (fst (changeCurrentPassword (mkWorld 200 8 200250)
                   (changeRequest alice "pw123" "pw456") dbAfterLogin))
           (mkResponse 200 []
              (mkApiResponse 200 DataEmpty "Password changed successfully"))
           alice (aliceRefreshToken 100) (mkPayload 1%N None None None)).
  - reflexivity.
  - vm_compute. reflexivity.
  - vm_compute. reflexivity.
  - reflexivity.
  - vm_compute. reflexivity.
  - reflexivity.
Defined.

(** * Further properties of the middleware and of the queries *)

(** ** [replace] removes the leftmost occurrence *)

Lemma startsWith_Some pat t rest : Txt.startsWith pat t = Some rest ↔ t = pat ++ rest.
Proof.
  revert t. induction pat as [|p pat IH]; intros t; simpl.
  - destruct t; split; congruence.
  - destruct t as [|x t]; [split; discriminate|].
    destruct (decide (p = x)) as [->|Hne].
    + rewrite IH. split; congruence.
    + split; [discriminate|]. intros [= -> _]. contradiction.
Qed.

Lemma replaceFirst_unfold pat t :
  Txt.replaceFirst pat t =
    match Txt.startsWith pat t with
    | Some rest => rest
    | None => match t with
              | [] => []
              | x :: t' => x :: Txt.replaceFirst pat t'
              end
    end.
Proof. destruct t; reflexivity. Qed.

Lemma replaceFirst_absent pat t :
  (∀ pre post, t ≠ pre ++ pat ++ post) → Txt.replaceFirst pat t = t.
Proof.
  induction t as [|x t IH]; intros Hno; rewrite replaceFirst_unfold.
  - destruct (Txt.startsWith pat []) as [rest|] eqn:E; [|reflexivity].
    apply startsWith_Some in E. exfalso. by apply (Hno [] rest).
  - destruct (Txt.startsWith pat (x :: t)) as [rest|] eqn:E.
    + apply startsWith_Some in E. exfalso. by apply (Hno [] rest).
    + f_equal. apply IH. intros pre post ->. by apply (Hno (x :: pre) post).
Qed.

(** [text.replace(pattern, "")] removes the leftmost occurrence of the
    pattern and nothing else: a text in which the pattern occurs loses the
    occurrence that starts first, and a text in which it does not occur is
    returned unchanged. *)
Lemma replaceFirst_leftmost (pat pre post : Text) :
  (∀ pre' post' : Text,
     pre ++ pat ++ post = pre' ++ pat ++ post' → (length pre ≤ length pre')%nat) →
  Txt.replaceFirst pat (pre ++ pat ++ post) = pre ++ post.
Proof.
  induction pre as [|x pre IH]; intros Hmin.
  - simpl. apply replaceFirst_prefix.
  - rewrite replaceFirst_unfold.
    destruct (Txt.startsWith pat ((x :: pre) ++ pat ++ post)) as [rest|] eqn:E.
    + apply startsWith_Some in E. specialize (Hmin [] rest E). simpl in Hmin. lia.
    + simpl. f_equal. apply IH. intros pre' post' E'.
      specialize (Hmin (x :: pre') post'). simpl in Hmin.
      rewrite E' in Hmin. specialize (Hmin eq_refl). lia.
Qed.

(** Of two occurrences of the scheme the first is removed. *)
Lemma replaceFirst_leftmost_example :
  Txt.replaceFirst Bearer (Txt.ofString "x " ++ Bearer ++ Bearer)
  = Txt.ofString "x " ++ Bearer.
Proof.
  apply (replaceFirst_leftmost Bearer (Txt.ofString "x ") Bearer).
  intros pre' post' E.
  destruct pre' as [|a [|b pre']]; [discriminate|discriminate|simpl; lia].
Defined.

(** The verdict of the middleware depends on the request through the
    credential it extracts only. *)
Lemma verifyJWT_verdict_ext env w req1 req2 db :
  extractToken req1 = extractToken req2 →
  verdict (verifyJWT env w req1 db) = verdict (verifyJWT env w req2 db).
Proof.
  intros E.
  destruct (Txt.truthy (extractToken req2)) eqn:Ht.
  2:{ rewrite (verifyJWT_no_token env w req1), (verifyJWT_no_token env w req2);
        [reflexivity|assumption|by rewrite E]. }
  destruct (extractToken req2) as [tok|] eqn:Hx; [|discriminate].
  assert (tok ≠ []) as Hne by (intros ->; discriminate).
  destruct (jwt.verify tok (ACCESS_TOKEN_SECRET env) (clock w)) as [e|p] eqn:Hv.
  { by rewrite (verifyJWT_unverified _ _ req1 _ _ _ E Hne Hv),
               (verifyJWT_unverified _ _ req2 _ _ _ Hx Hne Hv). }
  destruct (account (p_id p) db) as [u|] eqn:Ha.
  - by rewrite (verifyJWT_accepts _ _ req1 _ _ _ _ E Hv Ha),
               (verifyJWT_accepts _ _ req2 _ _ _ _ Hx Hv Ha).
  - by rewrite (verifyJWT_unknown_subject _ _ req1 _ _ _ E Hv Ha),
               (verifyJWT_unknown_subject _ _ req2 _ _ _ Hx Hv Ha).
Qed.

(** X9.  The scheme is optional: when the cookie yields nothing and the
    text of the [Authorization] header does not contain ["Bearer "], the
    middleware verifies the whole header as the credential.  Its verdict,
    the error thrown or the identity attached, is the one it gives on the
    request that carries the same text after the scheme; in particular a
    bare token that verifies and whose subject is stored is accepted. *)
Theorem header_without_scheme env w req h db :
  Txt.truthy (cookies_accessToken req) = false →
  header_Authorization req = Some h →
  (∀ pre post, h ≠ pre ++ Bearer ++ post) →
  verdict (verifyJWT env w req db) = verdict (verifyJWT env w (bearerRequest h) db) ∧
  (∀ p u, jwt.verify h (ACCESS_TOKEN_SECRET env) (clock w) = inr p →
          account (p_id p) db = Some u →
          verifyJWT env w req db = (db, inr (attachUser (sanitized u) req))).
Proof.
  intros Hc Hh Hno.
  assert (Hx : extractToken req = Some h).
  { unfold extractToken. rewrite Txt_or_falsy, Hh by assumption.
    simpl. f_equal. by apply replaceFirst_absent. }
  split.
  - apply verifyJWT_verdict_ext. rewrite Hx. symmetry.
    change (extractToken (bearerRequest h))
      with (Some (Txt.replaceFirst Bearer (Bearer ++ h))).
    by rewrite replaceFirst_prefix.
  - intros p u Hv Ha. by apply (verifyJWT_accepts env w req db h p u).
Qed.

(** Witness of [header_without_scheme]: the access token of [alice] sent
    bare in the header is accepted like the one sent with the scheme. *)
Lemma header_without_scheme_witness :
  verdict (verifyJWT sampleEnv (mkWorld 101 0 101250)
             (headerRequest (aliceAccessToken 100)) dbAfterLogin)
  = verdict (verifyJWT sampleEnv (mkWorld 101 0 101250)
               (bearerRequest (aliceAccessToken 100)) dbAfterLogin) ∧
  (∀ p u,
     jwt.verify (aliceAccessToken 100) (ACCESS_TOKEN_SECRET sampleEnv) 101 = inr p →
     account (p_id p) dbAfterLogin = Some u →
     verifyJWT sampleEnv (mkWorld 101 0 101250)
       (headerRequest (aliceAccessToken 100)) dbAfterLogin
     = (dbAfterLogin,
        inr (attachUser (sanitized u) (headerRequest (aliceAccessToken 100))))).
Proof.
  apply (header_without_scheme sampleEnv (mkWorld 101 0 101250)
           (headerRequest (aliceAccessToken 100)) (aliceAccessToken 100) dbAfterLogin).
  - reflexivity.
  - reflexivity.
  - intros pre post E. destruct pre as [|a [|b pre]]; discriminate.
Defined.

(** ** The queries and the middleware write nothing *)

Lemma verifyJWT_failure_db env w req db db' e :
  verifyJWT env w req db = (db', inl e) → db' = db.
Proof.
  intros H.
  destruct (Txt.truthy (extractToken req)) eqn:Ht.
  2:{ rewrite verifyJWT_no_token in H by assumption. by injection H as <- _. }
  destruct (extractToken req) as [tok|] eqn:Hx; [|discriminate].
  assert (tok ≠ []) as Hne by (intros ->; discriminate).
  destruct (jwt.verify tok (ACCESS_TOKEN_SECRET env) (clock w)) as [e'|p] eqn:Hv.
  { rewrite (verifyJWT_unverified _ _ _ _ _ _ Hx Hne Hv) in H. by injection H as <- _. }
  destruct (account (p_id p) db) as [u|] eqn:Ha.
  - rewrite (verifyJWT_accepts _ _ _ _ _ _ _ Hx Hv Ha) in H. discriminate.
  - rewrite (verifyJWT_unknown_subject _ _ _ _ _ _ Hx Hv Ha) in H. by injection H as <- _.
Qed.

(** X10.  The authentication middleware, the channel query and the
    watch-history query never write: whatever the request and whether they
    answer or throw, the database is left as it was. *)
Theorem queries_write_nothing env w req db :
  fst (verifyJWT env w req db) = db ∧
  fst (getUserChannelProfile req db) = db ∧
  fst (getWatchHistory req db) = db.
Proof.
  split; [|split].
  - destruct (verifyJWT env w req db) as [db' [e|r]] eqn:H; simpl.
    + by apply verifyJWT_failure_db in H.
    + by apply verifyJWT_answer_inv in H as (? & ? & ? & _ & _ & _ & -> & _).
  - unfold getUserChannelProfile.
    destruct (negb (Js.truthy (Js.trim <$> params_username req))); [reflexivity|].
    unfold bind, gets.
    by destruct (match Js.toLowerCase <$> params_username req with
                 | Some lowered => aggregate_channel lowered (_id <$> req_user req) db
                 | None => []
                 end).
  - unfold getWatchHistory. destruct (req_user req) as [viewer|]; [|reflexivity].
    unfold bind, gets. by destruct (aggregate_history (_id viewer) db).
Qed.

(** ** White space and letter case *)

Lemma trimStart_empty s : Js.trimStart s = "" ↔ allWhite s = true.
Proof.
  induction s as [|c s IH]; simpl; [done|].
  destruct (Js.isWhiteSpace c); simpl; [exact IH|]. split; discriminate.
Qed.

Lemma allWhite_trimStart s : allWhite (Js.trimStart s) = allWhite s.
Proof.
  induction s as [|c s IH]; simpl; [done|].
  destruct (Js.isWhiteSpace c) eqn:E; simpl; [exact IH|]. by rewrite E.
Qed.

Lemma trimEnd_empty s : Js.trimEnd s = "" ↔ allWhite s = true.
Proof.
  induction s as [|c s IH]; simpl; [done|].
  destruct (Js.trimEnd s) as [|c' r'] eqn:E.
  - destruct (Js.isWhiteSpace c); simpl.
    + split; [intros _; by apply IH|reflexivity].
    + split; discriminate.
  - split; [discriminate|]. intros H. apply andb_true_iff in H as [_ H].
    apply IH in H. discriminate.
Qed.

Lemma trimEnd_idem s : Js.trimEnd (Js.trimEnd s) = Js.trimEnd s.
Proof.
  induction s as [|c s IH]; simpl; [done|].
  destruct (Js.trimEnd s) as [|c' r'] eqn:E.
  - destruct (Js.isWhiteSpace c) eqn:Ec; simpl; [done|]. by rewrite Ec.
  - simpl in *. rewrite IH. reflexivity.
Qed.

Lemma trimEnd_head c s :
  Js.isWhiteSpace c = false → ∃ r, Js.trimEnd (String c s) = String c r.
Proof.
  intros Hc. simpl. destruct (Js.trimEnd s); [rewrite Hc|]; eauto.
Qed.

(** [trim] gives the empty string exactly for the strings made of white
    space only, and trimming twice is trimming once. *)
Lemma trim_blank_idem s :
  (Js.trim s = "" ↔ allWhite s = true) ∧ Js.trim (Js.trim s) = Js.trim s.
Proof.
  split.
  - unfold Js.trim. by rewrite trimEnd_empty, allWhite_trimStart.
  - unfold Js.trim.
    destruct (Js.trimStart s) as [|c r] eqn:E; [reflexivity|].
    assert (Hc : Js.isWhiteSpace c = false).
    { clear -E. induction s as [|a s IH]; [discriminate|]. simpl in E.
      destruct (Js.isWhiteSpace a) eqn:Ea; [by apply IH|]. by injection E as <- _. }
    destruct (trimEnd_head c r Hc) as [r' Hr]. rewrite Hr.
    assert (Js.trimStart (String c r') = String c r') as -> by (simpl; by rewrite Hc).
    by rewrite <- Hr, trimEnd_idem.
Qed.

(** X11.  Registration rejects a request with "All fields are required"
    exactly when one of the four fields is supplied and made of white
    space only (the empty string included). *)
Theorem registerUser_rejects_white_fields req :
  registerUser_fieldsCheck req = inl (ApiError 400 "All fields are required") ↔
  ∃ s, Some s ∈ registrationFields req ∧ allWhite s = true.
Proof.
  unfold registerUser_fieldsCheck. fold (registrationFields req).
  pose proof (someFieldBlank_spec (registrationFields req)) as Hs.
  assert (Hiff : (∃ s, Some s ∈ registrationFields req ∧ Js.trim s = "") ↔
                 (∃ s, Some s ∈ registrationFields req ∧ allWhite s = true)).
  { split; intros (s & Hin & H); exists s; split; try assumption;
      by apply (proj1 (trim_blank_idem s)). }
  rewrite <- Hiff, <- Hs.
  destruct (someFieldBlank (registrationFields req)); split; try done.
Qed.

Lemma lowerChar_white c : Js.isWhiteSpace (Js.lowerChar c) = Js.isWhiteSpace c.
Proof. destruct c as [[] [] [] [] [] [] [] []]; reflexivity. Qed.

Lemma allWhite_toLowerCase s : allWhite (Js.toLowerCase s) = allWhite s.
Proof.
  induction s as [|c s IH]; simpl; [done|]. by rewrite lowerChar_white, IH.
Qed.

Lemma trimStart_toLowerCase s :
  Js.trimStart (Js.toLowerCase s) = Js.toLowerCase (Js.trimStart s).
Proof.
  induction s as [|c s IH]; simpl; [done|].
  rewrite lowerChar_white. by destruct (Js.isWhiteSpace c).
Qed.

Lemma trimEnd_toLowerCase s :
  Js.trimEnd (Js.toLowerCase s) = Js.toLowerCase (Js.trimEnd s).
Proof.
  induction s as [|c s IH]; simpl; [done|].
  rewrite IH, lowerChar_white.
  destruct (Js.trimEnd s); simpl; [|reflexivity].
  by destruct (Js.isWhiteSpace c).
Qed.

(** The two setters of the [username] path commute, so the order in which
    Mongoose runs them does not show. *)
Lemma trim_toLowerCase s : Js.trim (Js.toLowerCase s) = Js.toLowerCase (Js.trim s).
Proof. unfold Js.trim. by rewrite trimStart_toLowerCase, trimEnd_toLowerCase. Qed.

(** White space and letter case beyond ASCII: the no-break space U+00A0 is
    trimmed like a space; the capital E with acute accent U+00C9 is lowered
    to U+00E9, while the multiplication sign U+00D7 and the sharp s U+00DF
    are left as they are. *)
Lemma trim_toLowerCase_examples :
  Js.trim (String "160" (String "a" (String "160" ""))) = "a" ∧
  allWhite (String "160" "") = true ∧
  Js.toLowerCase (String "201" "LAN") = String "233" "lan" ∧
  Js.toLowerCase (String "215" (String "223" "")) = String "215" (String "223" "").
Proof. vm_compute. repeat split. Qed.

Lemma trim_truthy s : Js.truthy (Some (Js.trim s)) = negb (allWhite s).
Proof.
  simpl. destruct (allWhite s) eqn:E.
  - apply (proj1 (trim_blank_idem s)) in E. by rewrite E.
  - rewrite bool_decide_eq_false_2; [done|].
    intros H. apply (proj1 (trim_blank_idem s)) in H. congruence.
Qed.

(** X12.  The channel query reads the requested handle up to letter case:
    two requests of the same viewer whose handles have the same lower-case
    form get the same answer, or the same failure. *)
Theorem getUserChannelProfile_case_insensitive req1 req2 h1 h2 db :
  params_username req1 = Some h1 →
  params_username req2 = Some h2 →
  req_user req1 = req_user req2 →
  Js.toLowerCase h1 = Js.toLowerCase h2 →
  getUserChannelProfile req1 db = getUserChannelProfile req2 db.
Proof.
  intros H1 H2 Hu Hl. unfold getUserChannelProfile.
  rewrite H1, H2, Hu. cbn [fmap option_fmap option_map].
  rewrite !trim_truthy.
  assert (allWhite h1 = allWhite h2) as ->.
  { by rewrite <- (allWhite_toLowerCase h1), Hl, allWhite_toLowerCase. }
  by rewrite Hl.
Qed.

(** Witness of [getUserChannelProfile_case_insensitive]: [bob] asks for
    ["Alice"] and for ["ALICE"]. *)
Lemma getUserChannelProfile_case_insensitive_witness :
  getUserChannelProfile (channelRequest bob "Alice") graphDb
  = getUserChannelProfile (channelRequest bob "ALICE") graphDb.
Proof.
  apply (getUserChannelProfile_case_insensitive
           (channelRequest bob "Alice") (channelRequest bob "ALICE") "Alice" "ALICE");
    reflexivity.
Defined.

(** ** Consistency of a channel answer *)

Lemma getUserChannelProfile_answer_inv req db db' resp :
  getUserChannelProfile req db = (db', inr resp) →
  ∃ h u,
    params_username req = Some h ∧ u ∈ users db ∧ username u = Js.toLowerCase h ∧
    data (json resp) = DataChannel (channelOf (_id <$> req_user req) db u).
Proof.
  unfold getUserChannelProfile.
  destruct (negb (Js.truthy (Js.trim <$> params_username req))); [discriminate|].
  destruct (params_username req) as [h|]; [|discriminate].
  unfold bind, gets. simpl. unfold aggregate_channel.
  destruct (filter (λ u, username u = Js.toLowerCase h) (users db)) as [|u rest] eqn:E;
    [discriminate|].
  simpl. intros [= <- <-].
  assert (u ∈ filter (λ u, username u = Js.toLowerCase h) (users db)) as Hin
    by (rewrite E; left).
  apply list_elem_of_filter in Hin as [Hu Hin].
  exists h, u. repeat split; assumption.
Qed.

(** X13.  In every answer of the channel query the three computed fields
    agree: [isSubscribed] implies at least one subscriber, neither count
    exceeds the number of subscription rows, a request without identity is
    never subscribed, and the handle answered is the requested one in
    lower case. *)
Theorem channel_answer_consistent req db db' resp c :
  getUserChannelProfile req db = (db', inr resp) →
  data (json resp) = DataChannel c →
  (isSubscribed c = true → (1 ≤ subscribersCount c)%nat) ∧
  (subscribersCount c ≤ length (subscriptions db))%nat ∧
  (channelsSubscribedToCount c ≤ length (subscriptions db))%nat ∧
  (req_user req = None → isSubscribed c = false) ∧
  (∃ h, params_username req = Some h ∧ channel_username c = Js.toLowerCase h).
Proof.
  intros H Hd. apply getUserChannelProfile_answer_inv in H as (h & u & Hp & _ & Hu & Hd').
  rewrite Hd' in Hd. injection Hd as <-. simpl.
  split; [|split; [|split; [|split]]].
  - destruct (in_subscribers _ _) eqn:E; [|discriminate]. intros _.
    unfold in_subscribers in E. destruct (req_user req) as [v|]; [|discriminate].
    simpl in E. apply bool_decide_eq_true in E.
    destruct (lookup_subscriptions channel (_id u) db); [|simpl; lia].
    by apply elem_of_nil in E.
  - apply length_filter.
  - apply length_filter.
  - intros ->. reflexivity.
  - eauto.
Qed.

(** Witness of [channel_answer_consistent]: [bob] asks for ["Alice"]. *)
Lemma channel_answer_consistent_witness :
  (true = true → (1 ≤ 1)%nat) ∧ (1 ≤ 1)%nat ∧ (0 ≤ 1)%nat ∧
  (Some (sanitized bob) = None → true = false) ∧
  (∃ h, Some "Alice" = Some h ∧ "alice" = Js.toLowerCase h).
Proof.
  apply (channel_answer_consistent (channelRequest bob "Alice") graphDb graphDb
           (mkResponse 200 []
              (mkApiResponse 200
                 (DataChannel (mkChannel 1%N "Alice" "alice" 1 0 true "alice.png" None
                                 "alice@x.com"))
                 "User channel fetched successfully"))
           (mkChannel 1%N "Alice" "alice" 1 0 true "alice.png" None "alice@x.com")).
  - vm_compute. reflexivity.
  - reflexivity.
Defined.

(** ** The entries of a watch history *)

Lemma getWatchHistory_answer req db viewer u :
  req_user req = Some viewer → account (_id viewer) db = Some u →
  getWatchHistory req db =
    (db, inr (mkResponse 200 []
                (mkApiResponse 200 (DataHistory (lookup_watchHistory db u))
                   "Watch history fetched successfully"))).
Proof.
  intros Hv Ha. unfold getWatchHistory. rewrite Hv.
  unfold bind, gets, aggregate_history.
  assert (Hh : head (filter (λ x, _id x = _id viewer) (users db)) = Some u).
  { rewrite <- Ha. apply head_filter_findFirst. intros a _.
    unfold hasId. by rewrite bool_decide_eq_true. }
  destruct (filter (λ x, _id x = _id viewer) (users db)) as [|u' rest];
    [discriminate|].
  simpl in Hh. by injection Hh as ->.
Qed.

(** X15.  Over a [videos] collection with pairwise distinct ids the watch
    history lists no video twice, however often its id was watched, and
    has at most as many entries as there are videos. *)
Theorem getWatchHistory_no_repetition req db viewer u :
  req_user req = Some viewer →
  account (_id viewer) db = Some u →
  NoDup (video_id <$> videos db) →
  NoDup (answeredIds (getWatchHistory req db)) ∧
  (length (answeredIds (getWatchHistory req db)) ≤ length (videos db))%nat.
Proof.
  intros Hv Ha Hnd.
  rewrite (getWatchHistory_answer req db viewer u Hv Ha).
  unfold answeredIds. simpl. rewrite lookup_watchHistory_ids. split.
  - eapply sublist_NoDup; [exact Hnd|]. apply fmap_sublist, sublist_filter.
  - rewrite length_fmap. apply length_filter.
Qed.

(** Witness of [getWatchHistory_no_repetition]: [dave], who watched the
    first video twice. *)
Lemma getWatchHistory_no_repetition_witness :
  NoDup (answeredIds (getWatchHistory (historyRequestOf dave) graphDbWithDave)) ∧
  (length (answeredIds (getWatchHistory (historyRequestOf dave) graphDbWithDave))
   ≤ length (videos graphDbWithDave))%nat.
Proof.
  apply (getWatchHistory_no_repetition (historyRequestOf dave) graphDbWithDave dave dave).
  - reflexivity.
  - vm_compute. reflexivity.
  - simpl. apply NoDup_cons. split; [|apply NoDup_singleton].
    intros H. apply list_elem_of_singleton in H. discriminate.
Defined.

(** X16.  A viewer whose account is no longer stored does not get an
    empty history: the query throws a [TypeError], and so does a request
    that carries no identity. *)
Theorem getWatchHistory_without_account req db :
  (∀ viewer, req_user req = Some viewer → account (_id viewer) db = None →
     getWatchHistory req db =
       (db, inl (RuntimeError "TypeError"
                   "Cannot read properties of undefined (reading 'watchHistory')"))) ∧
  (req_user req = None →
   getWatchHistory req db =
     (db, inl (RuntimeError "TypeError"
                 "Cannot read properties of undefined (reading '_id')"))).
Proof.
  split.
  - intros viewer Hv Ha. unfold getWatchHistory. rewrite Hv.
    unfold bind, gets, aggregate_history.
    assert (Hh : head (filter (λ x, _id x = _id viewer) (users db)) = None).
    { rewrite <- Ha. apply head_filter_findFirst. intros a _.
      unfold hasId. by rewrite bool_decide_eq_true. }
    by destruct (filter (λ x, _id x = _id viewer) (users db)).
  - intros Hv. unfold getWatchHistory. by rewrite Hv.
Qed.

(** Witness of [getWatchHistory_without_account]: [dave] asks for his
    history over a directory that does not store him. *)
Lemma getWatchHistory_without_account_witness :
  getWatchHistory (historyRequestOf dave) graphDb =
    (graphDb, inl (RuntimeError "TypeError"
                     "Cannot read properties of undefined (reading 'watchHistory')")).
Proof.
  apply (proj1 (getWatchHistory_without_account (historyRequestOf dave) graphDb) dave).
  - reflexivity.
  - vm_compute. reflexivity.
Defined.

(** * Properties of the file handlers *)

(** ** The public id of an image *)

Lemma last_cons_default {A} (a d : A) l : List.last (a :: l) d = List.last l a.
Proof.
  revert a d. induction l as [|b l IH]; intros a d; [reflexivity|].
  change (List.last (a :: b :: l) d) with (List.last (b :: l) d).
  by rewrite (IH b d), (IH b a).
Qed.

Lemma split_without sep s : occurs sep s = false → split sep s = (s, []).
Proof.
  induction s as [|c s IH]; [reflexivity|]. simpl. intros H.
  apply orb_false_iff in H as [Hc Hs]. apply bool_decide_eq_false in Hc.
  rewrite (IH Hs), decide_False by assumption. reflexivity.
Qed.

Lemma last_split_app sep a b d :
  List.last (snd (split sep (String.append a (String sep b)))) d = pop (split sep b).
Proof.
  revert d. induction a as [|c a IH]; intros d; simpl.
  - destruct (split sep b) as [segment rest] eqn:E.
    rewrite decide_True by reflexivity. unfold pop, snd, fst.
    apply last_cons_default.
  - destruct (split sep (String.append a (String sep b))) as [segment rest] eqn:E.
    destruct (decide (c = sep)); cbn [snd].
    + rewrite last_cons_default. apply (IH segment).
    + apply (IH d).
Qed.

Lemma pop_split_app sep a b :
  pop (split sep (String.append a (String sep b))) = pop (split sep b).
Proof. unfold pop at 1. apply last_split_app. Qed.

Lemma first_split_app sep a b :
  occurs sep a = false →
  firstOf (split sep (String.append a (String sep b))) = a.
Proof.
  induction a as [|c a IH]; simpl; intros H.
  - destruct (split sep b). by rewrite decide_True.
  - apply orb_false_iff in H as [Hc Ha]. apply bool_decide_eq_false in Hc.
    specialize (IH Ha).
    destruct (split sep (String.append a (String sep b))) as [segment rest].
    rewrite decide_False by assumption. unfold firstOf in *. simpl in *. by rewrite IH.
Qed.

Lemma split_segments_clean sep s :
  occurs sep (fst (split sep s)) = false ∧
  Forall (λ segment, occurs sep segment = false) (snd (split sep s)).
Proof.
  induction s as [|c s [IH1 IH2]]; simpl; [by split|].
  destruct (split sep s) as [segment rest]. simpl in *.
  destruct (decide (c = sep)) as [->|Hne]; simpl.
  - split; [reflexivity|]. by constructor.
  - split; [|assumption]. by rewrite bool_decide_eq_false_2.
Qed.

Lemma occurs_first_split c sep s :
  occurs c s = false → occurs c (firstOf (split sep s)) = false.
Proof.
  induction s as [|a s IH]; simpl; [done|]. intros H.
  apply orb_false_iff in H as [Ha Hs]. specialize (IH Hs).
  destruct (split sep s) as [segment rest]. unfold firstOf in *. simpl in *.
  destruct (decide (a = sep)); simpl; [reflexivity|]. by rewrite Ha.
Qed.

(** X17.  The public id computed from an image url never contains a
    slash or a dot. *)
Theorem publicIdOf_clean url :
  occurs "/" (publicIdOf url) = false ∧ occurs "." (publicIdOf url) = false.
Proof.
  unfold publicIdOf. split.
  - apply occurs_first_split.
    destruct (split_segments_clean "/" url) as [H1 H2]. unfold pop.
    destruct (split "/" url) as [segment rest]. simpl in *.
    revert segment H1. induction H2 as [|x l Hx _ IH]; intros segment H1; [exact H1|].
    rewrite last_cons_default. by apply IH.
  - apply (split_segments_clean "." (pop (split "/" url))).
Qed.

(** X18.  For a url that ends in [/name.ext], where the name holds
    neither slash nor dot and the extension no slash, the public id is the
    name: the directories, the version and the extension are dropped, and
    so is everything after the first dot of the file name. *)
Theorem publicIdOf_file dir name ext :
  occurs "/" name = false → occurs "." name = false → occurs "/" ext = false →
  publicIdOf (String.append dir (String "/" (String.append name (String "." ext)))) = name.
Proof.
  intros Hn1 Hn2 He. unfold publicIdOf. rewrite pop_split_app.
  assert (Hfile : occurs "/" (String.append name (String "." ext)) = false).
  { clear Hn2. induction name as [|c name IH]; simpl in *.
    - exact He.
    - apply orb_false_iff in Hn1 as [Hc Hn]. rewrite Hc. by apply IH. }
  rewrite (split_without "/" _ Hfile). unfold pop. simpl.
  by apply first_split_app.
Qed.

(** Witness of [publicIdOf_file]: a url of the image host. *)
Lemma publicIdOf_file_witness :
  publicIdOf "http://res.cloudinary.com/demo/image/upload/v1712/avatar123.jpg"
  = "avatar123".
Proof.
  apply (publicIdOf_file "http://res.cloudinary.com/demo/image/upload/v1712"
           "avatar123" "jpg"); reflexivity.
Defined.

(** ** Uploading a local file *)

Lemma upload_done c path s response :
  path ≠ "" → path ∈ server_files s →
  uploader_upload c path = inr response →
  uploadOnCloudinary c (Some path) s =
    (mkServer (server_db s) (server_files s ∖ {[path]})
              (server_cloud s ++ [Uploaded path]),
     inr (Some response)).
Proof.
  intros Hne Hin Hup. unfold uploadOnCloudinary.
  rewrite bool_decide_eq_false_2 by assumption.
  unfold stry, sbind, cloud_upload, unlinkSync, sret.
  rewrite decide_True, Hup by assumption. simpl.
  by rewrite decide_True.
Qed.

Lemma upload_refused c path s e :
  path ≠ "" → path ∈ server_files s →
  uploader_upload c path = inl e →
  uploadOnCloudinary c (Some path) s =
    (mkServer (server_db s) (server_files s ∖ {[path]}) (server_cloud s), inr None).
Proof.
  intros Hne Hin Hup. unfold uploadOnCloudinary.
  rewrite bool_decide_eq_false_2 by assumption.
  unfold stry, sbind, cloud_upload, unlinkSync, sret.
  rewrite decide_True, Hup by assumption.
  by rewrite decide_True.
Qed.

Lemma upload_missing c path s :
  path ≠ "" → path ∉ server_files s →
  uploadOnCloudinary c (Some path) s = (s, inl ENOENT).
Proof.
  intros Hne Hin. unfold uploadOnCloudinary.
  rewrite bool_decide_eq_false_2 by assumption.
  unfold stry, sbind, cloud_upload, unlinkSync, sret.
  rewrite decide_False by assumption. by rewrite decide_False.
Qed.

(** X19.  An upload of a local file that is on disk never throws and
    always removes the file, whether the image host took it or not; it
    returns the host's response when the host took the file and [null]
    when it refused, and touches neither the database nor any other file. *)
Theorem uploadOnCloudinary_removes_file c path s :
  path ≠ "" → path ∈ server_files s →
  ∃ s' r,
    uploadOnCloudinary c (Some path) s = (s', inr r) ∧
    server_files s' = server_files s ∖ {[path]} ∧
    server_db s' = server_db s ∧
    match uploader_upload c path with
    | inr response => r = Some response ∧ server_cloud s' = server_cloud s ++ [Uploaded path]
    | inl _ => r = None ∧ server_cloud s' = server_cloud s
    end.
Proof.
  intros Hne Hin. destruct (uploader_upload c path) as [e|response] eqn:Hup.
  - eexists _, _. split; [by apply (upload_refused c path s e)|]. repeat split.
  - eexists _, _. split; [by apply (upload_done c path s response)|]. repeat split.
Qed.

(** Witness of [uploadOnCloudinary_removes_file]: the temporary file of
    the sample server, sent to a host that takes it. *)
Lemma uploadOnCloudinary_removes_file_witness :
  ∃ s' r,
    uploadOnCloudinary goodHost (Some "public/temp/new.png") sampleServer = (s', inr r) ∧
    server_files s' = server_files sampleServer ∖ {["public/temp/new.png"]} ∧
    server_db s' = server_db sampleServer ∧
    (r = Some (mkUploadResponse (Some "http://img.example/public/temp/new.png")) ∧
     server_cloud s' = server_cloud sampleServer ++ [Uploaded "public/temp/new.png"]).
Proof.
  apply (uploadOnCloudinary_removes_file goodHost "public/temp/new.png" sampleServer).
  - discriminate.
  - apply (bool_decide_unpack _). vm_compute. exact I.
Defined.

(** X20.  The edges of an upload: without a path, or with the empty
    path, it returns [null] and does nothing; with the path of a file that
    is not on disk it does not return [null] but throws the error of the
    removal, and nothing is changed. *)
Theorem uploadOnCloudinary_edges c s :
  uploadOnCloudinary c None s = (s, inr None) ∧
  uploadOnCloudinary c (Some "") s = (s, inr None) ∧
  (∀ path, path ≠ "" → path ∉ server_files s →
     uploadOnCloudinary c (Some path) s = (s, inl ENOENT)).
Proof.
  split; [reflexivity|]. split; [reflexivity|]. intros path. apply upload_missing.
Qed.

(** Witness of [uploadOnCloudinary_edges]: a path that is not on disk. *)
Lemma uploadOnCloudinary_edges_witness :
  uploadOnCloudinary goodHost (Some "public/temp/gone.png") sampleServer
  = (sampleServer, inl ENOENT).
Proof.
  apply (proj2 (proj2 (uploadOnCloudinary_edges goodHost sampleServer))
           "public/temp/gone.png").
  - discriminate.
  - apply (bool_decide_unpack _). vm_compute. exact I.
Defined.

(** ** Replacing the avatar and the cover image *)

Lemma onDb_findById id s :
  onDb (UserModel.findById (Some id)) s = (s, inr (account id (server_db s))).
Proof. unfold onDb, UserModel.findById, gets, account. by destruct s. Qed.

Lemma update_select_found now id set db u :
  account id db = Some u → (∀ a, _id (set a) = _id a) →
  bind (findByIdAndUpdate_set now (Some id) set) (λ r, ret (select ["password"] r)) db =
    (setUsers (updateFirst (hasId id) (UserModel.applyTimestampsToUpdate now set)) db,
     inr (Some (without "password" (UserModel.applyTimestampsToUpdate now set u)))).
Proof.
  intros Ha Hid.
  unfold bind, findByIdAndUpdate_set, bind, modify, UserModel.findById, gets, ret.
  simpl. rewrite findFirst_updateFirst.
  - unfold account in Ha. by rewrite Ha.
  - intros a Hp. unfold hasId in *. unfold UserModel.applyTimestampsToUpdate. simpl.
    by rewrite Hid.
Qed.

Lemma onDb_update_select now id set s u :
  account id (server_db s) = Some u → (∀ a, _id (set a) = _id a) →
  onDb (bind (findByIdAndUpdate_set now (Some id) set)
             (λ r, ret (select ["password"] r))) s =
    (mkServer (setUsers (updateFirst (hasId id)
                           (UserModel.applyTimestampsToUpdate now set)) (server_db s))
              (server_files s) (server_cloud s),
     inr (Some (without "password" (UserModel.applyTimestampsToUpdate now set u)))).
Proof.
  intros Ha Hid. unfold onDb. by rewrite (update_select_found now id set _ u Ha Hid).
Qed.

Lemma account_after_set id set db u :
  account id db = Some u → (∀ a, _id (set a) = _id a) →
  account id (setUsers (updateFirst (hasId id) set) db) = Some (set u).
Proof.
  intros Ha Hid. unfold account, setUsers. simpl. rewrite findFirst_updateFirst.
  - unfold account in Ha. by rewrite Ha.
  - intros a Hp. unfold hasId in *. by rewrite Hid.
Qed.

Lemma updateUserAvatar_run c w req s path viewer u response url :
  path ≠ "" → path ∈ server_files s →
  req_user req = Some viewer →
  account (_id viewer) (server_db s) = Some u →
  avatar u ≠ "" →
  uploader_destroy c (publicIdOf (avatar u)) = inr tt →
  uploader_upload c path = inr response →
  upload_url response = Some url → url ≠ "" →
  updateUserAvatar c w (Some (mkFile path)) req s =
    (mkServer (setUsers (updateFirst (hasId (_id viewer))
                           (UserModel.applyTimestampsToUpdate (date w) (setAvatar url)))
                        (server_db s))
              (server_files s ∖ {[path]})
              ((server_cloud s ++ [Destroyed (publicIdOf (avatar u))]) ++ [Uploaded path]),
     inr (mkDocResponse 200 200
            (Some (without "password"
                     (UserModel.applyTimestampsToUpdate (date w) (setAvatar url) u)))
            "Avatar image updated successfully")).
Proof.
  intros Hne Hin Hv Ha Hav Hd Hup Hurl Hune.
  unfold updateUserAvatar. rewrite Hv.
  cbn [fmap option_fmap option_map file_path Js.truthy].
  rewrite (bool_decide_eq_false_2 _ Hne). cbn [negb].
  unfold sbind at 1. rewrite onDb_findById, Ha.
  rewrite (bool_decide_eq_false_2 _ Hav). cbn [negb].
  unfold sbind at 1. unfold cloud_destroy. rewrite Hd.
  unfold sbind at 1.
  rewrite (upload_done c path _ response Hne); [|exact Hin|exact Hup].
  unfold urlOf. rewrite Hurl. cbn [Js.truthy].
  rewrite (bool_decide_eq_false_2 _ Hune). cbn [negb].
  unfold sbind.
  rewrite (onDb_update_select (date w) (_id viewer) (setAvatar url) _ u);
    [|exact Ha|reflexivity].
  reflexivity.
Qed.

Lemma updateUserAvatar_run_refused c w req s path viewer u e :
  path ≠ "" → path ∈ server_files s →
  req_user req = Some viewer →
  account (_id viewer) (server_db s) = Some u →
  avatar u ≠ "" →
  uploader_destroy c (publicIdOf (avatar u)) = inr tt →
  uploader_upload c path = inl e →
  updateUserAvatar c w (Some (mkFile path)) req s =
    (mkServer (server_db s) (server_files s ∖ {[path]})
              (server_cloud s ++ [Destroyed (publicIdOf (avatar u))]),
     inl (RuntimeError "TypeError" "Cannot read properties of null (reading 'url')")).
Proof.
  intros Hne Hin Hv Ha Hav Hd Hup.
  unfold updateUserAvatar. rewrite Hv.
  cbn [fmap option_fmap option_map file_path Js.truthy].
  rewrite (bool_decide_eq_false_2 _ Hne). cbn [negb].
  unfold sbind at 1. rewrite onDb_findById, Ha.
  rewrite (bool_decide_eq_false_2 _ Hav). cbn [negb].
  unfold sbind at 1. unfold cloud_destroy. rewrite Hd.
  unfold sbind at 1.
  rewrite (upload_refused c path _ e Hne); [|exact Hin|exact Hup].
  reflexivity.
Qed.

(** X21.  Replacing the avatar, when everything works (the new file is on
    disk, the account exists and has an avatar, the image host destroys
    the old image and takes the new one): the handler answers 200, the
    account stores the new url and the date of the call as [updatedAt], the
    old image is destroyed before the new one is uploaded, and the
    temporary file is removed.  The document sent back has no password but
    carries the stored refresh token. *)
Theorem updateUserAvatar_replaces c w req s path viewer u response url :
  path ≠ "" → path ∈ server_files s →
  req_user req = Some viewer →
  account (_id viewer) (server_db s) = Some u →
  avatar u ≠ "" →
  uploader_destroy c (publicIdOf (avatar u)) = inr tt →
  uploader_upload c path = inr response →
  upload_url response = Some url → url ≠ "" →
  ∃ s' doc,
    updateUserAvatar c w (Some (mkFile path)) req s =
      (s', inr (mkDocResponse 200 200 (Some doc) "Avatar image updated successfully")) ∧
    avatar doc = url ∧ password doc = None ∧ refreshToken doc = refreshToken u ∧
    account (_id viewer) (server_db s')
      = Some (set_updatedAt (date w) (setAvatar url u)) ∧
    server_files s' = server_files s ∖ {[path]} ∧
    server_cloud s' =
      server_cloud s ++ [Destroyed (publicIdOf (avatar u)); Uploaded path].
Proof.
  intros Hne Hin Hv Ha Hav Hd Hup Hurl Hune.
  eexists _, _. split.
  { by apply (updateUserAvatar_run c w req s path viewer u response url). }
  simpl. repeat split.
  - by apply (account_after_set _ (UserModel.applyTimestampsToUpdate (date w)
                                     (setAvatar url))).
  - by rewrite <- app_assoc.
Qed.

(** Witness of [updateUserAvatar_replaces]: [alice] replaces her avatar on
    the sample server. *)
Lemma updateUserAvatar_replaces_witness :
  ∃ s' doc,
    updateUserAvatar goodHost (mkWorld 200 0 200250) newAvatar aliceRequest sampleServer =
      (s', inr (mkDocResponse 200 200 (Some doc) "Avatar image updated successfully")) ∧
    avatar doc = "http://img.example/public/temp/new.png" ∧
    password doc = None ∧
    refreshToken doc = Some (aliceRefreshToken 100) ∧
    account 1%N (server_db s')
      = Some (set_updatedAt 200250
                (setAvatar "http://img.example/public/temp/new.png"
                   (rotated sampleEnv (mkWorld 100 0 100250) alice))) ∧
    server_files s' = server_files sampleServer ∖ {["public/temp/new.png"]} ∧
    server_cloud s' = [] ++ [Destroyed "alice"; Uploaded "public/temp/new.png"].
Proof.
  apply (updateUserAvatar_replaces goodHost (mkWorld 200 0 200250) aliceRequest sampleServer
           "public/temp/new.png" (sanitized alice) (rotated sampleEnv (mkWorld 100 0 100250) alice)
           (mkUploadResponse (Some "http://img.example/public/temp/new.png"))
           "http://img.example/public/temp/new.png").
  - discriminate.
  - apply (bool_decide_unpack _). vm_compute. exact I.
  - reflexivity.
  - vm_compute. reflexivity.
  - discriminate.
  - reflexivity.
  - reflexivity.
  - reflexivity.
  - discriminate.
Defined.

(** X22.  Replacing the avatar when the image host refuses the new file:
    the handler throws a [TypeError] (it reads [url] of [null]), not an
    [ApiError]; by then the old image has been destroyed and the temporary
    file removed, while the account still stores the url of the destroyed
    image. *)
Theorem updateUserAvatar_upload_refused c w req s path viewer u e :
  path ≠ "" → path ∈ server_files s →
  req_user req = Some viewer →
  account (_id viewer) (server_db s) = Some u →
  avatar u ≠ "" →
  uploader_destroy c (publicIdOf (avatar u)) = inr tt →
  uploader_upload c path = inl e →
  ∃ s',
    updateUserAvatar c w (Some (mkFile path)) req s =
      (s', inl (RuntimeError "TypeError"
                  "Cannot read properties of null (reading 'url')")) ∧
    server_db s' = server_db s ∧
    server_files s' = server_files s ∖ {[path]} ∧
    server_cloud s' = server_cloud s ++ [Destroyed (publicIdOf (avatar u))].
Proof.
  intros Hne Hin Hv Ha Hav Hd Hup.
  eexists. split.
  { by apply (updateUserAvatar_run_refused c w req s path viewer u e). }
  repeat split.
Qed.

(** Witness of [updateUserAvatar_upload_refused]: [alice] replaces her
    avatar while the uploads of the image host fail. *)
Lemma updateUserAvatar_upload_refused_witness :
  ∃ s',
    updateUserAvatar failingHost (mkWorld 200 0 200250) newAvatar aliceRequest sampleServer =
      (s', inl (RuntimeError "TypeError"
                  "Cannot read properties of null (reading 'url')")) ∧
    server_db s' = server_db sampleServer ∧
    server_files s' = server_files sampleServer ∖ {["public/temp/new.png"]} ∧
    server_cloud s' = [] ++ [Destroyed "alice"].
Proof.
  apply (updateUserAvatar_upload_refused failingHost (mkWorld 200 0 200250) aliceRequest
           sampleServer
           "public/temp/new.png" (sanitized alice) (rotated sampleEnv (mkWorld 100 0 100250) alice)
           (RuntimeError "Error" "upload failed")).
  - discriminate.
  - apply (bool_decide_unpack _). vm_compute. exact I.
  - reflexivity.
  - vm_compute. reflexivity.
  - discriminate.
  - reflexivity.
  - reflexivity.
Defined.

(** X23.  The refusals of an avatar replacement leave the server as it
    is: without a file the handler fails with status 400, for an account
    that is not stored with status 404, and when the image host fails to
    destroy the old image with the host's error; in each case nothing is
    written, nothing is uploaded and the temporary file stays on disk. *)
Theorem updateUserAvatar_refusals c w file req s :
  (Js.truthy (file_path <$> file) = false →
   updateUserAvatar c w file req s = (s, inl (ApiError 400 "Avatar file is missing"))) ∧
  (Js.truthy (file_path <$> file) = true →
   (∀ viewer, req_user req = Some viewer → account (_id viewer) (server_db s) = None) →
   updateUserAvatar c w file req s = (s, inl (ApiError 404 "User not found"))) ∧
  (∀ viewer u e,
     Js.truthy (file_path <$> file) = true →
     req_user req = Some viewer → account (_id viewer) (server_db s) = Some u →
     avatar u ≠ "" → uploader_destroy c (publicIdOf (avatar u)) = inl e →
     updateUserAvatar c w file req s = (s, inl e)).
Proof.
  split; [|split].
  - intros Hf. unfold updateUserAvatar. by rewrite Hf.
  - intros Hf Hno. unfold updateUserAvatar. rewrite Hf. cbn [negb].
    unfold sbind. destruct (req_user req) as [viewer|] eqn:Hv;
      cbn [fmap option_fmap option_map].
    + rewrite onDb_findById, (Hno viewer eq_refl). reflexivity.
    + unfold onDb, UserModel.findById, gets. by destruct s.
  - intros viewer u e Hf Hv Ha Hav Hd. unfold updateUserAvatar. rewrite Hf, Hv.
    cbn [negb fmap option_fmap option_map Js.truthy].
    unfold sbind at 1. rewrite onDb_findById, Ha.
    rewrite (bool_decide_eq_false_2 _ Hav). cbn [negb].
    unfold sbind at 1. unfold cloud_destroy. by rewrite Hd.
Qed.

(** Witness of [updateUserAvatar_refusals]: a replacement without file,
    and one by [dave], whom the sample server does not store. *)
Lemma updateUserAvatar_refusals_witness :
  updateUserAvatar goodHost (mkWorld 200 0 200250) None aliceRequest sampleServer
    = (sampleServer, inl (ApiError 400 "Avatar file is missing")) ∧
  updateUserAvatar goodHost (mkWorld 200 0 200250) newAvatar (historyRequestOf dave)
      sampleServer
    = (sampleServer, inl (ApiError 404 "User not found")).
Proof.
  split.
  - apply (proj1 (updateUserAvatar_refusals goodHost (mkWorld 200 0 200250) None
                    aliceRequest sampleServer)).
    reflexivity.
  - apply (proj1 (proj2 (updateUserAvatar_refusals goodHost (mkWorld 200 0 200250)
                           newAvatar (historyRequestOf dave) sampleServer))).
    + reflexivity.
    + intros viewer [= <-]. vm_compute. reflexivity.
Defined.

Lemma updateUserCoverImage_run c w req s path viewer u response url :
  path ≠ "" → path ∈ server_files s →
  req_user req = Some viewer →
  account (_id viewer) (server_db s) = Some u →
  (∀ old, coverImage u = Some old → old ≠ "" →
          uploader_destroy c (publicIdOf old) = inr tt) →
  uploader_upload c path = inr response →
  upload_url response = Some url → url ≠ "" →
  updateUserCoverImage c w (Some (mkFile path)) req s =
    (mkServer (setUsers (updateFirst (hasId (_id viewer))
                           (UserModel.applyTimestampsToUpdate (date w) (setCoverImage url)))
                        (server_db s))
              (server_files s ∖ {[path]})
              ((server_cloud s ++ oldCoverCalls u) ++ [Uploaded path]),
     inr (mkDocResponse 200 200
            (Some (without "password"
                     (UserModel.applyTimestampsToUpdate (date w) (setCoverImage url) u)))
            "Cover image updated successfully")).
Proof.
  intros Hne Hin Hv Ha Hd Hup Hurl Hune.
  unfold updateUserCoverImage. rewrite Hv.
  cbn [fmap option_fmap option_map file_path Js.truthy].
  rewrite (bool_decide_eq_false_2 _ Hne). cbn [negb].
  unfold sbind at 1. rewrite onDb_findById, Ha.
  unfold sbind at 1.
  assert (Hold : (match coverImage u with
                  | Some old =>
                      if negb (bool_decide (old = ""))
                      then cloud_destroy c (publicIdOf old)
                      else sret tt
                  | None => sret tt
                  end) s
                 = (mkServer (server_db s) (server_files s)
                             (server_cloud s ++ oldCoverCalls u), inr tt)).
  { unfold oldCoverCalls. destruct (coverImage u) as [old|] eqn:Hc.
    - destruct (bool_decide (old = "")) eqn:E; cbn [negb].
      + unfold sret. rewrite app_nil_r. by destruct s.
      + apply bool_decide_eq_false in E. unfold cloud_destroy.
        by rewrite (Hd old eq_refl E).
    - unfold sret. rewrite app_nil_r. by destruct s. }
  rewrite Hold.
  unfold sbind at 1.
  rewrite (upload_done c path _ response Hne); [|exact Hin|exact Hup].
  unfold urlOf. rewrite Hurl. cbn [Js.truthy].
  rewrite (bool_decide_eq_false_2 _ Hune). cbn [negb].
  unfold sbind.
  rewrite (onDb_update_select (date w) (_id viewer) (setCoverImage url) _ u);
    [|exact Ha|reflexivity].
  reflexivity.
Qed.

(** X24.  Replacing the cover image, when everything works: the handler
    answers 200, the account stores the new url and the date of the call as
    [updatedAt], and the temporary file is removed; an old cover image is
    destroyed first, and nothing is destroyed for an account without cover
    image or with the empty one.  The document sent back has no password
    but carries the stored refresh token. *)
Theorem updateUserCoverImage_replaces c w req s path viewer u response url :
  path ≠ "" → path ∈ server_files s →
  req_user req = Some viewer →
  account (_id viewer) (server_db s) = Some u →
  (∀ old, coverImage u = Some old → old ≠ "" →
          uploader_destroy c (publicIdOf old) = inr tt) →
  uploader_upload c path = inr response →
  upload_url response = Some url → url ≠ "" →
  ∃ s' doc,
    updateUserCoverImage c w (Some (mkFile path)) req s =
      (s', inr (mkDocResponse 200 200 (Some doc) "Cover image updated successfully")) ∧
    coverImage doc = Some url ∧ password doc = None ∧
    refreshToken doc = refreshToken u ∧
    account (_id viewer) (server_db s')
      = Some (set_updatedAt (date w) (setCoverImage url u)) ∧
    server_files s' = server_files s ∖ {[path]} ∧
    server_cloud s' = server_cloud s ++ oldCoverCalls u ++ [Uploaded path].
Proof.
  intros Hne Hin Hv Ha Hd Hup Hurl Hune.
  eexists _, _. split.
  { by apply (updateUserCoverImage_run c w req s path viewer u response url). }
  simpl. repeat split.
  - by apply (account_after_set _ (UserModel.applyTimestampsToUpdate (date w)
                                     (setCoverImage url))).
  - by rewrite <- app_assoc.
Qed.

(** Witness of [updateUserCoverImage_replaces]: [alice], who has no cover
    image, sets one on the sample server. *)
Lemma updateUserCoverImage_replaces_witness :
  ∃ s' doc,
    updateUserCoverImage goodHost (mkWorld 200 0 200250) newAvatar aliceRequest
        sampleServer =
      (s', inr (mkDocResponse 200 200 (Some doc) "Cover image updated successfully")) ∧
    coverImage doc = Some "http://img.example/public/temp/new.png" ∧
    password doc = None ∧
    refreshToken doc = Some (aliceRefreshToken 100) ∧
    account 1%N (server_db s')
      = Some (set_updatedAt 200250
                (setCoverImage "http://img.example/public/temp/new.png"
                   (rotated sampleEnv (mkWorld 100 0 100250) alice))) ∧
    server_files s' = server_files sampleServer ∖ {["public/temp/new.png"]} ∧
    server_cloud s' = [] ++ [] ++ [Uploaded "public/temp/new.png"].
Proof.
  apply (updateUserCoverImage_replaces goodHost (mkWorld 200 0 200250) aliceRequest
           sampleServer
           "public/temp/new.png" (sanitized alice) (rotated sampleEnv (mkWorld 100 0 100250) alice)
           (mkUploadResponse (Some "http://img.example/public/temp/new.png"))
           "http://img.example/public/temp/new.png").
  - discriminate.
  - apply (bool_decide_unpack _). vm_compute. exact I.
  - reflexivity.
  - vm_compute. reflexivity.
  - intros old. discriminate.
  - reflexivity.
  - reflexivity.
  - discriminate.
Defined.

(** ** Registration, up to the creation of the account *)

Lemma onDb_findOne uname mail s :
  onDb (UserModel.findOne uname mail) s =
    (s, inr (findFirst (UserModel.matchesUsernameOrEmail uname mail)
               (users (server_db s)))).
Proof. unfold onDb, UserModel.findOne, gets. by destruct s. Qed.

(** X25.  The refusals of a registration leave the server as it is, so
    nothing is uploaded and the temporary files stay on disk: a blank
    field fails with status 400, an account found under the username or
    the email with status 409, and a request without files, or with an
    empty list of avatars, with status 400, "Avatar file is required"; a
    request whose files hold no avatar entry at all throws a [TypeError]
    instead. *)
Theorem registerUser_refusals c files req s :
  (∀ e, registerUser_fieldsCheck req = inl e →
        registerUser_prepare c files req s = (s, inl e)) ∧
  (∀ u, registerUser_fieldsCheck req = inr tt →
        findFirst (UserModel.matchesUsernameOrEmail (body_username req) (body_email req))
                  (users (server_db s)) = Some u →
        registerUser_prepare c files req s =
          (s, inl (ApiError 409 "User with email or username already exists"))) ∧
  (registerUser_fieldsCheck req = inr tt →
   findFirst (UserModel.matchesUsernameOrEmail (body_username req) (body_email req))
             (users (server_db s)) = None →
   files = None ∨ (∃ fs, files = Some fs ∧ files_avatar fs = Some []) →
   registerUser_prepare c files req s =
     (s, inl (ApiError 400 "Avatar file is required"))) ∧
  (∀ fs, registerUser_fieldsCheck req = inr tt →
         findFirst (UserModel.matchesUsernameOrEmail (body_username req) (body_email req))
                   (users (server_db s)) = None →
         files = Some fs → files_avatar fs = None →
         registerUser_prepare c files req s =
           (s, inl (RuntimeError "TypeError"
                      "Cannot read properties of undefined (reading '0')"))).
Proof.
  split; [|split; [|split]].
  - intros e Hc. unfold registerUser_prepare. by rewrite Hc.
  - intros u Hc Hf. unfold registerUser_prepare. rewrite Hc.
    unfold sbind. by rewrite onDb_findOne, Hf.
  - intros Hc Hf Hfiles. unfold registerUser_prepare. rewrite Hc.
    unfold sbind. rewrite onDb_findOne, Hf.
    destruct Hfiles as [->|(fs & -> & Hav)]; simpl; [reflexivity|].
    by rewrite Hav.
  - intros fs Hc Hf -> Hav. unfold registerUser_prepare. rewrite Hc.
    unfold sbind. rewrite onDb_findOne, Hf. simpl. by rewrite Hav.
Qed.

(** Witness of [registerUser_refusals]: a registration under the handle
    of [alice], and the registration of [bob] without files. *)
Lemma registerUser_refusals_witness :
  registerUser_prepare goodHost bobFiles
      (mkRequest None None None (Some "Al") (Some "al@x.com") (Some "alice")
                 (Some "pw") None None None None None) sampleServer
    = (sampleServer, inl (ApiError 409 "User with email or username already exists")) ∧
  registerUser_prepare goodHost None bobRegistration sampleServer
    = (sampleServer, inl (ApiError 400 "Avatar file is required")).
Proof.
  split.
  - apply (proj1 (proj2 (registerUser_refusals goodHost bobFiles
             (mkRequest None None None (Some "Al") (Some "al@x.com") (Some "alice")
                        (Some "pw") None None None None None) sampleServer))
             (rotated sampleEnv (mkWorld 100 0 100250) alice)).
    + reflexivity.
    + vm_compute. reflexivity.
  - apply (proj1 (proj2 (proj2 (registerUser_refusals goodHost None bobRegistration
             sampleServer)))).
    + reflexivity.
    + vm_compute. reflexivity.
    + left. reflexivity.
Defined.

(** The lookup of a registration reads the username up to letter case and
    surrounding white space, and the email up to surrounding white space. *)
Lemma registerUser_cast_examples :
  let register name mail :=
    snd (registerUser_prepare goodHost bobFiles
           (mkRequest None None None (Some "Al") (Some mail) (Some name) (Some "pw")
                      None None None None None) sampleServer) in
  register " ALICE" "al@x.com"
    = inl (ApiError 409 "User with email or username already exists") ∧
  register "al" " alice@x.com "
    = inl (ApiError 409 "User with email or username already exists").
Proof. vm_compute. repeat split. Qed.

Lemma registerUser_prepare_uploaded c files req s path response :
  registerUser_fieldsCheck req = inr tt →
  findFirst (UserModel.matchesUsernameOrEmail (body_username req) (body_email req))
            (users (server_db s)) = None →
  avatarPathOf files = inr (Some path) → coverImagePathOf files = None →
  path ≠ "" → path ∈ server_files s →
  uploader_upload c path = inr response →
  registerUser_prepare c files req s =
    (mkServer (server_db s) (server_files s ∖ {[path]})
              (server_cloud s ++ [Uploaded path]),
     match body_username req with
     | Some name =>
         inr (mkNewUser (body_fullName req) (upload_url response) ""
                (body_email req) (body_password req) (Js.toLowerCase name))
     | None =>
         inl (RuntimeError "TypeError"
                "Cannot read properties of undefined (reading 'toLowerCase')")
     end).
Proof.
  intros Hc Hf Hav Hcov Hne Hin Hup. unfold registerUser_prepare. rewrite Hc.
  unfold sbind at 1. rewrite onDb_findOne, Hf, Hav, Hcov.
  cbn [Js.truthy]. rewrite (bool_decide_eq_false_2 _ Hne). cbn [negb].
  unfold sbind at 1.
  rewrite (upload_done c path _ response Hne); [|exact Hin|exact Hup].
  unfold sbind at 1. cbn [uploadOnCloudinary sret].
  by destruct (body_username req).
Qed.

(** X26.  A registration with an avatar and without cover image, whose
    fields are not blank and whose username and email are free, reaches
    the creation of the account with the username in lower case, the url
    the image host answered as avatar and the empty string as cover image;
    the avatar has been uploaded and its temporary file removed, and the
    database has not been written yet. *)
Theorem registerUser_prepare_success c files req s path name response :
  registerUser_fieldsCheck req = inr tt →
  findFirst (UserModel.matchesUsernameOrEmail (body_username req) (body_email req))
            (users (server_db s)) = None →
  avatarPathOf files = inr (Some path) → coverImagePathOf files = None →
  path ≠ "" → path ∈ server_files s →
  uploader_upload c path = inr response →
  body_username req = Some name →
  ∃ s' new,
    registerUser_prepare c files req s = (s', inr new) ∧
    new_username new = Js.toLowerCase name ∧
    new_avatar new = upload_url response ∧
    new_coverImage new = "" ∧
    new_fullName new = body_fullName req ∧
    new_email new = body_email req ∧
    new_password new = body_password req ∧
    server_db s' = server_db s ∧
    server_files s' = server_files s ∖ {[path]} ∧
    server_cloud s' = server_cloud s ++ [Uploaded path].
Proof.
  intros Hc Hf Hav Hcov Hne Hin Hup Hn.
  rewrite (registerUser_prepare_uploaded c files req s path response
             Hc Hf Hav Hcov Hne Hin Hup), Hn.
  eexists _, _. repeat split.
Qed.

(** Witness of [registerUser_prepare_success]: the registration of [bob],
    whose username is sent as ["Bob"]. *)
Lemma registerUser_prepare_success_witness :
  ∃ s' new,
    registerUser_prepare goodHost bobFiles bobRegistration sampleServer = (s', inr new) ∧
    new_username new = "bob" ∧
    new_avatar new = Some "http://img.example/public/temp/new.png" ∧
    new_coverImage new = "" ∧
    new_fullName new = Some "Bob" ∧
    new_email new = Some "bob@x.com" ∧
    new_password new = Some "hunter2" ∧
    server_db s' = server_db sampleServer ∧
    server_files s' = server_files sampleServer ∖ {["public/temp/new.png"]} ∧
    server_cloud s' = [] ++ [Uploaded "public/temp/new.png"].
Proof.
  apply (registerUser_prepare_success goodHost bobFiles bobRegistration sampleServer
           "public/temp/new.png" "Bob"
           (mkUploadResponse (Some "http://img.example/public/temp/new.png"))).
  - reflexivity.
  - vm_compute. reflexivity.
  - reflexivity.
  - reflexivity.
  - discriminate.
  - apply (bool_decide_unpack _). vm_compute. exact I.
  - reflexivity.
  - reflexivity.
Defined.

(** X27.  A registration without username is not refused by the check of
    the fields and is stopped only after the upload: with an avatar on
    disk that the image host takes, and no account under the email, the
    handler throws a [TypeError] when it lower-cases the username; the
    avatar is by then stored on the image host and its temporary file
    removed. *)
Theorem registerUser_without_username c files req s path response :
  body_username req = None →
  registerUser_fieldsCheck req = inr tt →
  findFirst (UserModel.matchesUsernameOrEmail None (body_email req))
            (users (server_db s)) = None →
  avatarPathOf files = inr (Some path) → coverImagePathOf files = None →
  path ≠ "" → path ∈ server_files s →
  uploader_upload c path = inr response →
  ∃ s',
    registerUser_prepare c files req s =
      (s', inl (RuntimeError "TypeError"
                  "Cannot read properties of undefined (reading 'toLowerCase')")) ∧
    server_db s' = server_db s ∧
    server_files s' = server_files s ∖ {[path]} ∧
    server_cloud s' = server_cloud s ++ [Uploaded path].
Proof.
  intros Hn Hc Hf Hav Hcov Hne Hin Hup. rewrite <- Hn in Hf.
  rewrite (registerUser_prepare_uploaded c files req s path response
             Hc Hf Hav Hcov Hne Hin Hup), Hn.
  eexists. repeat split.
Qed.

(** Witness of [registerUser_without_username]: the registration of [bob]
    with the username left out. *)
Lemma registerUser_without_username_witness :
  ∃ s',
    registerUser_prepare goodHost bobFiles
      (mkRequest None None None (Some "Bob") (Some "bob@x.com") None (Some "hunter2")
                 None None None None None) sampleServer =
      (s', inl (RuntimeError "TypeError"
                  "Cannot read properties of undefined (reading 'toLowerCase')")) ∧
    server_db s' = server_db sampleServer ∧
    server_files s' = server_files sampleServer ∖ {["public/temp/new.png"]} ∧
    server_cloud s' = [] ++ [Uploaded "public/temp/new.png"].
Proof.
  apply (registerUser_without_username goodHost bobFiles
           (mkRequest None None None (Some "Bob") (Some "bob@x.com") None (Some "hunter2")
                      None None None None None) sampleServer
           "public/temp/new.png"
           (mkUploadResponse (Some "http://img.example/public/temp/new.png"))).
  - reflexivity.
  - reflexivity.
  - vm_compute. reflexivity.
  - reflexivity.
  - reflexivity.
  - discriminate.
  - apply (bool_decide_unpack _). vm_compute. exact I.
  - reflexivity.
Defined.

(** X28.  When the avatar and the cover image of a registration have the
    same path on disk (multer names a file after its original name), the
    upload of the avatar removes the file, the upload of the cover image
    then finds no file, and the registration throws the error of the
    failed removal: no account is prepared, although the image host has
    stored the avatar. *)
Theorem registerUser_same_path c files req s path response :
  registerUser_fieldsCheck req = inr tt →
  findFirst (UserModel.matchesUsernameOrEmail (body_username req) (body_email req))
            (users (server_db s)) = None →
  avatarPathOf files = inr (Some path) → coverImagePathOf files = Some path →
  path ≠ "" → path ∈ server_files s →
  uploader_upload c path = inr response →
  ∃ s',
    registerUser_prepare c files req s = (s', inl ENOENT) ∧
    server_db s' = server_db s ∧
    (path ∉ server_files s') ∧
    Uploaded path ∈ server_cloud s'.
Proof.
  intros Hc Hf Hav Hcov Hne Hin Hup. unfold registerUser_prepare. rewrite Hc.
  unfold sbind at 1. rewrite onDb_findOne, Hf, Hav, Hcov.
  cbn [Js.truthy]. rewrite (bool_decide_eq_false_2 _ Hne). cbn [negb].
  unfold sbind at 1.
  rewrite (upload_done c path _ response Hne); [|exact Hin|exact Hup].
  unfold sbind at 1.
  assert (Hgone : path ∉ server_files s ∖ {[path]}).
  { rewrite not_elem_of_difference. right. by apply elem_of_singleton. }
  rewrite (upload_missing c path _ Hne); [|exact Hgone].
  eexists. split; [reflexivity|]. simpl. split; [reflexivity|].
  split; [exact Hgone|]. rewrite elem_of_app. right. left.
Qed.

(** Witness of [registerUser_same_path]: the registration of [bob] with
    the same file as avatar and as cover image. *)
Lemma registerUser_same_path_witness :
  ∃ s',
    registerUser_prepare goodHost
      (Some (mkFiles (Some [mkFile "public/temp/new.png"])
                     (Some [mkFile "public/temp/new.png"])))
      bobRegistration sampleServer = (s', inl ENOENT) ∧
    server_db s' = server_db sampleServer ∧
    ("public/temp/new.png" ∉ server_files s') ∧
    Uploaded "public/temp/new.png" ∈ server_cloud s'.
Proof.
  apply (registerUser_same_path goodHost
           (Some (mkFiles (Some [mkFile "public/temp/new.png"])
                          (Some [mkFile "public/temp/new.png"])))
           bobRegistration sampleServer "public/temp/new.png"
           (mkUploadResponse (Some "http://img.example/public/temp/new.png"))).
  - reflexivity.
  - vm_compute. reflexivity.
  - reflexivity.
  - reflexivity.
  - discriminate.
  - apply (bool_decide_unpack _). vm_compute. exact I.
  - reflexivity.
Defined.
